(** * The calendar interchange subsystem of unifyer: iCalendar import,
      subscription sync and the event store.

    Shallow embedding of
      - src/pages/studio/tabs/CalendarTab.tsx (the copy with subscriptions,
        lines 914-2595: [getEvents], [saveEvents], [addEvent],
        [deleteSubscription], [parseICalContent], [syncSubscription]),
      - src/shared/services/calendarService.ts ([importICalEvents],
        [parseICalDate]),
      - the earlier copy of CalendarTab.tsx (lines 1-914) and the basic parser
        [parseICal] of src/unnamed/part_005, where they differ,
    together with the part of the ECMAScript runtime these functions call
    (string methods, [parseInt], the [Date] constructor and [Date.UTC]). *)

From Stdlib Require Import ZArith QArith List String Ascii Bool Lia.
Import ListNotations.

Local Open Scope string_scope.
Local Open Scope list_scope.

(** ** The host runtime: strings, numbers, dates *)

Module JS.

(** JavaScript strings are modelled as [string]; the documents handled here are
    ASCII property lines, one [ascii] per code unit. *)

Definition TAB : ascii := ascii_of_nat 9.
Definition LF : ascii := ascii_of_nat 10.
Definition CR : ascii := ascii_of_nat 13.
Definition SP : ascii := ascii_of_nat 32.
Definition BACKSLASH : ascii := ascii_of_nat 92.

(** [s.startsWith(p)] *)
Definition startsWith (s p : string) : bool := prefix p s.

(** [s.endsWith(c)] for a one-character [c] *)
Fixpoint endsWith (s : string) (c : ascii) : bool :=
  match s with
  | EmptyString => false
  | String a EmptyString => Ascii.eqb a c
  | String _ s' => endsWith s' c
  end.

(** [s.substring(a, b)]: both indices are clamped to the length and swapped
    when [a > b]. *)
Definition substring2 (s : string) (a b : nat) : string :=
  substring (Nat.min a b) (Nat.max a b - Nat.min a b) s.

(** [s.substring(a)] *)
Definition substring1 (s : string) (a : nat) : string :=
  substring a (length s - a) s.

(** [s.indexOf(p)]; [None] is the result [-1]. *)
Definition indexOf (s p : string) : option nat := index 0 p s.

(** [s.includes(p)] *)
Definition includes (s p : string) : bool :=
  match index 0 p s with Some _ => true | None => false end.

(** [s.split(c)] for a one-character separator. *)
Fixpoint split (c : ascii) (s : string) : list string :=
  match s with
  | EmptyString => [EmptyString]
  | String a s' =>
      if Ascii.eqb a c then EmptyString :: split c s'
      else match split c s' with
           | l :: ls => String a l :: ls
           | [] => [String a EmptyString]
           end
  end.

(** [s.split(/\r\n|\n|\r/)]: the alternation tries CR LF first. *)
Fixpoint splitLines (s : string) : list string :=
  match s with
  | EmptyString => [EmptyString]
  | String a s' =>
      if Ascii.eqb a CR then
        match s' with
        | String b s'' =>
            if Ascii.eqb b LF then EmptyString :: splitLines s''
            else EmptyString :: splitLines s'
        | EmptyString => EmptyString :: splitLines s'
        end
      else if Ascii.eqb a LF then EmptyString :: splitLines s'
      else match splitLines s' with
           | l :: ls => String a l :: ls
           | [] => [String a EmptyString]
           end
  end.

(** [lines.join("\n")] *)
Fixpoint joinLines (ls : list string) : string :=
  match ls with
  | [] => EmptyString
  | [l] => l
  | l :: ls' => l ++ String LF (joinLines ls')
  end.

(** [s.replace(/\\x/g, r)]: every non-overlapping occurrence, left to right, of
    the two characters backslash [x] is replaced by [r]. *)
Fixpoint replaceEscape (x : ascii) (r : string) (s : string) : string :=
  match s with
  | EmptyString => EmptyString
  | String a s' =>
      if Ascii.eqb a BACKSLASH then
        match s' with
        | String b s'' =>
            if Ascii.eqb b x then r ++ replaceEscape x r s''
            else String a (replaceEscape x r s')
        | EmptyString => String a EmptyString
        end
      else String a (replaceEscape x r s')
  end.

(** *** Numbers.  A number is [Some z] or [None] for NaN; the program only
    produces integers far below 2^53, where doubles are exact. *)

Definition Number := option Z.

Local Open Scope Z_scope.

(** [a - b] *)
Definition sub (a b : Number) : Number :=
  match a, b with
  | Some x, Some y => Some (x - y)
  | _, _ => None
  end.

(** [a || b] on numbers: NaN and 0 are falsy. *)
Definition orElse (a : Number) (b : Z) : Number :=
  match a with
  | Some 0 => Some b
  | Some x => Some x
  | None => Some b
  end.

(** White space skipped by [parseInt] and removed by [trim]: the members of
    StrWhiteSpaceChar among the code units below 256, which are the
    characters a [string] here holds: TAB, LF, VT, FF, CR, SP and the
    no-break space U+00A0. *)
Definition isStrWhiteSpace (c : ascii) : bool :=
  let n := nat_of_ascii c in
  (Nat.eqb n 9 || Nat.eqb n 10 || Nat.eqb n 11 || Nat.eqb n 12
   || Nat.eqb n 13 || Nat.eqb n 32 || Nat.eqb n 160)%bool.

Fixpoint trimStart (s : string) : string :=
  match s with
  | String c s' => if isStrWhiteSpace c then trimStart s' else s
  | EmptyString => EmptyString
  end.

(** Value of a digit in radix up to 36. *)
Definition digitValue (c : ascii) : option Z :=
  let n := Z.of_nat (nat_of_ascii c) in
  if (48 <=? n) && (n <=? 57) then Some (n - 48)
  else if (97 <=? n) && (n <=? 122) then Some (n - 87)
  else if (65 <=? n) && (n <=? 90) then Some (n - 55)
  else None.

(** The longest prefix of digits of the radix, as a number; [acc] is the value
    read so far, [None] when no digit was read yet. *)
Fixpoint digitsPrefix (radix : Z) (s : string) (acc : Number) : Number :=
  match s with
  | String c s' =>
      match digitValue c with
      | Some d =>
          if d <? radix then
            digitsPrefix radix s'
              (Some (match acc with Some a => a * radix + d | None => d end))
          else acc
      | None => acc
      end
  | EmptyString => acc
  end.

(** [parseInt(s)] without a radix: leading white space, a sign, a 0x prefix
    selecting radix 16, then the longest digit prefix; NaN when it is empty. *)
Definition parseInt (s : string) : Number :=
  let s1 := trimStart s in
  let '(sign, s2) :=
    match s1 with
    | String "-" r => (-1, r)
    | String "+" r => (1, r)
    | _ => (1, s1)
    end in
  let '(radix, s3) :=
    match s2 with
    | String "0" (String "x" r) => (16, r)
    | String "0" (String "X" r) => (16, r)
    | _ => (10, s2)
    end in
  option_map (Z.mul sign) (digitsPrefix radix s3 None).

(** *** Dates (ECMAScript 21.4.1).  Time values are milliseconds since the
    epoch. *)

Definition msPerDay : Z := 86400000.
Definition msPerHour : Z := 3600000.
Definition msPerMinute : Z := 60000.
Definition msPerSecond : Z := 1000.

Definition Day (t : Z) : Z := t / msPerDay.
Definition TimeWithinDay (t : Z) : Z := t mod msPerDay.

Definition isLeapYear (y : Z) : bool :=
  ((y mod 4 =? 0) && negb (y mod 100 =? 0) || (y mod 400 =? 0))%bool.

Definition DaysInYear (y : Z) : Z := if isLeapYear y then 366 else 365.

Definition DayFromYear (y : Z) : Z :=
  365 * (y - 1970) + (y - 1969) / 4 - (y - 1901) / 100 + (y - 1601) / 400.

(** The largest year [y] with [DayFromYear y <= d]: an estimate from the mean
    length of a year, off by at most one. *)
Definition YearFromDay (d : Z) : Z :=
  let y0 := 1970 + (d * 400) / 146097 in
  if d <? DayFromYear y0 then y0 - 1
  else if DayFromYear (y0 + 1) <=? d then y0 + 1
  else y0.

Definition YearFromTime (t : Z) : Z := YearFromDay (Day t).

Definition DayWithinYear (t : Z) : Z := Day t - DayFromYear (YearFromTime t).

Definition InLeapYear (t : Z) : Z :=
  if isLeapYear (YearFromTime t) then 1 else 0.

(** Day number within the year of the first day of month [m] (0 to 11); 12
    gives the length of the year. *)
Definition monthStart (leap : Z) (m : Z) : Z :=
  match m with
  | 0 => 0
  | 1 => 31
  | 2 => 59 + leap
  | 3 => 90 + leap
  | 4 => 120 + leap
  | 5 => 151 + leap
  | 6 => 181 + leap
  | 7 => 212 + leap
  | 8 => 243 + leap
  | 9 => 273 + leap
  | 10 => 304 + leap
  | 11 => 334 + leap
  | _ => 365 + leap
  end.

Definition MonthFromTime (t : Z) : Z :=
  let d := DayWithinYear t in
  let l := InLeapYear t in
  if d <? 31 then 0
  else if d <? 59 + l then 1
  else if d <? 90 + l then 2
  else if d <? 120 + l then 3
  else if d <? 151 + l then 4
  else if d <? 181 + l then 5
  else if d <? 212 + l then 6
  else if d <? 243 + l then 7
  else if d <? 273 + l then 8
  else if d <? 304 + l then 9
  else if d <? 334 + l then 10
  else 11.

Definition DateFromTime (t : Z) : Z :=
  DayWithinYear t - monthStart (InLeapYear t) (MonthFromTime t) + 1.

Definition HourFromTime (t : Z) : Z := (t / msPerHour) mod 24.
Definition MinFromTime (t : Z) : Z := (t / msPerMinute) mod 60.
Definition SecFromTime (t : Z) : Z := (t / msPerSecond) mod 60.
Definition msFromTime (t : Z) : Z := t mod msPerSecond.

Definition MakeTime (hour min sec ms : Z) : Z :=
  hour * msPerHour + min * msPerMinute + sec * msPerSecond + ms.

(** [MakeDay]: months outside 0..11 carry into the year, the day of the month
    is an offset from the first of the month. *)
Definition MakeDay (year month date : Z) : Z :=
  let ym := year + month / 12 in
  let mn := month mod 12 in
  DayFromYear ym + monthStart (if isLeapYear ym then 1 else 0) mn + date - 1.

Definition MakeDate (day time : Z) : Z := day * msPerDay + time.

(** [MakeFullYear]: years 0 to 99 mean 1900 to 1999. *)
Definition MakeFullYear (y : Z) : Z :=
  if (0 <=? y) && (y <=? 99) then 1900 + y else y.

Definition TimeClip (t : Z) : Number :=
  if Z.abs t <=? 8640000000000000 then Some t else None.

(** The time value built from the six numeric arguments shared by [Date.UTC]
    and the [Date] constructor; NaN in any argument gives NaN. *)
Definition dateFromFields (year month date hour min sec : Number) : Number :=
  match year, month, date, hour, min, sec with
  | Some y, Some m, Some d, Some h, Some mi, Some s =>
      Some (MakeDate (MakeDay (MakeFullYear y) m d) (MakeTime h mi s 0))
  | _, _, _, _, _, _ => None
  end.

Definition clip (t : Number) : Number :=
  match t with Some z => TimeClip z | None => None end.

(** A [Date] object, by the way it was made.  [DateOfTime tv] is
    [new Date(tv)], an instant given by its time value (NaN for an invalid
    date).  [DateOfLocal t] is [new Date(y, m, d, ...)], whose fields give the
    local time value [t]; which instant that is depends on the host's time
    zone and is given by [timeValue] below. *)
Inductive Date : Type :=
| DateOfTime (tv : Number)
| DateOfLocal (t : Number).

(** [Date.UTC(y, m, d, h, mi, s)] *)
Definition Date_UTC (year month date hour min sec : Number) : Number :=
  clip (dateFromFields year month date hour min sec).

(** [new Date(y, m, d)] and [new Date(y, m, d, h, mi, s)] *)
Definition newDate3 (year month date : Number) : Date :=
  DateOfLocal (dateFromFields year month date (Some 0) (Some 0) (Some 0)).

Definition newDate6 (year month date hour min sec : Number) : Date :=
  DateOfLocal (dateFromFields year month date hour min sec).

(** The host's time zone.  [offsetAtUTC t] is the offset of local time from
    UTC, in milliseconds, at the instant [t]; [offsetAtLocal t] is the offset
    the host uses to read the local time value [t] (where a clock change
    skips or repeats [t], the offset before the change).  Both are given by
    the host. *)
Record Zone : Type := mkZone {
  offsetAtUTC : Z -> Z;
  offsetAtLocal : Z -> Z }.

(** [LocalTime(t)] and [UTC(t)] of the language specification. *)
Definition LocalTime (zone : Zone) (t : Z) : Z := t + offsetAtUTC zone t.
Definition UTC (zone : Zone) (t : Z) : Z := t - offsetAtLocal zone t.

(** The time value of a [Date] object on a host in [zone]: the constructor
    called with fields turns the local time value into an instant with [UTC]
    and clips it. *)
Definition timeValue (zone : Zone) (d : Date) : Number :=
  match d with
  | DateOfTime tv => tv
  | DateOfLocal (Some t) => TimeClip (UTC zone t)
  | DateOfLocal None => None
  end.

(** The calendar and clock fields of a time value. *)
Record Fields : Type := mkFields {
  f_year : Z; f_month : Z; f_date : Z;
  f_hours : Z; f_minutes : Z; f_seconds : Z; f_ms : Z }.

Definition fieldsOfTime (t : Z) : Fields :=
  mkFields (YearFromTime t) (MonthFromTime t) (DateFromTime t)
           (HourFromTime t) (MinFromTime t) (SecFromTime t) (msFromTime t).

(** What the getters [getFullYear], [getMonth], ..., and what the getters
    [getUTCFullYear], [getUTCMonth], ... read off a [Date] on a host in
    [zone]; [None] for an invalid date, whose getters give NaN. *)
Definition localFields (zone : Zone) (d : Date) : option Fields :=
  match timeValue zone d with
  | Some tv => Some (fieldsOfTime (LocalTime zone tv))
  | None => None
  end.

Definition utcFields (zone : Zone) (d : Date) : option Fields :=
  match timeValue zone d with
  | Some tv => Some (fieldsOfTime tv)
  | None => None
  end.

(** *** Exceptions.  A call either returns a value or throws. *)

Inductive Exn : Type :=
| Error (message : string)
| TypeError
| SyntaxError.

Inductive Outcome (A : Type) : Type :=
| Returned (a : A)
| Thrown (e : Exn).

Arguments Returned {A} a.
Arguments Thrown {A} e.

Definition bindO {A B : Type} (x : Outcome A) (k : A -> Outcome B) : Outcome B :=
  match x with
  | Returned a => k a
  | Thrown e => Thrown e
  end.

(** [try { body } catch (e) { handler(e) }] *)
Definition tryCatch {A : Type} (body : Outcome A) (handler : Exn -> Outcome A)
    : Outcome A :=
  match body with
  | Returned a => Returned a
  | Thrown e => handler e
  end.

(** [xs.map(f)] with a callback that may throw: the first exception ends the
    iteration. *)
Fixpoint mapO {A B : Type} (f : A -> Outcome B) (xs : list A) : Outcome (list B) :=
  match xs with
  | [] => Returned []
  | x :: xs' =>
      bindO (f x) (fun y => bindO (mapO f xs') (fun ys => Returned (y :: ys)))
  end.

End JS.


(** ** The event block parser

    [importICalEvents] of calendarService.ts, [importICalEvents] of the first
    copy of CalendarTab.tsx and [parseICalContent] of the second copy run the
    same loop over the lines of the document.  They differ in the draft created
    at BEGIN:VEVENT, in how text values are unescaped and in the date decoder;
    the loop is written once over these. *)

Module ICal.
Import JS.

Inductive EventType : Type :=
| exam | project | assignment | personal | imported | subscription.

(** [Partial<EventFormData>]: a field that was never assigned is [None]. *)
Record EventFormData : Type := mkEventFormData {
  title : option string;
  description : option string;
  startDate : option Date;
  endDate : option Date;
  allDay : option bool;
  type : EventType;
  color : option string;
  courseId : option string;
  courseName : option string;
  location : option string;
  subscriptionUrl : option string }.

Definition set_title (v : string) (e : EventFormData) : EventFormData :=
  mkEventFormData (Some v) (description e) (startDate e) (endDate e) (allDay e)
    (type e) (color e) (courseId e) (courseName e) (location e)
    (subscriptionUrl e).

Definition set_description (v : string) (e : EventFormData) : EventFormData :=
  mkEventFormData (title e) (Some v) (startDate e) (endDate e) (allDay e)
    (type e) (color e) (courseId e) (courseName e) (location e)
    (subscriptionUrl e).

Definition set_startDate (v : Date) (e : EventFormData) : EventFormData :=
  mkEventFormData (title e) (description e) (Some v) (endDate e) (allDay e)
    (type e) (color e) (courseId e) (courseName e) (location e)
    (subscriptionUrl e).

Definition set_endDate (v : Date) (e : EventFormData) : EventFormData :=
  mkEventFormData (title e) (description e) (startDate e) (Some v) (allDay e)
    (type e) (color e) (courseId e) (courseName e) (location e)
    (subscriptionUrl e).

Definition set_allDay (v : bool) (e : EventFormData) : EventFormData :=
  mkEventFormData (title e) (description e) (startDate e) (endDate e) (Some v)
    (type e) (color e) (courseId e) (courseName e) (location e)
    (subscriptionUrl e).

Definition set_location (v : string) (e : EventFormData) : EventFormData :=
  mkEventFormData (title e) (description e) (startDate e) (endDate e) (allDay e)
    (type e) (color e) (courseId e) (courseName e) (Some v)
    (subscriptionUrl e).

(** Truthiness of an optional string: undefined and the empty string are
    falsy. *)
Definition truthy (s : option string) : bool :=
  match s with
  | Some (String _ _) => true
  | _ => false
  end.

(** [currentEvent.title && currentEvent.startDate]; a Date object is truthy
    whatever its time value. *)
Definition complete (e : EventFormData) : bool :=
  truthy (title e) && match startDate e with Some _ => true | None => false end.

(** [parts.some(p => p === 'VALUE=DATE')] *)
Definition isDateOnly (parts : list string) : bool :=
  existsb (String.eqb "VALUE=DATE") parts.

(** [lines[i + 1].startsWith(' ') || lines[i + 1].startsWith('\t')] *)
Definition isContinuation (l : string) : bool :=
  startsWith l (String SP EmptyString) || startsWith l (String TAB EmptyString).

(** The line folding of the loop head alone: [line] is the logical line being
    built, [rest] the raw lines after it.  A continuation line loses its first
    character and is appended; any other line starts the next logical line. *)
Fixpoint unfoldFrom (line : string) (rest : list string) : list string :=
  match rest with
  | [] => [line]
  | nxt :: rest' =>
      if isContinuation nxt then unfoldFrom (line ++ substring1 nxt 1) rest'
      else line :: unfoldFrom nxt rest'
  end.

Definition unfoldLines (lines : list string) : list string :=
  match lines with
  | [] => []
  | l :: rest => unfoldFrom l rest
  end.

(** The unfolder on texts: split, unfold, join the logical lines again. *)
Definition unfoldText (x : string) : string :=
  joinLines (unfoldLines (splitLines x)).

Record ParserState : Type := mkParserState {
  events : list EventFormData;
  currentEvent : option EventFormData;
  inEvent : bool }.

Definition initialState : ParserState := mkParserState [] None false.

Section Parser.

(** The object literal assigned to [currentEvent] at BEGIN:VEVENT. *)
Variable newDraft : EventFormData.
(** The unescaping applied to SUMMARY, DESCRIPTION and LOCATION values. *)
Variables unescapeSummary unescapeDescription unescapeLocation : string -> string.
(** The date decoder. *)
Variable parseDate : string -> list string -> Date.

(** The [switch (mainKey)] of the loop body. *)
Definition setProperty (mainKey value : string) (keyParts : list string)
    (ce : EventFormData) : EventFormData :=
  if String.eqb mainKey "SUMMARY" then set_title (unescapeSummary value) ce
  else if String.eqb mainKey "DESCRIPTION" then
    set_description (unescapeDescription value) ce
  else if String.eqb mainKey "DTSTART" then
    set_allDay (isDateOnly keyParts) (set_startDate (parseDate value keyParts) ce)
  else if String.eqb mainKey "DTEND" then
    set_endDate (parseDate value keyParts) ce
  else if String.eqb mainKey "LOCATION" then
    set_location (unescapeLocation value) ce
  else ce.

(** A property line inside an event: split at the first colon, the key at
    its semicolons. *)
Definition propertyLine (line : string) (ce : EventFormData) : EventFormData :=
  match indexOf line ":" with
  | None => ce
  | Some colonIndex =>
      let key := substring2 line 0 colonIndex in
      let value := substring1 line (colonIndex + 1) in
      let keyParts := split ";" key in
      let mainKey := hd EmptyString keyParts in
      setProperty mainKey value keyParts ce
  end.

(** The body of the [for] loop after the folding, for one logical line. *)
Definition processLine (st : ParserState) (line : string) : ParserState :=
  if String.eqb line "BEGIN:VEVENT" then
    mkParserState (events st) (Some newDraft) true
  else
    match currentEvent st with
    | Some ce =>
        if String.eqb line "END:VEVENT" then
          mkParserState
            (if complete ce then events st ++ [ce] else events st) None false
        else if inEvent st then
          mkParserState (events st) (Some (propertyLine line ce)) (inEvent st)
        else st
    | None => st
    end.

(** The [for] loop with its inner [while]: [line] is [lines[i]] extended by
    the continuation lines read so far, [rest] the lines from [i + 1] on. *)
Fixpoint scan (st : ParserState) (line : string) (rest : list string)
    : ParserState :=
  match rest with
  | [] => processLine st line
  | nxt :: rest' =>
      if isContinuation nxt then scan st (line ++ substring1 nxt 1) rest'
      else scan (processLine st line) nxt rest'
  end.

Definition parseLines (lines : list string) : list EventFormData :=
  match lines with
  | [] => []
  | l :: rest => events (scan initialState l rest)
  end.

Definition parse (content : string) : list EventFormData :=
  parseLines (splitLines content).

(** The loop body run over lines that are already unfolded, and the events
    it collects from the initial state; used to speak of the parts of a
    document. *)
Definition run (st : ParserState) (logical : list string) : ParserState :=
  fold_left processLine logical st.

Definition parseLogical (logical : list string) : list EventFormData :=
  events (run initialState logical).

End Parser.

End ICal.

(** ** CalendarTab.tsx, the copy with subscriptions *)

Module CalendarTab.
Import JS ICal.

Local Open Scope Z_scope.

(** [parseDate] of [parseICalContent] (lines 1101-1117). *)
Definition parseDate (val : string) (parts : list string) : Date :=
  let dateOnly := isDateOnly parts in
  let year := parseInt (substring2 val 0 4) in
  let month := sub (parseInt (substring2 val 4 6)) (Some 1) in
  let day := parseInt (substring2 val 6 8) in
  if dateOnly then newDate3 year month day
  else
    let hour := orElse (parseInt (substring2 val 9 11)) 0 in
    let minute := orElse (parseInt (substring2 val 11 13)) 0 in
    let second := orElse (parseInt (substring2 val 13 15)) 0 in
    if endsWith val "Z" then
      DateOfTime (clip (Date_UTC year month day hour minute second))
    else newDate6 year month day hour minute second.

(** [unescapeValue] (lines 1119-1125): four global replacements, one after the
    other. *)
Definition unescapeValue (val : string) : string :=
  replaceEscape BACKSLASH (String BACKSLASH EmptyString)
    (replaceEscape ";" ";"
       (replaceEscape "," ","
          (replaceEscape "n" (String LF EmptyString) val))).

(** The draft of line 1081; [subscriptionId] and [color] are optional
    arguments. *)
Definition newDraft (subscriptionId color : option string) : EventFormData :=
  mkEventFormData None None None None None
    (if truthy subscriptionId then subscription else imported)
    (if truthy color then color else Some "#6366f1")
    None None None subscriptionId.

Definition parseICalContent (content : string)
    (subscriptionId color : option string) : list EventFormData :=
  parse (newDraft subscriptionId color) unescapeValue unescapeValue
    unescapeValue parseDate content.

(** The events [parseICalContent] collects from a run of logical lines. *)
Definition parseICalLogical (subscriptionId color : option string)
    (logical : list string) : list EventFormData :=
  parseLogical (newDraft subscriptionId color) unescapeValue unescapeValue
    unescapeValue parseDate logical.

(** *** The event store and the subscriptions

    [localStorage] keeps the events and the subscriptions as JSON text.  The
    two items are kept here as the arrays that [JSON.stringify] wrote, that
    is, as what [JSON.parse] gives back for them: a Date has become its ISO
    text, or null when its time value is NaN, and a key whose value is
    undefined is absent.  An item that was never written reads as the empty
    array, and [setItem] is taken to succeed.  Reading raw, possibly damaged,
    text is the subject of [EventStorage.getEvents] below. *)

Record CalendarEvent : Type := mkCalendarEvent {
  id : string;
  data : EventFormData }.

Record CalendarSubscription : Type := mkCalendarSubscription {
  sub_id : string;
  sub_name : string;
  sub_url : string;
  sub_color : string;
  lastSync : option Date;
  enabled : bool }.

(** What a Date key holds in the stored JSON: nothing, null, or the ISO text
    of a time value. *)
Inductive StoredDate : Type :=
| DateAbsent
| DateNull
| DateText (tv : Z).

(** An event and a subscription as stored. *)
Record StoredEvent : Type := mkStoredEvent {
  j_id : string;
  j_title : option string;
  j_description : option string;
  j_startDate : StoredDate;
  j_endDate : StoredDate;
  j_allDay : option bool;
  j_type : EventType;
  j_color : option string;
  j_courseId : option string;
  j_courseName : option string;
  j_location : option string;
  j_subscriptionUrl : option string }.

Record StoredSubscription : Type := mkStoredSubscription {
  j_sub_id : string;
  j_sub_name : string;
  j_sub_url : string;
  j_sub_color : string;
  j_lastSync : StoredDate;
  j_enabled : bool }.

(** [JSON.stringify] of a Date value: [toJSON] gives the ISO text of a valid
    date and null for an invalid one; the time value is the one the Date has
    on this host. *)
Definition stringifyDate (zone : Zone) (d : option Date) : StoredDate :=
  match d with
  | None => DateAbsent
  | Some d =>
      match timeValue zone d with
      | Some tv => DateText tv
      | None => DateNull
      end
  end.

Definition stringifyEvent (zone : Zone) (e : CalendarEvent) : StoredEvent :=
  mkStoredEvent (id e) (title (data e)) (description (data e))
    (stringifyDate zone (startDate (data e)))
    (stringifyDate zone (endDate (data e)))
    (allDay (data e)) (type (data e)) (color (data e)) (courseId (data e))
    (courseName (data e)) (location (data e)) (subscriptionUrl (data e)).

Definition stringifySubscription (zone : Zone) (s : CalendarSubscription)
    : StoredSubscription :=
  mkStoredSubscription (sub_id s) (sub_name s) (sub_url s) (sub_color s)
    (stringifyDate zone (lastSync s)) (enabled s).

(** [new Date(x)] for what a Date key holds: undefined gives an invalid
    date, null the time value 0, an ISO text its time value. *)
Definition newDateOfStored (x : StoredDate) : Date :=
  match x with
  | DateAbsent => DateOfTime None
  | DateNull => DateOfTime (Some 0%Z)
  | DateText tv => DateOfTime (Some tv)
  end.

(** [x ? new Date(x) : undefined]: null and undefined are falsy, an ISO text
    is not. *)
Definition optionalDateOfStored (x : StoredDate) : option Date :=
  match x with
  | DateText tv => Some (DateOfTime (Some tv))
  | _ => None
  end.

(** The callbacks of the two [map] calls in [getEvents] and
    [getSubscriptions]. *)
Definition hydrateEvent (j : StoredEvent) : CalendarEvent :=
  mkCalendarEvent (j_id j)
    (mkEventFormData (j_title j) (j_description j)
       (Some (newDateOfStored (j_startDate j)))
       (optionalDateOfStored (j_endDate j))
       (j_allDay j) (j_type j) (j_color j) (j_courseId j) (j_courseName j)
       (j_location j) (j_subscriptionUrl j)).

Definition hydrateSubscription (j : StoredSubscription) : CalendarSubscription :=
  mkCalendarSubscription (j_sub_id j) (j_sub_name j) (j_sub_url j)
    (j_sub_color j) (optionalDateOfStored (j_lastSync j)) (j_enabled j).

(** What the functions read and write: the two storage items, the source of
    the [Date.now()]/[Math.random()] suffixes of fresh ids, the clock, and
    the time zone of the host. *)
Record World : Type := mkWorld {
  eventsItem : list StoredEvent;
  subscriptionsItem : list StoredSubscription;
  idSource : nat -> string;
  idCount : nat;
  now : Z;
  zone : Zone }.

Definition M (A : Type) : Type := World -> A * World.

Definition ret {A : Type} (a : A) : M A := fun w => (a, w).

Definition bind {A B : Type} (m : M A) (k : A -> M B) : M B :=
  fun w => let '(a, w') := m w in k a w'.

Notation "x <- m ;; k" := (bind m (fun x => k))
  (at level 61, m at next level, right associativity).

Fixpoint mapM {A B : Type} (f : A -> M B) (xs : list A) : M (list B) :=
  match xs with
  | [] => ret []
  | x :: xs' => y <- f x ;; ys <- mapM f xs' ;; ret (y :: ys)
  end.

(** [getEvents] (lines 954-967) on an item the program wrote: the parse
    succeeds and every entry is hydrated. *)
Definition getEvents : M (list CalendarEvent) :=
  fun w => (map hydrateEvent (eventsItem w), w).

(** [saveEvents] (lines 969-971) *)
Definition saveEvents (evs : list CalendarEvent) : M unit :=
  fun w => (tt, mkWorld (map (stringifyEvent (zone w)) evs)
                  (subscriptionsItem w) (idSource w) (idCount w) (now w)
                  (zone w)).

(** [getSubscriptions] (lines 999-1010) and [saveSubscriptions]
    (lines 1012-1014) *)
Definition getSubscriptions : M (list CalendarSubscription) :=
  fun w => (map hydrateSubscription (subscriptionsItem w), w).

Definition saveSubscriptions (subs : list CalendarSubscription) : M unit :=
  fun w => (tt, mkWorld (eventsItem w)
                  (map (stringifySubscription (zone w)) subs)
                  (idSource w) (idCount w) (now w) (zone w)).

(** What a call of [getEvents], of [getSubscriptions], would return. *)
Definition readEvents (w : World) : list CalendarEvent := fst (getEvents w).
Definition readSubscriptions (w : World) : list CalendarSubscription :=
  fst (getSubscriptions w).

(** The template literal of [addEvent]: a fresh suffix is consumed. *)
Definition freshId : M string :=
  fun w => (("event_" ++ idSource w (idCount w))%string,
            mkWorld (eventsItem w) (subscriptionsItem w) (idSource w)
                    (S (idCount w)) (now w) (zone w)).

(** [new Date()] *)
Definition currentDate : M Date := fun w => (DateOfTime (Some (now w)), w).

Definition addEvent (eventData : EventFormData) : M CalendarEvent :=
  evs <- getEvents ;;
  newId <- freshId ;;
  let newEvent := mkCalendarEvent newId eventData in
  _ <- saveEvents (evs ++ [newEvent]) ;;
  ret newEvent.

(** [e.subscriptionUrl === id] *)
Definition linkedTo (sid : string) (e : CalendarEvent) : bool :=
  match subscriptionUrl (data e) with
  | Some u => String.eqb u sid
  | None => false
  end.

Definition deleteSubscription (sid : string) : M unit :=
  subs <- getSubscriptions ;;
  _ <- saveSubscriptions
         (filter (fun s => negb (String.eqb (sub_id s) sid)) subs) ;;
  evs <- getEvents ;;
  saveEvents (filter (fun e => negb (linkedTo sid e)) evs).

Definition importICalEvents (content : string) : M (list CalendarEvent) :=
  mapM addEvent (parseICalContent content None None).

(** Lines 1179-1186 of [syncSubscription], the replacement of a subscription's
    events: the events of the subscription are filtered out and the rest
    saved, then each parsed draft goes through [addEvent]. *)
Definition replaceSubscriptionEvents (sid : string)
    (parsedEvents : list EventFormData) : M (list CalendarEvent) :=
  evs <- getEvents ;;
  let otherEvents := filter (fun e => negb (linkedTo sid e)) evs in
  _ <- saveEvents otherEvents ;;
  mapM addEvent parsedEvents.

(** [subscriptions[subIndex].lastSync = d] at the index found by
    [findIndex(s => s.id === sid)]: the first match, none when [-1]. *)
Fixpoint stampFirst (sid : string) (d : Date) (subs : list CalendarSubscription)
    : option (list CalendarSubscription) :=
  match subs with
  | [] => None
  | s :: subs' =>
      if String.eqb (sub_id s) sid then
        Some (mkCalendarSubscription (sub_id s) (sub_name s) (sub_url s)
                (sub_color s) (Some d) (enabled s) :: subs')
      else option_map (cons s) (stampFirst sid d subs')
  end.

(** What the awaited [fetch] of the proxy URL gave: a rejection, or a response
    with its [ok] flag, status and the outcome of [response.text()]. *)
Inductive FetchOutcome : Type :=
| FetchRejected (e : Exn)
| FetchResponse (ok : bool) (status : string) (text : Outcome string).

(** [syncSubscription]; the [catch] logs and throws the error again. *)
Definition syncSubscription (fetched : FetchOutcome) (sub : CalendarSubscription)
    : M (Outcome (list CalendarEvent)) :=
  match fetched with
  | FetchRejected e => ret (Thrown e)
  | FetchResponse ok status text =>
      if negb ok then
        ret (Thrown (Error ("Failed to fetch calendar: " ++ status)%string))
      else
        match text with
        | Thrown e => ret (Thrown e)
        | Returned content =>
            if negb (includes content "BEGIN:VCALENDAR") then
              ret (Thrown (Error "Invalid iCal format"))
            else
              newEvents <- replaceSubscriptionEvents (sub_id sub)
                             (parseICalContent content (Some (sub_id sub))
                                (Some (sub_color sub))) ;;
              subs <- getSubscriptions ;;
              d <- currentDate ;;
              _ <- match stampFirst (sub_id sub) d subs with
                   | Some subs' => saveSubscriptions subs'
                   | None => ret tt
                   end ;;
              ret (Returned newEvents)
        end
  end.

(** *** Editing and deleting stored events *)

(** [Partial<EventFormData>] as the second operand of a spread: a key that is
    absent is [None]; a key that is present carries its value, which for an
    optional field may itself be undefined. *)
Record EventPatch : Type := mkEventPatch {
  p_title : option (option string);
  p_description : option (option string);
  p_startDate : option (option Date);
  p_endDate : option (option Date);
  p_allDay : option (option bool);
  p_type : option EventType;
  p_color : option (option string);
  p_courseId : option (option string);
  p_courseName : option (option string);
  p_location : option (option string);
  p_subscriptionUrl : option (option string) }.

Definition override {A : Type} (p : option A) (old : A) : A :=
  match p with
  | Some v => v
  | None => old
  end.

(** [{ ...event, ...eventData }] without the [id], which no patch has. *)
Definition applyPatch (p : EventPatch) (e : EventFormData) : EventFormData :=
  mkEventFormData
    (override (p_title p) (title e))
    (override (p_description p) (description e))
    (override (p_startDate p) (startDate e))
    (override (p_endDate p) (endDate e))
    (override (p_allDay p) (allDay e))
    (override (p_type p) (type e))
    (override (p_color p) (color e))
    (override (p_courseId p) (courseId e))
    (override (p_courseName p) (courseName e))
    (override (p_location p) (location e))
    (override (p_subscriptionUrl p) (subscriptionUrl e)).

(** [events[index] = { ...events[index], ...eventData }] at the index found by
    [findIndex(e => e.id === eid)]; [None] when the index is [-1]. *)
Fixpoint updateFirst (eid : string) (p : EventPatch) (evs : list CalendarEvent)
    : option (list CalendarEvent) :=
  match evs with
  | [] => None
  | e :: evs' =>
      if String.eqb (id e) eid then
        Some (mkCalendarEvent (id e) (applyPatch p (data e)) :: evs')
      else option_map (cons e) (updateFirst eid p evs')
  end.

(** [updateEventInStorage] (lines 984-991) *)
Definition updateEventInStorage (eid : string) (eventData : EventPatch)
    : M unit :=
  evs <- getEvents ;;
  match updateFirst eid eventData evs with
  | Some evs' => saveEvents evs'
  | None => ret tt
  end.

(** [deleteEventFromStorage] (lines 993-996) *)
Definition deleteEventFromStorage (eid : string) : M unit :=
  evs <- getEvents ;;
  saveEvents (filter (fun e => negb (String.eqb (id e) eid)) evs).

(** [addSubscription] (lines 1016-1028); its id takes a fresh suffix from the
    same source as the event ids. *)
Definition freshSubId : M string :=
  fun w => (("sub_" ++ idSource w (idCount w))%string,
            mkWorld (eventsItem w) (subscriptionsItem w) (idSource w)
                    (S (idCount w)) (now w) (zone w)).

Definition addSubscription (name url color : string) : M CalendarSubscription :=
  subs <- getSubscriptions ;;
  newId <- freshSubId ;;
  let newSub := mkCalendarSubscription newId name url color None true in
  _ <- saveSubscriptions (subs ++ [newSub]) ;;
  ret newSub.

(** [getEventColor] (lines 1204-1215); every type has an entry in the table,
    so its fallback is never reached. *)
Definition getEventColor (event : CalendarEvent) : string :=
  if truthy (color (data event)) then
    match color (data event) with Some c => c | None => EmptyString end
  else
    match type (data event) with
    | exam => "#ef4444"
    | project => "#f59e0b"
    | assignment => "#3b82f6"
    | imported => "#6366f1"
    | subscription => "#8b5cf6"
    | personal => "#10b981"
    end.

(** [syncAll] (lines 2234-2245) without its final reload of the view: the
    subscriptions of the component state in turn, each with what its fetch
    gives; a disabled one is skipped, a failure is logged and the loop goes
    on. *)
Fixpoint syncAll (jobs : list (CalendarSubscription * FetchOutcome)) : M unit :=
  match jobs with
  | [] => ret tt
  | (sub, fetched) :: jobs' =>
      _ <- (if enabled sub then
              _ <- syncSubscription fetched sub ;; ret tt
            else ret tt) ;;
      syncAll jobs'
  end.

(** [handleAddSubscription] (lines 2316-2326) without the reloads of the view:
    the subscription is stored, then synced once, a failure being logged. *)
Definition handleAddSubscription (name url color : string)
    (fetched : FetchOutcome) : M unit :=
  sub <- addSubscription name url color ;;
  _ <- syncSubscription fetched sub ;;
  ret tt.

(** The merge of [loadEvents] (lines 2204-2207): stored events whose id is the
    id of an exam event are dropped, the exam events come last.  The two
    lists are kept apart by [inl] and [inr]. *)
Definition mergeEvents {A B : Type} (idA : A -> string) (idB : B -> string)
    (storedEvents : list A) (examEvents : list B) : list (A + B) :=
  let examIds := map idB examEvents in
  let filteredStored :=
    filter (fun e => negb (existsb (String.eqb (idA e)) examIds)) storedEvents in
  map inl filteredStored ++ map inr examEvents.

End CalendarTab.

(** ** calendarService.ts *)

Module CalendarService.
Import JS ICal.

Local Open Scope Z_scope.

(** [parseICalDate] (lines 126-147) *)
Definition parseICalDate (value : string) (keyParts : list string) : Date :=
  if isDateOnly keyParts then
    let year := parseInt (substring2 value 0 4) in
    let month := sub (parseInt (substring2 value 4 6)) (Some 1) in
    let day := parseInt (substring2 value 6 8) in
    newDate3 year month day
  else
    let year := parseInt (substring2 value 0 4) in
    let month := sub (parseInt (substring2 value 4 6)) (Some 1) in
    let day := parseInt (substring2 value 6 8) in
    let hour := orElse (parseInt (substring2 value 9 11)) 0 in
    let minute := orElse (parseInt (substring2 value 11 13)) 0 in
    let second := orElse (parseInt (substring2 value 13 15)) 0 in
    if endsWith value "Z" then
      DateOfTime (clip (Date_UTC year month day hour minute second))
    else newDate6 year month day hour minute second.

(** The replacements of lines 98 and 101 (SUMMARY, DESCRIPTION) *)
Definition unescapeText (value : string) : string :=
  replaceEscape "n" (String LF EmptyString)
    (replaceEscape ";" ";" (replaceEscape "," "," value)).

(** and of line 111 (LOCATION). *)
Definition unescapeLocation (value : string) : string :=
  replaceEscape ";" ";" (replaceEscape "," "," value).

Definition newDraft : EventFormData :=
  mkEventFormData None None None None None imported (Some "#6366f1")
    None None None None.

(** Lines 61-115 of [importICalEvents]: the drafts collected in [events],
    before each is handed to [addEvent]. *)
Definition parsedEvents (content : string) : list EventFormData :=
  parse newDraft unescapeText unescapeText unescapeLocation parseICalDate content.

Definition parsedLogical (logical : list string) : list EventFormData :=
  parseLogical newDraft unescapeText unescapeText unescapeLocation parseICalDate
    logical.

(** [importICalEvents] as a whole: each draft goes through [addEvent], which
    is the [addEvent] of CalendarTab.tsx word for word. *)
Definition importICalEvents (content : string)
    : CalendarTab.M (list CalendarTab.CalendarEvent) :=
  CalendarTab.mapM CalendarTab.addEvent (parsedEvents content).

(** [deleteEvent] (lines 51-58): nothing is saved, and [false] returned, when
    the filter removed nothing. *)
Definition deleteEvent (eid : string) : CalendarTab.M bool :=
  fun w =>
    let evs := fst (CalendarTab.getEvents w) in
    let filtered :=
      filter (fun e => negb (String.eqb (CalendarTab.id e) eid)) evs in
    if Nat.eqb (List.length filtered) (List.length evs) then (false, w)
    else (true, snd (CalendarTab.saveEvents filtered w)).

(** [events.findIndex(e => e.id === id)]; [None] is the result [-1]. *)
Fixpoint findIndex (eid : string) (evs : list CalendarTab.CalendarEvent)
    : option nat :=
  match evs with
  | [] => None
  | e :: evs' =>
      if String.eqb (CalendarTab.id e) eid then Some O
      else option_map S (findIndex eid evs')
  end.

(** [updateEvent] (lines 41-49): the event at the index found is replaced by
    its spread with the patch over it, the list is saved and the new event
    returned; [None] is the result [null]. *)
Definition updateEvent (eid : string) (eventData : CalendarTab.EventPatch)
    : CalendarTab.M (option CalendarTab.CalendarEvent) :=
  fun w =>
    let evs := fst (CalendarTab.getEvents w) in
    match findIndex eid evs with
    | None => (None, w)
    | Some index =>
        match nth_error evs index with
        | Some old =>
            let updated :=
              CalendarTab.mkCalendarEvent (CalendarTab.id old)
                (CalendarTab.applyPatch eventData (CalendarTab.data old)) in
            (Some updated,
             snd (CalendarTab.saveEvents
                    (firstn index evs ++ updated :: skipn (S index) evs) w))
        | None => (None, w)
        end
    end.

End CalendarService.

(** ** CalendarTab.tsx, the earlier copy (lines 1-914) *)

Module CalendarTabV1.
Import JS ICal.

Local Open Scope Z_scope.

(** [parseDate] (lines 105-116): no seconds, and no test for a final Z. *)
Definition parseDate (val : string) (parts : list string) : Date :=
  let dateOnly := isDateOnly parts in
  let year := parseInt (substring2 val 0 4) in
  let month := sub (parseInt (substring2 val 4 6)) (Some 1) in
  let day := parseInt (substring2 val 6 8) in
  if dateOnly then newDate3 year month day
  else
    let hour := orElse (parseInt (substring2 val 9 11)) 0 in
    let minute := orElse (parseInt (substring2 val 11 13)) 0 in
    newDate6 year month day hour minute (Some 0).

(** [value.replace(/\\[,;n]/g, m => m === '\\n' ? '\n' : m[1])] (lines 120 and
    123): one pass over the three escapes. *)
Fixpoint unescapeText (s : string) : string :=
  match s with
  | EmptyString => EmptyString
  | String a s' =>
      if Ascii.eqb a BACKSLASH then
        match s' with
        | String b s'' =>
            if Ascii.eqb b "n" then String LF (unescapeText s'')
            else if Ascii.eqb b "," || Ascii.eqb b ";" then
              String b (unescapeText s'')
            else String a (unescapeText s')
        | EmptyString => String a EmptyString
        end
      else String a (unescapeText s')
  end.

Definition parsedEvents (content : string) : list EventFormData :=
  parse CalendarService.newDraft unescapeText unescapeText (fun v => v)
    parseDate content.

End CalendarTabV1.

(** ** The basic parser of src/unnamed/part_005 ([parseICal], lines 23-63)

    An earlier, self-contained parser with its own event record (summary,
    start, end): no line folding, no parameters, no unescaping. *)

Module BasicParser.
Import JS.

Local Open Scope Z_scope.

(** [data.split(/\r?\n/)]: a lone CR is not a line end. *)
Fixpoint splitNewlines (s : string) : list string :=
  match s with
  | EmptyString => [EmptyString]
  | String a s' =>
      let keep := match splitNewlines s' with
                  | l :: ls => String a l :: ls
                  | [] => [String a EmptyString]
                  end in
      if Ascii.eqb a LF then EmptyString :: splitNewlines s'
      else if Ascii.eqb a CR then
        match s' with
        | String b s'' =>
            if Ascii.eqb b LF then EmptyString :: splitNewlines s'' else keep
        | EmptyString => keep
        end
      else keep
  end.

Definition isDigit (c : ascii) : bool :=
  (48 <=? Z.of_nat (nat_of_ascii c)) && (Z.of_nat (nat_of_ascii c) <=? 57).

(** The text starts with [n] decimal digits. *)
Fixpoint digitsAt (n : nat) (s : string) : bool :=
  match n with
  | O => true
  | S n' =>
      match s with
      | String c s' => isDigit c && digitsAt n' s'
      | EmptyString => false
      end
  end.

(** The leftmost place where eight digits start, as the rest of the text from
    there: where [/(\d{4})(\d{2})(\d{2})(T(\d{2})(\d{2})(\d{2})Z?)?/] matches. *)
Fixpoint findDate (s : string) : option string :=
  if digitsAt 8 s then Some s
  else match s with
       | String _ s' => findDate s'
       | EmptyString => None
       end.

(** [parseDate] (lines 28-36); [str] is [None] for undefined, whose [match]
    does not exist, and [today] stands for [new Date()]. *)
Definition parseDate (today : Date) (str : option string) : Outcome Date :=
  match str with
  | None => Thrown TypeError
  | Some str =>
      match findDate str with
      | None => Returned today
      | Some m =>
          let y := parseInt (substring2 m 0 4) in
          let mo := sub (parseInt (substring2 m 4 6)) (Some 1) in
          let d := parseInt (substring2 m 6 8) in
          if String.eqb (substring2 m 8 9) "T" && digitsAt 6 (substring1 m 9)
          then
            Returned (DateOfTime (clip (Date_UTC y mo d
              (parseInt (substring2 m 9 11)) (parseInt (substring2 m 11 13))
              (parseInt (substring2 m 13 15)))))
          else Returned (newDate3 y mo d)
      end
  end.

(** [s.trim()], on ASCII white space. *)
Fixpoint trimEnd (s : string) : string :=
  match s with
  | EmptyString => EmptyString
  | String c s' =>
      match trimEnd s' with
      | EmptyString => if isStrWhiteSpace c then EmptyString
                       else String c EmptyString
      | t => String c t
      end
  end.

Definition trim (s : string) : string := trimEnd (trimStart s).

(** [s.replace(p, '')] for a string [p]: the first occurrence is removed. *)
Definition removeFirst (p s : string) : string :=
  match index 0 p s with
  | Some i => (substring2 s 0 i ++ substring1 s (i + String.length p))%string
  | None => s
  end.

(** [s.toLowerCase()], on ASCII letters. *)
Fixpoint toLowerCase (s : string) : string :=
  match s with
  | EmptyString => EmptyString
  | String c s' =>
      let n := nat_of_ascii c in
      String (if (Nat.leb 65 n && Nat.leb n 90)%bool
              then ascii_of_nat (n + 32) else c)
             (toLowerCase s')
  end.

Inductive EventKind : Type := exam | lesson.

(** The object under construction, [{}] at BEGIN:VEVENT. *)
Record Draft : Type := mkDraft {
  d_summary : option string;
  d_start : option Date;
  d_end : option Date;
  d_location : option string;
  d_description : option string }.

Record CalendarEvent : Type := mkCalendarEvent {
  id : string;
  summary : string;
  start : Date;
  end_ : Date;
  location : option string;
  description : option string;
  type : EventKind }.

Record State : Type := mkState {
  events : list CalendarEvent;
  currentEvent : option Draft }.

Section Loop.

(** [new Date()], and the ids [Math.random()] gives, by position. *)
Variable today : Date.
Variable randomId : nat -> string.

(** [line.split(':')[1]] *)
Definition secondPart (line : string) : option string :=
  nth_error (split ":" line) 1.

(** The five [if]s of the last branch, in their order. *)
Definition readProperties (line : string) (d : Draft) : Outcome Draft :=
  let d1 :=
    if startsWith line "SUMMARY:" then
      mkDraft (Some (trim (removeFirst "SUMMARY:" line))) (d_start d) (d_end d)
        (d_location d) (d_description d)
    else d in
  bindO (if startsWith line "DTSTART" then
           bindO (parseDate today (secondPart line)) (fun v =>
             Returned (mkDraft (d_summary d1) (Some v) (d_end d1)
                         (d_location d1) (d_description d1)))
         else Returned d1) (fun d2 =>
  bindO (if startsWith line "DTEND" then
           bindO (parseDate today (secondPart line)) (fun v =>
             Returned (mkDraft (d_summary d2) (d_start d2) (Some v)
                         (d_location d2) (d_description d2)))
         else Returned d2) (fun d3 =>
  let d4 :=
    if startsWith line "LOCATION:" then
      mkDraft (d_summary d3) (d_start d3) (d_end d3)
        (Some (trim (removeFirst "LOCATION:" line))) (d_description d3)
    else d3 in
  Returned
    (if startsWith line "DESCRIPTION:" then
       mkDraft (d_summary d4) (d_start d4) (d_end d4) (d_location d4)
         (Some (trim (removeFirst "DESCRIPTION:" line)))
     else d4))).

(** The event pushed at END:VEVENT, if the draft has a summary and a start. *)
Definition finish (d : Draft) (n : nat) : option CalendarEvent :=
  match d_summary d, d_start d with
  | Some (String c r), Some st =>
      let s := String c r in
      Some (mkCalendarEvent (randomId n) s st
              (match d_end d with Some e => e | None => st end)
              (d_location d) (d_description d)
              (if includes (toLowerCase s) "klausur"
                  || includes (toLowerCase s) "exam" then exam else lesson))
  | _, _ => None
  end.

(** The body of the loop; reading [summary] of null at an END:VEVENT outside
    an event throws. *)
Definition step (st : State) (line : string) : Outcome State :=
  if startsWith line "BEGIN:VEVENT" then
    Returned (mkState (events st) (Some (mkDraft None None None None None)))
  else if startsWith line "END:VEVENT" then
    match currentEvent st with
    | None => Thrown TypeError
    | Some d =>
        Returned (mkState
          (match finish d (List.length (events st)) with
           | Some ev => events st ++ [ev]
           | None => events st
           end) None)
    end
  else
    match currentEvent st with
    | Some d =>
        bindO (readProperties line d) (fun d' =>
          Returned (mkState (events st) (Some d')))
    | None => Returned st
    end.

Fixpoint loop (st : State) (lines : list string) : Outcome State :=
  match lines with
  | [] => Returned st
  | line :: rest => bindO (step st line) (fun st' => loop st' rest)
  end.

Definition parseICal (data : string) : Outcome (list CalendarEvent) :=
  bindO (loop (mkState [] None) (splitNewlines data)) (fun st =>
    Returned (events st)).

End Loop.

End BasicParser.

(** ** Reading the events item of localStorage

    [getEvents] as it meets the raw item: the text may be absent, empty, not
    JSON, or JSON of any shape. *)

Module EventStorage.
Import JS.


(** The values [JSON.parse] can produce. *)
#[warnings="-register-all"]
Inductive JSValue : Type :=
| JNull
| JBool (b : bool)
| JNumber (q : Q)
| JString (s : string)
| JArray (items : list JSValue)
| JObject (members : list (string * JSValue)).

(** Truthiness; [None] is [undefined]. *)
Definition truthyValue (v : option JSValue) : bool :=
  match v with
  | None => false
  | Some JNull => false
  | Some (JBool b) => b
  | Some (JNumber q) => negb (Qeq_bool q 0)
  | Some (JString s) => match s with EmptyString => false | _ => true end
  | Some (JArray _) => true
  | Some (JObject _) => true
  end.

(** The member of [key] that [JSON.parse] keeps: the last one. *)
Fixpoint lookup (key : string) (members : list (string * JSValue))
    : option JSValue :=
  match members with
  | [] => None
  | (k, v) :: rest =>
      match lookup key rest with
      | Some v' => Some v'
      | None => if String.eqb k key then Some v else None
      end
  end.

(** [event.startDate] and [event.endDate]: reading a property of null throws,
    and no primitive or array from JSON has these two properties. *)
Definition getProp (event : JSValue) (key : string) : Outcome (option JSValue) :=
  match event with
  | JNull => Thrown TypeError
  | JObject members => Returned (lookup key members)
  | _ => Returned None
  end.

(** The object built by the callback: the spread of [event] with the two date
    properties replaced. *)
Record Hydrated : Type := mkHydrated {
  spread : JSValue;
  h_startDate : Date;
  h_endDate : option Date }.

Section GetEvents.

(** [JSON.parse], which throws a SyntaxError on text that is not JSON. *)
Variable JSON_parse : string -> Outcome JSValue.
(** [new Date(v)] for a JSON value or undefined.  It turns an object into a
    primitive first, which throws a TypeError when the object has no callable
    [toString] or [valueOf] (as the JSON object with the member toString
    has). *)
Variable newDate : option JSValue -> Outcome Date.

Definition hydrate (event : JSValue) : Outcome Hydrated :=
  bindO (getProp event "startDate") (fun sd =>
  bindO (newDate sd) (fun startDate =>
  bindO (getProp event "endDate") (fun ed =>
  bindO (if truthyValue ed
         then bindO (newDate ed) (fun d => Returned (Some d))
         else Returned None) (fun endDate =>
  Returned (mkHydrated event startDate endDate))))).

(** [events.map(...)]: only an array has a callable [map]. *)
Definition callMap (events : JSValue) : Outcome (list Hydrated) :=
  match events with
  | JArray items => mapO hydrate items
  | _ => Thrown TypeError
  end.

(** [getEvents] (CalendarTab.tsx lines 954-967, calendarService.ts lines
    5-20); [stored] is the result of [localStorage.getItem(STORAGE_KEY)],
    [None] for null. *)
Definition getEvents (stored : option string) : Outcome (list Hydrated) :=
  tryCatch
    (match stored with
     | None => Returned []
     | Some EmptyString => Returned []
     | Some text => bindO (JSON_parse text) callMap
     end)
    (fun _ => Returned []).

End GetEvents.

(** *** Exams as events ([getExamsAsEvents], CalendarTab.tsx lines 1039-1060) *)

(** The object the callback builds for one exam; the properties copied from
    the exam keep whatever JSON value they had. *)
Record ExamEvent : Type := mkExamEvent {
  x_id : string;
  x_title : string;
  x_description : JSValue;
  x_startDate : Date;
  x_endDate : option Date;
  x_allDay : bool;
  x_color : string;
  x_courseId : option JSValue;
  x_courseName : option JSValue;
  x_location : option JSValue }.

(** [a || b] on values that may be undefined. *)
Definition orValue (a b : option JSValue) : option JSValue :=
  if truthyValue a then a else b.

(** The first characters of the title, as the bytes of the source file. *)
Definition examTitlePrefix : string :=
  String (ascii_of_nat 195) (String (ascii_of_nat 176)
    (String (ascii_of_nat 197) (String (ascii_of_nat 184)
      (String (ascii_of_nat 226) (String (ascii_of_nat 128)
        (String (ascii_of_nat 156) (String (ascii_of_nat 32) EmptyString))))))).

Section GetExams.

Variable JSON_parse : string -> Outcome JSValue.
Variable newDate : option JSValue -> Outcome Date.
(** The text a value takes in a template literal; like [new Date(v)] it
    throws a TypeError on an object without a callable [toString] or
    [valueOf]. *)
Variable toText : option JSValue -> Outcome string.

(** The callback of [exams.map], property by property in the order of the
    object literal. *)
Definition examEvent (exam : JSValue) : Outcome ExamEvent :=
  bindO (getProp exam "id") (fun eid =>
  bindO (toText eid) (fun idText =>
  bindO (getProp exam "name") (fun name =>
  bindO (getProp exam "title") (fun etitle =>
  bindO (toText (orValue name etitle)) (fun titleText =>
  bindO (getProp exam "description") (fun desc =>
  bindO (match desc with
         | Some d =>
             if truthyValue desc then Returned d
             else
               bindO (getProp exam "courseName") (fun courseName =>
               bindO (toText (orValue courseName (Some (JString "Course"))))
                 (fun courseText =>
               Returned (JString ("Exam for " ++ courseText))))
         | None =>
             bindO (getProp exam "courseName") (fun courseName =>
             bindO (toText (orValue courseName (Some (JString "Course"))))
               (fun courseText =>
             Returned (JString ("Exam for " ++ courseText))))
         end) (fun description =>
  bindO (getProp exam "date") (fun edate =>
  bindO (getProp exam "startDate") (fun sd =>
  bindO (newDate (orValue edate sd)) (fun startDate =>
  bindO (getProp exam "endDate") (fun ed =>
  bindO (if truthyValue ed
         then bindO (newDate ed) (fun d => Returned (Some d))
         else Returned None) (fun endDate =>
  bindO (getProp exam "allDay") (fun allDay =>
  bindO (getProp exam "courseId") (fun courseId =>
  bindO (getProp exam "courseName") (fun courseName =>
  bindO (getProp exam "location") (fun loc =>
  bindO (getProp exam "room") (fun room =>
  Returned (mkExamEvent
    ("exam_" ++ idText)
    (examTitlePrefix ++ titleText)
    description startDate endDate
    (match allDay with Some (JBool false) => false | _ => true end)
    "#ef4444" courseId courseName (orValue loc room))))))))))))))))))).

Definition getExamsAsEvents (stored : option string) : Outcome (list ExamEvent) :=
  tryCatch
    (match stored with
     | None => Returned []
     | Some EmptyString => Returned []
     | Some text =>
         bindO (JSON_parse text) (fun exams =>
           match exams with
           | JArray items => mapO examEvent items
           | _ => Thrown TypeError
           end)
     end)
    (fun _ => Returned []).

End GetExams.

End EventStorage.

(** ** Reference definitions, written from the contracts the code is compared
    with *)

Module Reference.
Import JS.

(** The field unescaper as one left-to-right pass over the four escapes; any
    other character after a backslash leaves the backslash in place. *)
Fixpoint unescapeSinglePass (s : string) : string :=
  match s with
  | EmptyString => EmptyString
  | String a s' =>
      if Ascii.eqb a BACKSLASH then
        match s' with
        | String b s'' =>
            if Ascii.eqb b BACKSLASH then String BACKSLASH (unescapeSinglePass s'')
            else if Ascii.eqb b "," then String "," (unescapeSinglePass s'')
            else if Ascii.eqb b ";" then String ";" (unescapeSinglePass s'')
            else if Ascii.eqb b "n" then String LF (unescapeSinglePass s'')
            else String a (unescapeSinglePass s')
        | EmptyString => String a EmptyString
        end
      else String a (unescapeSinglePass s')
  end.

Local Open Scope Z_scope.

Definition digitChar (n : Z) : ascii := ascii_of_nat (48 + Z.to_nat (n mod 10)).

(** Two and four decimal digits, zero padded. *)
Definition digits2 (n : Z) (rest : string) : string :=
  String (digitChar (n / 10)) (String (digitChar n) rest).

Definition digits4 (n : Z) (rest : string) : string :=
  digits2 (n / 100) (digits2 n rest).

(** The token YYYYMMDD"T"HHMMSS of the given fields, followed by [suffix]. *)
Definition dateTimeToken (y mo d h mi s : Z) (suffix : string) : string :=
  digits4 y (digits2 mo (digits2 d (String "T"
    (digits2 h (digits2 mi (digits2 s suffix)))))).

(** Days of month [mo] (1 to 12) of year [y]. *)
Definition daysInMonth (y mo : Z) : Z :=
  let l := if isLeapYear y then 1 else 0 in
  monthStart l mo - monthStart l (mo - 1).

(** The fields of a token are those of a date and a time of day. *)
Definition validFields (y mo d h mi s : Z) : Prop :=
  0 <= y <= 9999 /\ 1 <= mo <= 12 /\ 1 <= d <= daysInMonth y mo /\
  0 <= h <= 23 /\ 0 <= mi <= 59 /\ 0 <= s <= 59.

(** A zone with the rules of Europe/Berlin in 2025: one hour ahead of UTC,
    two hours from 2025-03-30T01:00Z to 2025-10-26T01:00Z.  The local times
    from 02:00 to 03:00 on 30 March do not exist and are read with the
    offset before the change. *)
Definition berlin2025 : Zone :=
  mkZone
    (fun t => if (1743296400000 <=? t) && (t <? 1761440400000)
              then 7200000 else 3600000)
    (fun t => if (1743303600000 <=? t) && (t <? 1761447600000)
              then 7200000 else 3600000).

(** A zone with the rules of America/Havana in 2025: five hours behind UTC,
    four hours from 2025-03-09T05:00Z to 2025-11-02T05:00Z.  The local times
    from 00:00 to 01:00 on 9 March do not exist. *)
Definition havana2025 : Zone :=
  mkZone
    (fun t => if (1741496400000 <=? t) && (t <? 1762059600000)
              then -14400000 else -18000000)
    (fun t => if (1741482000000 <=? t) && (t <? 1762045200000)
              then -14400000 else -18000000).

(** The host lets local time differ from UTC by less than a day. *)
Definition boundedOffsets (zone : Zone) : Prop :=
  forall t, Z.abs (offsetAtLocal zone t) < msPerDay.

(** The local time value [t] exists in the zone: the instant the host reads
    it as shows [t] on the local clock. *)
Definition existsLocally (zone : Zone) (t : Z) : Prop :=
  LocalTime zone (UTC zone t) = t.

(** What the decoder is asked to do with the token of the fields on a host
    in [zone]: with a final Z, a Date whose UTC fields are those of the
    token; without it, a Date whose local fields are those of the token,
    which can only be when that local time exists in the zone.  Months count
    from 0 in [Fields]. *)
Definition decodesFaithfully (zone : Zone)
    (decode : string -> list string -> Date) (y mo d h mi s : Z) : Prop :=
  forall parts, ICal.isDateOnly parts = false ->
    utcFields zone (decode (dateTimeToken y mo d h mi s "Z") parts)
    = Some (mkFields y (mo - 1) d h mi s 0) /\
    (existsLocally zone
       (MakeDate (MakeDay y (mo - 1) d) (MakeTime h mi s 0)) ->
     localFields zone (decode (dateTimeToken y mo d h mi s EmptyString) parts)
     = Some (mkFields y (mo - 1) d h mi s 0)).




(** A line holds no line break. *)
Fixpoint noBreak (l : string) : bool :=
  match l with
  | EmptyString => true
  | String c l' => negb (Ascii.eqb c CR) && negb (Ascii.eqb c LF) && noBreak l'
  end.

(** The logical lines of a text. *)
Definition logicalLines (x : string) : list string :=
  ICal.unfoldLines (splitLines x).

(** No logical line after the first begins with a space or a tab. *)
Definition settled (x : string) : Prop :=
  Forall (fun l => ICal.isContinuation l = false) (tl (logicalLines x)).

(** The property [name] of a logical line NAME[;PARAM...]:VALUE, as the loop
    body splits it: its value and the parts of its key. *)
Definition propertyOf (name line : string) : option (string * list string) :=
  match indexOf line ":" with
  | None => None
  | Some colonIndex =>
      let keyParts := split ";" (substring2 line 0 colonIndex) in
      if String.eqb (hd EmptyString keyParts) name then
        Some (substring1 line (colonIndex + 1), keyParts)
      else None
  end.

(** The property [name] a block carries: that of its last line with this
    name, if any. *)
Definition carried (name : string) (body : list string)
    : option (string * list string) :=
  fold_left (fun acc l => match propertyOf name l with
                          | Some p => Some p
                          | None => acc
                          end) body None.

(** How the lines of a block end: at END:VEVENT, at another BEGIN:VEVENT, or
    with the document. *)
Inductive BlockEnd : Type :=
| ClosedBy (post : list string)
| CutBy (post : list string)
| EndOfInput.

(** A block: BEGIN:VEVENT, body lines, and its end. *)
Definition blockLines (body : list string) (e : BlockEnd) : list string :=
  "BEGIN:VEVENT"%string :: body ++
    match e with
    | ClosedBy post => "END:VEVENT"%string :: post
    | CutBy post => "BEGIN:VEVENT"%string :: post
    | EndOfInput => []
    end.

Definition bodyLine (l : string) : Prop :=
  l <> "BEGIN:VEVENT"%string /\ l <> "END:VEVENT"%string.

(** What a block adds to the events [parsed] of its document, where [part]
    gives the events of a run of logical lines read from the initial state:
    a closed block that carries a non-empty SUMMARY and a DTSTART adds one
    event, with the unescaped summary as title and the decoded DTSTART as
    start date; any other closed block, a block cut by the next BEGIN:VEVENT
    and a block left open at the end of the input add nothing. *)
Definition blockRule (parsed : list ICal.EventFormData)
    (part : list string -> list ICal.EventFormData)
    (unescape : string -> string) (decode : string -> list string -> Date)
    (pre body : list string) (e : BlockEnd) : Prop :=
  match e with
  | ClosedBy post =>
      match carried "SUMMARY" body, carried "DTSTART" body with
      | Some (String c r, _), Some (dtstart, params) =>
          exists ev,
            parsed = part pre ++ [ev] ++ part post /\
            ICal.title ev = Some (unescape (String c r)) /\
            ICal.truthy (ICal.title ev) = true /\
            ICal.startDate ev = Some (decode dtstart params)
      | _, _ => parsed = part pre ++ part post
      end
  | CutBy post => parsed = part pre ++ part ("BEGIN:VEVENT"%string :: post)
  | EndOfInput => parsed = part pre
  end.

(** Every draft collected so far, and the one under construction, carries
    [sid] as its [subscriptionUrl]. *)
Definition taggedState (sid : option string) (st : ICal.ParserState) : Prop :=
  Forall (fun d => ICal.subscriptionUrl d = sid) (ICal.events st) /\
  match ICal.currentEvent st with
  | Some ce => ICal.subscriptionUrl ce = sid
  | None => True
  end.

(** No two backslashes in a row. *)
Fixpoint noDoubleBackslash (s : string) : bool :=
  match s with
  | String a ((String b _) as s') =>
      negb (Ascii.eqb a BACKSLASH && Ascii.eqb b BACKSLASH)
      && noDoubleBackslash s'
  | _ => true
  end.

(** [parseInt] reads the rendering [f n] back as [n]. *)
Definition readsBack (f : Z -> string) (n : Z) : bool :=
  match parseInt (f n) with
  | Some v => v =? n
  | None => false
  end.

(** The patch that has the effect of [p] followed by [q]: a key of [q] wins. *)
Definition orKey {A : Type} (q p : option A) : option A :=
  match q with
  | Some v => Some v
  | None => p
  end.

Definition composePatch (q p : CalendarTab.EventPatch) : CalendarTab.EventPatch :=
  CalendarTab.mkEventPatch
    (orKey (CalendarTab.p_title q) (CalendarTab.p_title p))
    (orKey (CalendarTab.p_description q) (CalendarTab.p_description p))
    (orKey (CalendarTab.p_startDate q) (CalendarTab.p_startDate p))
    (orKey (CalendarTab.p_endDate q) (CalendarTab.p_endDate p))
    (orKey (CalendarTab.p_allDay q) (CalendarTab.p_allDay p))
    (orKey (CalendarTab.p_type q) (CalendarTab.p_type p))
    (orKey (CalendarTab.p_color q) (CalendarTab.p_color p))
    (orKey (CalendarTab.p_courseId q) (CalendarTab.p_courseId p))
    (orKey (CalendarTab.p_courseName q) (CalendarTab.p_courseName p))
    (orKey (CalendarTab.p_location q) (CalendarTab.p_location p))
    (orKey (CalendarTab.p_subscriptionUrl q) (CalendarTab.p_subscriptionUrl p)).

(** The patch without keys. *)
Definition emptyPatch : CalendarTab.EventPatch :=
  CalendarTab.mkEventPatch None None None None None None None None None None
    None.

(** The document a fetch hands to the parser: the text of an ok response that
    contains BEGIN:VCALENDAR; [None] for every fetch that makes the sync
    fail. *)
Definition fetchedDocument (fetched : CalendarTab.FetchOutcome) : option string :=
  match fetched with
  | CalendarTab.FetchResponse true _ (Returned content) =>
      if includes content "BEGIN:VCALENDAR" then Some content else None
  | _ => None
  end.

(** The same subscription with its sync time set. *)
Definition stamped (d : Date) (s : CalendarTab.CalendarSubscription)
    : CalendarTab.CalendarSubscription :=
  CalendarTab.mkCalendarSubscription (CalendarTab.sub_id s)
    (CalendarTab.sub_name s) (CalendarTab.sub_url s) (CalendarTab.sub_color s)
    (Some d) (CalendarTab.enabled s).

(** The number of lines equal to [l]. *)
Definition countLine (l : string) (lines : list string) : nat :=
  List.length (filter (String.eqb l) lines).

(** What a block carries for the property [name], read through [f]. *)
Definition carriedValue {A : Type} (f : string -> list string -> A)
    (name : string) (body : list string) : option A :=
  match carried name body with
  | Some (v, keyParts) => Some (f v keyParts)
  | None => None
  end.

(** The draft a block builds from the properties it carries: each of the six
    fields the loop writes comes from the last line of its property, the other
    fields are those of the draft the block started with. *)
Definition blockEvent (newDraft : ICal.EventFormData)
    (unescapeSummary unescapeDescription unescapeLocation : string -> string)
    (decode : string -> list string -> Date)
    (body : list string) (ev : ICal.EventFormData) : Prop :=
  ICal.title ev = carriedValue (fun v _ => unescapeSummary v) "SUMMARY" body /\
  ICal.description ev
  = carriedValue (fun v _ => unescapeDescription v) "DESCRIPTION" body /\
  ICal.location ev
  = carriedValue (fun v _ => unescapeLocation v) "LOCATION" body /\
  ICal.startDate ev = carriedValue decode "DTSTART" body /\
  ICal.endDate ev = carriedValue decode "DTEND" body /\
  ICal.allDay ev
  = carriedValue (fun _ keyParts => ICal.isDateOnly keyParts) "DTSTART" body /\
  ICal.type ev = ICal.type newDraft /\
  ICal.color ev = ICal.color newDraft /\
  ICal.courseId ev = ICal.courseId newDraft /\
  ICal.courseName ev = ICal.courseName newDraft /\
  ICal.subscriptionUrl ev = ICal.subscriptionUrl newDraft.

(** The fields the loop never writes are those of [newDraft], and a draft
    with a start date has its all-day flag set. *)
Definition draftShape (newDraft d : ICal.EventFormData) : Prop :=
  ICal.type d = ICal.type newDraft /\
  ICal.color d = ICal.color newDraft /\
  ICal.courseId d = ICal.courseId newDraft /\
  ICal.courseName d = ICal.courseName newDraft /\
  ICal.subscriptionUrl d = ICal.subscriptionUrl newDraft /\
  (ICal.startDate d <> None -> ICal.allDay d <> None).

(** Every event collected so far is complete and has the shape of a draft,
    and so has the draft under construction. *)
Definition shapedState (newDraft : ICal.EventFormData) (st : ICal.ParserState)
    : Prop :=
  Forall (fun d => ICal.complete d = true /\ draftShape newDraft d)
    (ICal.events st) /\
  match ICal.currentEvent st with
  | Some ce => draftShape newDraft ce
  | None => True
  end.

(** The events collected so far, and one more for a draft under
    construction. *)
Definition pendingCount (st : ICal.ParserState) : nat :=
  List.length (ICal.events st)
  + match ICal.currentEvent st with Some _ => 1 | None => 0 end.

(** The token YYYYMMDD of a date, followed by [rest]. *)
Definition dateToken (y mo d : Z) (rest : string) : string :=
  digits4 y (digits2 mo (digits2 d rest)).

(** No backslash at all. *)
Fixpoint noBackslash (s : string) : bool :=
  match s with
  | EmptyString => true
  | String a s' => negb (Ascii.eqb a BACKSLASH) && noBackslash s'
  end.

(** A raw line as it goes into a logical line: a continuation line without
    its first character. *)
Definition unfolded (l : string) : string :=
  if ICal.isContinuation l then substring1 l 1 else l.

(** The lines one after the other, with nothing between them. *)
Definition concatLines (lines : list string) : string :=
  fold_right append EmptyString lines.

(** The id of an entry of the merged list. *)
Definition mergedId {A B : Type} (idA : A -> string) (idB : B -> string)
    (x : A + B) : string :=
  match x with
  | inl a => idA a
  | inr b => idB b
  end.

(** A property of a stored value that is not null: only an object has
    one. *)
Definition property (v : EventStorage.JSValue) (key : string)
    : option EventStorage.JSValue :=
  match v with
  | EventStorage.JObject members => EventStorage.lookup key members
  | _ => None
  end.

(** A stored event with its two dates read back. *)
Definition hydrated (newDate : option EventStorage.JSValue -> Date)
    (v : EventStorage.JSValue) : EventStorage.Hydrated :=
  EventStorage.mkHydrated v (newDate (property v "startDate"))
    (if EventStorage.truthyValue (property v "endDate")
     then Some (newDate (property v "endDate")) else None).

(** What the basic parser asks of an event it pushes. *)
Definition basicShape (ev : BasicParser.CalendarEvent) : Prop :=
  BasicParser.summary ev <> EmptyString /\
  BasicParser.type ev
  = (if includes (BasicParser.toLowerCase (BasicParser.summary ev)) "klausur"
        || includes (BasicParser.toLowerCase (BasicParser.summary ev)) "exam"
     then BasicParser.exam else BasicParser.lesson).

(** An event, and a subscription, as the next read gives it back once it has
    been saved. *)
Definition reread (zone : Zone) (e : CalendarTab.CalendarEvent)
    : CalendarTab.CalendarEvent :=
  CalendarTab.hydrateEvent (CalendarTab.stringifyEvent zone e).

Definition rereadSubscription (zone : Zone)
    (s : CalendarTab.CalendarSubscription) : CalendarTab.CalendarSubscription :=
  CalendarTab.hydrateSubscription (CalendarTab.stringifySubscription zone s).

(** The same for the data of an event. *)
Definition rereadData (zone : Zone) (d : ICal.EventFormData)
    : ICal.EventFormData :=
  CalendarTab.data (reread zone (CalendarTab.mkCalendarEvent EmptyString d)).

(** The draft has a start date, as every draft the parsers return has. *)
Definition dated (d : ICal.EventFormData) : Prop := ICal.startDate d <> None.

(** Every stored event has a startDate key.  Every list the program saves
    has, when the events it was handed had a start date; an item written
    otherwise may lack it. *)
Definition steady (w : CalendarTab.World) : Prop :=
  Forall (fun j => CalendarTab.j_startDate j <> CalendarTab.DateAbsent)
    (CalendarTab.eventsItem w).

(** [P] holds of 0, ..., k - 1. *)
Fixpoint checkBelow (P : Z -> bool) (k : nat) : bool :=
  match k with
  | O => true
  | S k' => P (Z.of_nat k') && checkBelow P k'
  end.

(** The lines of the example document, and the document with a given line
    terminator. *)
Definition exampleLines : list string :=
  [ "BEGIN:VCALENDAR"; "BEGIN:VEVENT"; "SUMMARY:Midterm\, Calc III";
    "DTSTART;VALUE=DATE:20250522"; "LOCATION:Main Hall A"; "END:VEVENT";
    "END:VCALENDAR" ]%string.

Fixpoint joinWith (eol : string) (ls : list string) : string :=
  match ls with
  | [] => EmptyString
  | [l] => l
  | l :: ls' => l ++ eol ++ joinWith eol ls'
  end.

Definition exampleDocument (eol : string) : string := joinWith eol exampleLines.

(** The event the example document stands for. *)
Definition isExampleEvent (e : ICal.EventFormData) : Prop :=
  ICal.title e = Some "Midterm, Calc III"%string /\
  ICal.allDay e = Some true /\
  ICal.location e = Some "Main Hall A"%string /\
  exists t, ICal.startDate e = Some (DateOfLocal (Some t)) /\
            fieldsOfTime t = mkFields 2025 4 22 0 0 0 0.

End Reference.



(** * Properties *)

(** ** Calendar arithmetic of the runtime *)

Module DateFacts.
Import JS.

Local Open Scope Z_scope.

Lemma DayFromYear_mono y y' : y <= y' -> DayFromYear y <= DayFromYear y'.
Proof. unfold DayFromYear. intros H. Z.div_mod_to_equations. lia. Qed.

Lemma DayFromYear_next y : DayFromYear (y + 1) = DayFromYear y + DaysInYear y.
Proof.
  unfold DayFromYear, DaysInYear, isLeapYear.
  destruct (Z.eqb_spec (y mod 4) 0), (Z.eqb_spec (y mod 100) 0),
    (Z.eqb_spec (y mod 400) 0); cbn [andb orb negb];
    Z.div_mod_to_equations; lia.
Qed.

(** The estimate of [YearFromDay] lands on the year that contains the day. *)
Lemma YearFromDay_bounds d :
  DayFromYear (YearFromDay d) <= d < DayFromYear (YearFromDay d + 1).
Proof.
  unfold YearFromDay.
  set (y0 := 1970 + d * 400 / 146097).
  destruct (Z.ltb_spec d (DayFromYear y0)) as [Hlt | Hge].
  - replace (y0 - 1 + 1) with y0 by lia. split; [| exact Hlt].
    revert Hlt. subst y0. unfold DayFromYear. Z.div_mod_to_equations. lia.
  - destruct (Z.leb_spec (DayFromYear (y0 + 1)) d) as [Hle | Hgt].
    + split; [lia |].
      revert Hle. subst y0. unfold DayFromYear. Z.div_mod_to_equations. lia.
    + lia.
Qed.

Lemma YearFromDay_unique d y :
  DayFromYear y <= d < DayFromYear (y + 1) -> YearFromDay d = y.
Proof.
  intros [Hlo Hhi].
  pose proof (YearFromDay_bounds d) as [Blo Bhi].
  destruct (Z.lt_trichotomy (YearFromDay d) y) as [Hlt | [Heq | Hgt]].
  - pose proof (DayFromYear_mono (YearFromDay d + 1) y ltac:(lia)). lia.
  - exact Heq.
  - pose proof (DayFromYear_mono (y + 1) (YearFromDay d) ltac:(lia)). lia.
Qed.

Lemma monthStart_mono l m :
  0 <= l <= 1 -> 0 <= m <= 11 -> 0 <= monthStart l m < monthStart l (m + 1).
Proof.
  intros Hl Hm.
  assert (m = 0 \/ m = 1 \/ m = 2 \/ m = 3 \/ m = 4 \/ m = 5 \/ m = 6 \/
          m = 7 \/ m = 8 \/ m = 9 \/ m = 10 \/ m = 11) as Hc by lia.
  assert (l = 0 \/ l = 1) as [-> | ->] by lia;
    repeat destruct Hc as [-> | Hc]; try subst m; vm_compute; intuition congruence.
Qed.

Lemma monthStart_year l m : 0 <= l <= 1 -> 0 <= m <= 12 -> monthStart l m <= 365 + l.
Proof.
  intros Hl Hm.
  assert (m = 0 \/ m = 1 \/ m = 2 \/ m = 3 \/ m = 4 \/ m = 5 \/ m = 6 \/
          m = 7 \/ m = 8 \/ m = 9 \/ m = 10 \/ m = 11 \/ m = 12) as Hc by lia.
  assert (l = 0 \/ l = 1) as [-> | ->] by lia;
    repeat destruct Hc as [-> | Hc]; try subst m; vm_compute; intuition congruence.
Qed.

Lemma MakeDay_in_range y m d :
  0 <= m <= 11 ->
  MakeDay y m d
  = DayFromYear y + monthStart (if isLeapYear y then 1 else 0) m + d - 1.
Proof.
  intros Hm. unfold MakeDay.
  replace (m / 12) with 0 by (Z.div_mod_to_equations; lia).
  replace (m mod 12) with m by (Z.div_mod_to_equations; lia).
  rewrite Z.add_0_r. reflexivity.
Qed.

(** Evaluates the entries of the month table at closed arguments. *)
Ltac table_values :=
  repeat match goal with
         | H : context [monthStart ?l ?m] |- _ =>
             let v := eval vm_compute in (monthStart l m) in
             change (monthStart l m) with v in H
         | |- context [monthStart ?l ?m] =>
             let v := eval vm_compute in (monthStart l m) in
             change (monthStart l m) with v
         end.

Section Fields.

Variables y m d h mi s : Z.
Let leap : Z := if isLeapYear y then 1 else 0.
Hypothesis Hm : 0 <= m <= 11.
Hypothesis Hd : 1 <= d <= monthStart leap (m + 1) - monthStart leap m.
Hypothesis Hh : 0 <= h <= 23.
Hypothesis Hmi : 0 <= mi <= 59.
Hypothesis Hs : 0 <= s <= 59.

Let t : Z := MakeDate (MakeDay y m d) (MakeTime h mi s 0).

Lemma leap_range : 0 <= leap <= 1.
Proof. subst leap. destruct (isLeapYear y); lia. Qed.

Lemma Day_of_fields : Day t = MakeDay y m d.
Proof.
  subst t. unfold Day, MakeDate, MakeTime, msPerDay, msPerHour, msPerMinute,
    msPerSecond.
  symmetry. apply Z.div_unique with (r := h * 3600000 + mi * 60000 + s * 1000 + 0); lia.
Qed.

Lemma YearFromTime_of_fields : YearFromTime t = y.
Proof.
  unfold YearFromTime. rewrite Day_of_fields, MakeDay_in_range by exact Hm.
  fold leap. apply YearFromDay_unique.
  pose proof leap_range as Hl.
  pose proof (monthStart_mono leap m Hl Hm).
  pose proof (monthStart_year leap (m + 1) Hl ltac:(lia)).
  rewrite DayFromYear_next. unfold DaysInYear. subst leap.
  destruct (isLeapYear y); lia.
Qed.

Lemma DayWithinYear_of_fields : DayWithinYear t = monthStart leap m + d - 1.
Proof.
  unfold DayWithinYear.
  rewrite YearFromTime_of_fields, Day_of_fields, MakeDay_in_range by exact Hm.
  fold leap. lia.
Qed.

Lemma InLeapYear_of_fields : InLeapYear t = leap.
Proof. unfold InLeapYear. rewrite YearFromTime_of_fields. reflexivity. Qed.

Lemma MonthFromTime_of_fields : MonthFromTime t = m.
Proof.
  unfold MonthFromTime.
  rewrite DayWithinYear_of_fields, InLeapYear_of_fields.
  generalize leap_range. revert Hd. generalize leap. intros l Hd Hl.
  assert (m = 0 \/ m = 1 \/ m = 2 \/ m = 3 \/ m = 4 \/ m = 5 \/ m = 6 \/
          m = 7 \/ m = 8 \/ m = 9 \/ m = 10 \/ m = 11) as Hc by lia.
  assert (l = 0 \/ l = 1) as [-> | ->] by lia;
    repeat destruct Hc as [-> | Hc]; try subst m;
    table_values;
    repeat match goal with
           | |- context [?a <? ?b] => destruct (Z.ltb_spec a b); try lia
           end.
Qed.

Lemma DateFromTime_of_fields : DateFromTime t = d.
Proof.
  unfold DateFromTime.
  rewrite MonthFromTime_of_fields, DayWithinYear_of_fields,
    InLeapYear_of_fields. lia.
Qed.

Lemma clock_of_fields :
  HourFromTime t = h /\ MinFromTime t = mi /\ SecFromTime t = s /\
  msFromTime t = 0.
Proof.
  subst t.
  unfold HourFromTime, MinFromTime, SecFromTime, msFromTime, MakeDate,
    MakeTime, msPerDay, msPerHour, msPerMinute, msPerSecond.
  generalize (MakeDay y m d). intros D.
  repeat split; Z.div_mod_to_equations; lia.
Qed.

(** A date built from in-range fields reads back as the same fields. *)
Lemma fieldsOfTime_of_fields : fieldsOfTime t = mkFields y m d h mi s 0.
Proof.
  unfold fieldsOfTime.
  rewrite YearFromTime_of_fields, MonthFromTime_of_fields,
    DateFromTime_of_fields.
  destruct clock_of_fields as (-> & -> & -> & ->). reflexivity.
Qed.

End Fields.

End DateFacts.

(** ** The date decoder on well-formed tokens *)

Module DecoderFacts.
Import JS ICal Reference.

Local Open Scope Z_scope.

Lemma checkBelow_sound P k :
  checkBelow P k = true -> forall n, 0 <= n < Z.of_nat k -> P n = true.
Proof.
  induction k as [| k IH]; intros Hc n Hn.
  - simpl in Hn. lia.
  - simpl in Hc. apply andb_prop in Hc as [Hk Hrest].
    destruct (Z.eq_dec n (Z.of_nat k)) as [-> | Hne]; [exact Hk |].
    apply IH; [exact Hrest | lia].
Qed.

Lemma readsBack_sound f n : readsBack f n = true -> parseInt (f n) = Some n.
Proof.
  unfold readsBack. destruct (parseInt (f n)) as [v |]; [| discriminate].
  intros H. apply Z.eqb_eq in H. now subst.
Qed.

Lemma parseInt_digits2 n :
  0 <= n <= 99 -> parseInt (digits2 n EmptyString) = Some n.
Proof.
  intros Hn. apply readsBack_sound with (f := fun k => digits2 k EmptyString).
  apply checkBelow_sound with (k := Z.to_nat 100);
    [vm_compute; reflexivity | rewrite Z2Nat.id; lia].
Qed.

Lemma parseInt_digits4 n :
  0 <= n <= 9999 -> parseInt (digits4 n EmptyString) = Some n.
Proof.
  intros Hn. apply readsBack_sound with (f := fun k => digits4 k EmptyString).
  apply checkBelow_sound with (k := Z.to_nat 10000);
    [vm_compute; reflexivity | rewrite Z2Nat.id; lia].
Qed.

Lemma orElse_Some x : orElse (Some x) 0 = Some x.
Proof. destruct x; reflexivity. Qed.

Lemma digitChar_not_Z n : Ascii.eqb (digitChar n) "Z" = false.
Proof.
  unfold digitChar.
  assert (0 <= n mod 10 < 10) as Hr by (apply Z.mod_pos_bound; lia).
  assert (n mod 10 = 0 \/ n mod 10 = 1 \/ n mod 10 = 2 \/ n mod 10 = 3 \/
          n mod 10 = 4 \/ n mod 10 = 5 \/ n mod 10 = 6 \/ n mod 10 = 7 \/
          n mod 10 = 8 \/ n mod 10 = 9) as Hc by lia.
  repeat destruct Hc as [-> | Hc]; try rewrite Hc; reflexivity.
Qed.

Lemma DayFromYear_range y :
  0 <= y <= 9999 -> -800000 <= DayFromYear y <= 3000000.
Proof. intros Hy. unfold DayFromYear. Z.div_mod_to_equations. lia. Qed.

Section Token.

Variables y mo d h mi s : Z.
Hypothesis Hvalid : validFields y mo d h mi s.
Hypothesis Hyear : 100 <= y.

Let t : Z := MakeDate (MakeDay y (mo - 1) d) (MakeTime h mi s 0).

Lemma token_time_fields : fieldsOfTime t = mkFields y (mo - 1) d h mi s 0.
Proof.
  destruct Hvalid as (Hy & Hmo & Hd & Hh & Hmi & Hs).
  apply DateFacts.fieldsOfTime_of_fields; try lia.
  unfold daysInMonth in Hd. replace (mo - 1 + 1) with mo by lia. exact Hd.
Qed.

Lemma token_time_clip : TimeClip t = Some t.
Proof.
  destruct Hvalid as (Hy & Hmo & Hd & Hh & Hmi & Hs).
  unfold TimeClip.
  assert (Z.abs t <= 8640000000000000) as Hb.
  { subst t. rewrite DateFacts.MakeDay_in_range by lia.
    pose proof (DayFromYear_range y Hy).
    assert (0 <= (if isLeapYear y then 1 else 0) <= 1) as Hl
      by (destruct (isLeapYear y); lia).
    pose proof (DateFacts.monthStart_mono _ (mo - 1) Hl ltac:(lia)).
    pose proof (DateFacts.monthStart_year _ (mo - 1) Hl ltac:(lia)).
    unfold daysInMonth in Hd.
    pose proof (DateFacts.monthStart_year _ mo Hl ltac:(lia)).
    unfold MakeDate, MakeTime, msPerDay, msPerHour, msPerMinute, msPerSecond.
    lia. }
  apply Z.leb_le in Hb. rewrite Hb. reflexivity.
Qed.

Lemma MakeFullYear_token : MakeFullYear y = y.
Proof.
  unfold MakeFullYear.
  destruct (Z.leb_spec 0 y), (Z.leb_spec y 99); cbn; lia || reflexivity.
Qed.

(** The six arguments the decoders pass on for the token of the fields. *)
Lemma token_arguments sfx :
  let tok := dateTimeToken y mo d h mi s sfx in
  parseInt (substring2 tok 0 4) = Some y /\
  sub (parseInt (substring2 tok 4 6)) (Some 1) = Some (mo - 1) /\
  parseInt (substring2 tok 6 8) = Some d /\
  orElse (parseInt (substring2 tok 9 11)) 0 = Some h /\
  orElse (parseInt (substring2 tok 11 13)) 0 = Some mi /\
  orElse (parseInt (substring2 tok 13 15)) 0 = Some s.
Proof.
  destruct Hvalid as (Hy & Hmo & Hd & Hh & Hmi & Hs).
  assert (d <= 31) as Hd31.
  { unfold daysInMonth in Hd.
    assert (0 <= (if isLeapYear y then 1 else 0) <= 1) as Hl
      by (destruct (isLeapYear y); lia).
    revert Hd. generalize (if isLeapYear y then 1 else 0) Hl. intros l Hl' Hd.
    assert (l = 0 \/ l = 1) as [-> | ->] by lia;
      assert (mo = 1 \/ mo = 2 \/ mo = 3 \/ mo = 4 \/ mo = 5 \/ mo = 6 \/
              mo = 7 \/ mo = 8 \/ mo = 9 \/ mo = 10 \/ mo = 11 \/ mo = 12)
        as Hc by lia;
      repeat destruct Hc as [-> | Hc]; try subst mo;
      DateFacts.table_values; lia. }
  intros tok. subst tok. destruct sfx as [| c sfx'];
  match goal with |- context [dateTimeToken y mo d h mi s ?x] =>
    set (tok := dateTimeToken y mo d h mi s x) end;
  change (substring2 tok 0 4) with (digits4 y EmptyString);
  change (substring2 tok 4 6) with (digits2 mo EmptyString);
  change (substring2 tok 6 8) with (digits2 d EmptyString);
  change (substring2 tok 9 11) with (digits2 h EmptyString);
  change (substring2 tok 11 13) with (digits2 mi EmptyString);
  change (substring2 tok 13 15) with (digits2 s EmptyString);
  rewrite parseInt_digits4 by lia;
  rewrite !parseInt_digits2 by lia;
  rewrite !orElse_Some; cbn [sub]; repeat split.
Qed.

Lemma parseDate_token_Z parts :
  isDateOnly parts = false ->
  CalendarTab.parseDate (dateTimeToken y mo d h mi s "Z") parts
  = DateOfTime (Some t).
Proof.
  intros Hp. unfold CalendarTab.parseDate. rewrite Hp.
  destruct (token_arguments "Z") as (-> & -> & -> & -> & -> & ->).
  change (endsWith (dateTimeToken y mo d h mi s "Z") "Z") with true.
  cbn [Date_UTC dateFromFields clip].
  rewrite MakeFullYear_token. fold t. rewrite token_time_clip.
  cbn [clip]. rewrite token_time_clip. reflexivity.
Qed.

Lemma parseDate_token_local parts :
  isDateOnly parts = false ->
  CalendarTab.parseDate (dateTimeToken y mo d h mi s EmptyString) parts
  = DateOfLocal (Some t).
Proof.
  intros Hp. unfold CalendarTab.parseDate. rewrite Hp.
  destruct (token_arguments EmptyString) as (-> & -> & -> & -> & -> & ->).
  change (endsWith (dateTimeToken y mo d h mi s EmptyString) "Z")
    with (Ascii.eqb (digitChar s) "Z").
  rewrite digitChar_not_Z.
  unfold newDate6. cbn [dateFromFields].
  rewrite MakeFullYear_token. reflexivity.
Qed.

(** The six numbers read off the token. *)
Lemma token_fields sfx :
  let tok := dateTimeToken y mo d h mi s sfx in
  parseInt (substring2 tok 0 4) = Some y /\
  parseInt (substring2 tok 4 6) = Some mo /\
  parseInt (substring2 tok 6 8) = Some d /\
  parseInt (substring2 tok 9 11) = Some h /\
  parseInt (substring2 tok 11 13) = Some mi /\
  parseInt (substring2 tok 13 15) = Some s.
Proof.
  destruct Hvalid as (Hy & Hmo & Hd & Hh & Hmi & Hs).
  assert (d <= 31) as Hd31.
  { unfold daysInMonth in Hd.
    assert (0 <= (if isLeapYear y then 1 else 0) <= 1) as Hl
      by (destruct (isLeapYear y); lia).
    revert Hd. generalize (if isLeapYear y then 1 else 0) Hl. intros l Hl' Hd.
    assert (l = 0 \/ l = 1) as [-> | ->] by lia;
      assert (mo = 1 \/ mo = 2 \/ mo = 3 \/ mo = 4 \/ mo = 5 \/ mo = 6 \/
              mo = 7 \/ mo = 8 \/ mo = 9 \/ mo = 10 \/ mo = 11 \/ mo = 12)
        as Hc by lia;
      repeat destruct Hc as [-> | Hc]; try subst mo;
      DateFacts.table_values; lia. }
  intros tok. subst tok. destruct sfx as [| c sfx'];
  match goal with |- context [dateTimeToken y mo d h mi s ?x] =>
    set (tok := dateTimeToken y mo d h mi s x) end;
  change (substring2 tok 0 4) with (digits4 y EmptyString);
  change (substring2 tok 4 6) with (digits2 mo EmptyString);
  change (substring2 tok 6 8) with (digits2 d EmptyString);
  change (substring2 tok 9 11) with (digits2 h EmptyString);
  change (substring2 tok 11 13) with (digits2 mi EmptyString);
  change (substring2 tok 13 15) with (digits2 s EmptyString);
  rewrite parseInt_digits4 by lia;
  rewrite !parseInt_digits2 by lia; repeat split.
Qed.

(** The time value of the token is far inside the range of a Date. *)
Lemma token_time_bound : Z.abs t <= 8640000000000000 - 2 * msPerDay.
Proof.
  destruct Hvalid as (Hy & Hmo & Hd & Hh & Hmi & Hs).
  subst t. rewrite DateFacts.MakeDay_in_range by lia.
  pose proof (DayFromYear_range y Hy).
  assert (0 <= (if isLeapYear y then 1 else 0) <= 1) as Hl
    by (destruct (isLeapYear y); lia).
  pose proof (DateFacts.monthStart_mono _ (mo - 1) Hl ltac:(lia)).
  pose proof (DateFacts.monthStart_year _ (mo - 1) Hl ltac:(lia)).
  unfold daysInMonth in Hd.
  pose proof (DateFacts.monthStart_year _ mo Hl ltac:(lia)).
  unfold MakeDate, MakeTime, msPerDay, msPerHour, msPerMinute, msPerSecond.
  lia.
Qed.

(** The instant a host makes of the local time of the token. *)
Lemma token_time_local zone :
  boundedOffsets zone ->
  timeValue zone (DateOfLocal (Some t)) = Some (UTC zone t).
Proof.
  intros Hz. cbn [timeValue]. unfold TimeClip.
  pose proof token_time_bound as Hb. specialize (Hz t).
  assert (Z.abs (UTC zone t) <= 8640000000000000) as Hc
    by (unfold UTC, msPerDay in *; lia).
  apply Z.leb_le in Hc. now rewrite Hc.
Qed.

(** The earlier copy of CalendarTab.tsx reads the token as local time and
    drops its seconds, whatever follows the token. *)
Lemma parseDate_V1_token sfx parts :
  isDateOnly parts = false ->
  CalendarTabV1.parseDate (dateTimeToken y mo d h mi s sfx) parts
  = DateOfLocal (Some (MakeDate (MakeDay y (mo - 1) d) (MakeTime h mi 0 0))).
Proof.
  intros Hp. unfold CalendarTabV1.parseDate. rewrite Hp.
  destruct (token_arguments sfx) as (-> & -> & -> & -> & -> & _).
  unfold newDate6. cbn [dateFromFields].
  rewrite MakeFullYear_token. reflexivity.
Qed.

Lemma isDigit_digitChar n : BasicParser.isDigit (digitChar n) = true.
Proof.
  unfold digitChar. pose proof (Z.mod_pos_bound n 10 ltac:(lia)) as Hr.
  revert Hr. generalize (n mod 10). intros r Hr.
  assert (r = 0 \/ r = 1 \/ r = 2 \/ r = 3 \/ r = 4 \/ r = 5 \/ r = 6 \/
          r = 7 \/ r = 8 \/ r = 9) as Hc by lia.
  repeat destruct Hc as [-> | Hc]; try subst r; reflexivity.
Qed.

(** The basic parser of part_005 reads the token as UTC, with and without a
    final Z. *)
Lemma parseDate_basic_token today sfx :
  sfx = EmptyString \/ sfx = "Z"%string ->
  BasicParser.parseDate today (Some (dateTimeToken y mo d h mi s sfx))
  = Returned (DateOfTime (Some t)).
Proof.
  intros Hsfx. unfold BasicParser.parseDate.
  assert (BasicParser.findDate (dateTimeToken y mo d h mi s sfx)
          = Some (dateTimeToken y mo d h mi s sfx)) as ->.
  { unfold dateTimeToken, digits4, digits2.
    cbn [BasicParser.findDate BasicParser.digitsAt].
    now rewrite !isDigit_digitChar. }
  cbv zeta.
  destruct (token_fields sfx) as (-> & -> & -> & -> & -> & ->).
  assert (String.eqb (substring2 (dateTimeToken y mo d h mi s sfx) 8 9) "T"
          && BasicParser.digitsAt 6
               (substring1 (dateTimeToken y mo d h mi s sfx) 9) = true) as ->.
  { destruct Hsfx as [-> | ->];
    match goal with |- context [dateTimeToken y mo d h mi s ?x] =>
      set (tok := dateTimeToken y mo d h mi s x) end;
    change (substring2 tok 8 9) with "T"%string;
    [ change (substring1 tok 9)
        with (digits2 h (digits2 mi (digits2 s EmptyString)))
    | change (substring1 tok 9)
        with (digits2 h (digits2 mi (digits2 s "Z"))) ];
    unfold digits2; cbn [BasicParser.digitsAt String.eqb Ascii.eqb];
    rewrite !isDigit_digitChar; reflexivity. }
  cbn [sub Date_UTC dateFromFields clip].
  rewrite MakeFullYear_token. fold t. rewrite token_time_clip.
  cbn [clip]. rewrite token_time_clip. reflexivity.
Qed.

End Token.

(** [parseICalDate] of calendarService.ts and [parseDate] of CalendarTab.tsx are
    the same function. *)
Lemma parseICalDate_parseDate value keyParts :
  CalendarService.parseICalDate value keyParts
  = CalendarTab.parseDate value keyParts.
Proof.
  unfold CalendarService.parseICalDate, CalendarTab.parseDate.
  destruct (isDateOnly keyParts); reflexivity.
Qed.



End DecoderFacts.

(** ** The claims about the decoder and the example document *)

Section DecoderClaims.
Import JS ICal Reference DecoderFacts.

Local Open Scope Z_scope.

(** C1.  The example document (BEGIN:VCALENDAR, BEGIN:VEVENT,
    SUMMARY:Midterm\, Calc III, DTSTART;VALUE=DATE:20250522,
    LOCATION:Main Hall A, END:VEVENT, END:VCALENDAR), with LF or CR LF line
    ends, parses to exactly one event: title "Midterm, Calc III", allDay
    true, location "Main Hall A", and a start date that is the local date
    2025-05-22 (month index 4) at 00:00:00.000.  This holds for
    [parseICalContent] with any subscription arguments and for the loop of
    [importICalEvents] in calendarService.ts. *)
Theorem example_document_one_event (subscriptionId color : option string) :
  (exists e,
      CalendarTab.parseICalContent (exampleDocument (String LF EmptyString))
        subscriptionId color = [e] /\ isExampleEvent e) /\
  (exists e,
      CalendarTab.parseICalContent
        (exampleDocument (String CR (String LF EmptyString)))
        subscriptionId color = [e] /\ isExampleEvent e) /\
  (exists e,
      CalendarService.parsedEvents (exampleDocument (String LF EmptyString))
      = [e] /\ isExampleEvent e).
Proof.
  repeat split; eexists; (split; [vm_compute; reflexivity |]);
    unfold isExampleEvent; cbn [title allDay location startDate];
    repeat split; eexists; split; reflexivity.
Qed.

(** C3, where two of the decoders it cites part from it.  Take the token of
    any valid date and time of day from year 0100 on, on a host in any time
    zone.  [parseICalDate] of calendarService.ts reads the token followed by
    Z as the instant with those UTC fields, and the token alone as the local
    time with those fields, as the claim asks.  [parseDate] of the earlier
    copy of CalendarTab.tsx (lines 105-116) has no branch for the Z and no
    seconds: it reads the token followed by Z as local time too.  [parseDate]
    of part_005 reads both forms as UTC.  So where the host's offset is not
    zero, the first gives another instant than the claim's for the token
    with Z, and the second another instant than the local one for the token
    without. *)
Theorem decoders_disagree_on_zone (zone : Zone) (today : Date)
    (y mo d h mi s : Z) (parts : list string) :
  validFields y mo d h mi s -> 100 <= y -> isDateOnly parts = false ->
  boundedOffsets zone ->
  let t := MakeDate (MakeDay y (mo - 1) d) (MakeTime h mi s 0) in
  let t0 := MakeDate (MakeDay y (mo - 1) d) (MakeTime h mi 0 0) in
  fieldsOfTime t = mkFields y (mo - 1) d h mi s 0 /\
  timeValue zone
    (CalendarService.parseICalDate (dateTimeToken y mo d h mi s "Z") parts)
  = Some t /\
  timeValue zone
    (CalendarService.parseICalDate (dateTimeToken y mo d h mi s EmptyString)
       parts)
  = Some (UTC zone t) /\
  timeValue zone
    (CalendarTabV1.parseDate (dateTimeToken y mo d h mi s "Z") parts)
  = Some (UTC zone t0) /\
  timeValue zone
    (CalendarTabV1.parseDate (dateTimeToken y mo d h mi s EmptyString) parts)
  = Some (UTC zone t0) /\
  BasicParser.parseDate today (Some (dateTimeToken y mo d h mi s "Z"))
  = Returned (DateOfTime (Some t)) /\
  BasicParser.parseDate today (Some (dateTimeToken y mo d h mi s EmptyString))
  = Returned (DateOfTime (Some t)) /\
  (s = 0 -> offsetAtLocal zone t <> 0 ->
   timeValue zone
     (CalendarTabV1.parseDate (dateTimeToken y mo d h mi s "Z") parts)
   <> Some t /\
   timeValue zone (DateOfTime (Some t)) <> Some (UTC zone t)).
Proof.
  intros Hv Hy Hp Hz. cbv zeta.
  assert (validFields y mo d h mi 0) as Hv0
    by (unfold validFields in *; lia).
  assert (forall sfx,
            timeValue zone
              (CalendarTabV1.parseDate (dateTimeToken y mo d h mi s sfx) parts)
            = Some (UTC zone
                      (MakeDate (MakeDay y (mo - 1) d) (MakeTime h mi 0 0))))
    as HV1.
  { intros sfx. rewrite (parseDate_V1_token y mo d h mi s Hv Hy sfx parts Hp).
    exact (token_time_local y mo d h mi 0 Hv0 zone Hz). }
  split; [exact (token_time_fields y mo d h mi s Hv) |].
  split; [| split; [| split; [| split; [| split; [| split]]]]].
  - rewrite parseICalDate_parseDate.
    now rewrite (parseDate_token_Z y mo d h mi s Hv Hy parts Hp).
  - rewrite parseICalDate_parseDate.
    rewrite (parseDate_token_local y mo d h mi s Hv Hy parts Hp).
    exact (token_time_local y mo d h mi s Hv zone Hz).
  - apply HV1.
  - apply HV1.
  - apply (parseDate_basic_token y mo d h mi s Hv Hy). now right.
  - apply (parseDate_basic_token y mo d h mi s Hv Hy). now left.
  - intros Hs Hoff. rewrite HV1. subst s. unfold UTC. cbn [timeValue].
    split; intros H; injection H as H; lia.
Qed.

Lemma decoders_disagree_witness :
  timeValue berlin2025
    (CalendarService.parseICalDate (dateTimeToken 2025 6 15 9 0 0 "Z")
       ["DTSTART"%string])
  = Some (MakeDate (MakeDay 2025 (6 - 1) 15) (MakeTime 9 0 0 0)) /\
  timeValue berlin2025
    (CalendarTabV1.parseDate (dateTimeToken 2025 6 15 9 0 0 "Z")
       ["DTSTART"%string])
  <> Some (MakeDate (MakeDay 2025 (6 - 1) 15) (MakeTime 9 0 0 0)) /\
  BasicParser.parseDate (DateOfTime None)
    (Some (dateTimeToken 2025 6 15 9 0 0 EmptyString))
  = Returned
      (DateOfTime (Some (MakeDate (MakeDay 2025 (6 - 1) 15) (MakeTime 9 0 0 0)))).
Proof.
  destruct (decoders_disagree_on_zone berlin2025 (DateOfTime None)
              2025 6 15 9 0 0 ["DTSTART"%string])
    as (_ & H1 & _ & _ & _ & _ & H2 & H3).
  - unfold validFields. change (daysInMonth 2025 6) with 30. lia.
  - lia.
  - reflexivity.
  - intros t. unfold berlin2025, msPerDay. cbn [offsetAtLocal].
    destruct ((1743303600000 <=? t) && (t <? 1761447600000)); lia.
  - split; [exact H1 |]. split; [| exact H2].
    apply H3; [reflexivity |]. vm_compute. discriminate.
Defined.

(** X28.  The decoder of the calendar tab and of calendarService.ts on a
    host in any zone.  For the token of every valid date and time of day whose year
    is 0100 or later, the token followed by Z is decoded to the Date whose
    UTC fields are those of the token, and the token alone to the Date whose
    local fields are those of the token, provided that local time exists in
    the zone. *)
Theorem decoder_faithful_from_year_100 (zone : Zone) (y mo d h mi s : Z) :
  validFields y mo d h mi s -> 100 <= y -> boundedOffsets zone ->
  decodesFaithfully zone CalendarTab.parseDate y mo d h mi s /\
  decodesFaithfully zone CalendarService.parseICalDate y mo d h mi s.
Proof.
  intros Hv Hy Hz.
  assert (decodesFaithfully zone CalendarTab.parseDate y mo d h mi s) as Hmain.
  { intros parts Hp. split.
    - rewrite (parseDate_token_Z y mo d h mi s Hv Hy parts Hp).
      unfold utcFields. cbn [timeValue].
      now rewrite (token_time_fields y mo d h mi s Hv).
    - intros Hex. rewrite (parseDate_token_local y mo d h mi s Hv Hy parts Hp).
      unfold localFields.
      rewrite (token_time_local y mo d h mi s Hv zone Hz).
      unfold existsLocally in Hex. rewrite Hex.
      now rewrite (token_time_fields y mo d h mi s Hv). }
  split; [exact Hmain |].
  intros parts Hp. rewrite !parseICalDate_parseDate. apply Hmain, Hp.
Qed.

Lemma decoder_faithful_witness :
  dateTimeToken 2025 6 15 9 0 0 "Z" = "20250615T090000Z"%string /\
  decodesFaithfully berlin2025 CalendarTab.parseDate 2025 6 15 9 0 0 /\
  decodesFaithfully berlin2025 CalendarService.parseICalDate 2025 6 15 9 0 0.
Proof.
  split; [reflexivity |].
  apply (decoder_faithful_from_year_100 berlin2025 2025 6 15 9 0 0); [| lia |].
  - unfold validFields. change (daysInMonth 2025 6) with 30. lia.
  - intros t. unfold berlin2025, msPerDay. cbn [offsetAtLocal].
    destruct ((1743303600000 <=? t) && (t <? 1761447600000)); lia.
Defined.

(** Below year 0100 the decoder is not faithful: the token 00500615T090000 is
    valid, but with Z it decodes to an instant in 1950, because the runtime
    reads the years 0 to 99 as 1900 to 1999. *)
Remark decoder_two_digit_year (zone : Zone) :
  validFields 50 6 15 9 0 0 /\
  dateTimeToken 50 6 15 9 0 0 "Z" = "00500615T090000Z"%string /\
  CalendarTab.parseDate "00500615T090000Z" ["DTSTART"%string]
  = DateOfTime (Some (-616863600000)) /\
  f_year (fieldsOfTime (-616863600000)) = 1950 /\
  ~ decodesFaithfully zone CalendarTab.parseDate 50 6 15 9 0 0.
Proof.
  split; [| split; [| split; [| split]]].
  - unfold validFields. change (daysInMonth 50 6) with 30. lia.
  - reflexivity.
  - vm_compute. reflexivity.
  - vm_compute. reflexivity.
  - intros H. destruct (H ["DTSTART"%string] eq_refl) as [Hf _].
    change (dateTimeToken 50 6 15 9 0 0 "Z") with "00500615T090000Z"%string in Hf.
    vm_compute in Hf. discriminate Hf.
Qed.

(** A local time that a clock change skips is not decoded faithfully either:
    on a host with the rules of Europe/Berlin, 20250330T023000 is read with
    the offset before the change and the Date shows 03:30 on the local
    clock. *)
Remark decoder_clock_gap :
  validFields 2025 3 30 2 30 0 /\
  dateTimeToken 2025 3 30 2 30 0 EmptyString = "20250330T023000"%string /\
  ~ existsLocally berlin2025 1743301800000 /\
  timeValue berlin2025
    (CalendarService.parseICalDate "20250330T023000" ["DTSTART"%string])
  = Some 1743298200000 /\
  localFields berlin2025
    (CalendarService.parseICalDate "20250330T023000" ["DTSTART"%string])
  = Some (mkFields 2025 2 30 3 30 0 0).
Proof.
  split; [| split; [| split; [| split]]].
  - unfold validFields. change (daysInMonth 2025 3) with 31. lia.
  - reflexivity.
  - vm_compute. discriminate.
  - vm_compute. reflexivity.
  - vm_compute. reflexivity.
Qed.




(** C2, at the failing input.  On the value backslash backslash n (an escaped
    backslash followed by the letter n) the one-pass unescaper gives backslash
    n, while [unescapeValue] gives backslash newline: its first replacement
    reads the second backslash and the n as an escaped newline.  So the
    summary C:\\new, the escaped form of the title C:\new, is parsed to a title
    with a line break after the backslash. *)
Theorem unescapeValue_not_one_pass :
  let raw := String BACKSLASH (String BACKSLASH "n") in
  CalendarTab.unescapeValue raw = String BACKSLASH (String LF EmptyString) /\
  unescapeSinglePass raw = String BACKSLASH "n" /\
  CalendarTab.unescapeValue raw <> unescapeSinglePass raw /\
  map title
    (CalendarTab.parseICalContent
       (joinLines ["BEGIN:VCALENDAR"; "BEGIN:VEVENT"; "SUMMARY:C:\\new";
                   "DTSTART:20250615T090000Z"; "END:VEVENT";
                   "END:VCALENDAR"]%string) None None)
  = [Some ("C:" ++ String BACKSLASH (String LF "ew"))%string] /\
  unescapeSinglePass "C:\\new" = "C:\new"%string.
Proof.
  cbv zeta. split; [reflexivity |]. split; [reflexivity |].
  split; [vm_compute; discriminate |].
  split; vm_compute; reflexivity.
Qed.

(** The earlier copy of CalendarTab.tsx decodes the same token as a local
    time: its [parseDate] has no branch for a final Z. *)
Remark CalendarTabV1_parseDate_ignores_Z :
  CalendarTabV1.parseDate "20250615T090000Z" ["DTSTART"%string]
  = DateOfLocal (Some 1749978000000) /\
  CalendarTab.parseDate "20250615T090000Z" ["DTSTART"%string]
  = DateOfTime (Some 1749978000000).
Proof. split; vm_compute; reflexivity. Qed.

(** The basic parser of part_005 decodes a token with a time as UTC whether
    or not it ends in Z. *)
Remark BasicParser_parseDate_always_UTC (today : Date) :
  BasicParser.parseDate today (Some "20250615T090000"%string)
  = Returned (DateOfTime (Some 1749978000000)) /\
  BasicParser.parseDate today (Some "20250615T090000Z"%string)
  = Returned (DateOfTime (Some 1749978000000)).
Proof. split; vm_compute; reflexivity. Qed.

(** On the example document the basic parser also finds one event, whose
    summary keeps the backslash of the escaped comma. *)
Remark BasicParser_example_document (today : Date) (randomId : nat -> string) :
  BasicParser.parseICal today randomId (exampleDocument (String LF EmptyString))
  = Returned
      [BasicParser.mkCalendarEvent (randomId 0%nat) "Midterm\, Calc III"
         (DateOfLocal (Some 1747872000000)) (DateOfLocal (Some 1747872000000))
         (Some "Main Hall A"%string) None BasicParser.lesson].
Proof. vm_compute. reflexivity. Qed.

(** calendarService.ts has no replacement for an escaped backslash. *)
Remark CalendarService_keeps_escaped_backslash :
  let raw := String BACKSLASH (String BACKSLASH EmptyString) in
  CalendarService.unescapeText raw = raw /\
  unescapeSinglePass raw = String BACKSLASH EmptyString.
Proof. split; reflexivity. Qed.

End DecoderClaims.

(** ** The unescaper away from escaped backslashes *)

Module UnescapeFacts.
Import JS Reference.

Lemma replaceEscape_other x r a s :
  Ascii.eqb a BACKSLASH = false ->
  replaceEscape x r (String a s) = String a (replaceEscape x r s).
Proof. intros H. simpl. now rewrite H. Qed.

Lemma replaceEscape_hit x r s :
  replaceEscape x r (String BACKSLASH (String x s))
  = (r ++ replaceEscape x r s)%string.
Proof. simpl. now rewrite Ascii.eqb_refl. Qed.

Lemma replaceEscape_miss x r b s :
  Ascii.eqb b x = false ->
  replaceEscape x r (String BACKSLASH (String b s))
  = String BACKSLASH (replaceEscape x r (String b s)).
Proof. intros H. cbn [replaceEscape]. now rewrite H. Qed.

Lemma noDoubleBackslash_tail a s :
  noDoubleBackslash (String a s) = true -> noDoubleBackslash s = true.
Proof.
  destruct s as [| b s]; [reflexivity |].
  cbn [noDoubleBackslash]. intros H. now apply andb_prop in H as [_ H].
Qed.

Lemma unescapeValue_other a s :
  Ascii.eqb a BACKSLASH = false ->
  CalendarTab.unescapeValue (String a s)
  = String a (CalendarTab.unescapeValue s).
Proof.
  intros H. unfold CalendarTab.unescapeValue.
  now rewrite !replaceEscape_other by exact H.
Qed.

(** On a value with no two backslashes in a row the four replacements of
    [unescapeValue] give what the single pass gives. *)
Lemma unescapeValue_single_pass_aux s :
  (noDoubleBackslash s = true ->
   CalendarTab.unescapeValue s = unescapeSinglePass s) /\
  (forall a, noDoubleBackslash (String a s) = true ->
   CalendarTab.unescapeValue (String a s) = unescapeSinglePass (String a s)).
Proof.
  induction s as [| b s [IH1 IH2]].
  - split; [reflexivity |]. intros a _.
    destruct (Ascii.eqb a BACKSLASH) eqn:E.
    + apply Ascii.eqb_eq in E. subst a. reflexivity.
    + rewrite unescapeValue_other by exact E.
      cbn [unescapeSinglePass]. rewrite E. reflexivity.
  - split; [apply IH2 |]. intros a Hn.
    pose proof (noDoubleBackslash_tail _ _ Hn) as Hn'.
    pose proof (noDoubleBackslash_tail _ _ Hn') as Hn''.
    destruct (Ascii.eqb a BACKSLASH) eqn:Ea.
    + apply Ascii.eqb_eq in Ea. subst a.
      assert (Ascii.eqb b BACKSLASH = false) as Eb.
      { cbn [noDoubleBackslash] in Hn. apply andb_prop in Hn as [Hn _].
        destruct (Ascii.eqb b BACKSLASH); [discriminate Hn | reflexivity]. }
      unfold CalendarTab.unescapeValue.
      destruct (Ascii.eqb_spec b "n") as [-> | Hbn].
      { rewrite replaceEscape_hit. cbn [append].
        rewrite !replaceEscape_other by reflexivity.
        fold (CalendarTab.unescapeValue s). rewrite (IH1 Hn''). reflexivity. }
      apply Ascii.eqb_neq in Hbn.
      rewrite (replaceEscape_miss "n") by exact Hbn.
      rewrite (replaceEscape_other "n" _ b) by exact Eb.
      destruct (Ascii.eqb_spec b ",") as [-> | Hbc].
      { rewrite replaceEscape_hit. cbn [append].
        rewrite !replaceEscape_other by reflexivity.
        fold (CalendarTab.unescapeValue s). rewrite (IH1 Hn''). reflexivity. }
      apply Ascii.eqb_neq in Hbc.
      rewrite (replaceEscape_miss ",") by exact Hbc.
      rewrite (replaceEscape_other "," _ b) by exact Eb.
      destruct (Ascii.eqb_spec b ";") as [-> | Hbs].
      { rewrite replaceEscape_hit. cbn [append].
        rewrite !replaceEscape_other by reflexivity.
        fold (CalendarTab.unescapeValue s). rewrite (IH1 Hn''). reflexivity. }
      apply Ascii.eqb_neq in Hbs.
      rewrite (replaceEscape_miss ";") by exact Hbs.
      rewrite (replaceEscape_other ";" _ b) by exact Eb.
      rewrite (replaceEscape_miss BACKSLASH) by exact Eb.
      rewrite (replaceEscape_other BACKSLASH _ b) by exact Eb.
      fold (CalendarTab.unescapeValue s). rewrite (IH1 Hn'').
      cbn [unescapeSinglePass]. rewrite Eb, Hbc, Hbs, Hbn.
      change (Ascii.eqb BACKSLASH BACKSLASH) with true. cbv iota.
      reflexivity.
    + rewrite unescapeValue_other by exact Ea.
      rewrite (IH2 b Hn'). cbn [unescapeSinglePass]. rewrite Ea. reflexivity.
Qed.

Lemma unescapeValue_single_pass s :
  noDoubleBackslash s = true ->
  CalendarTab.unescapeValue s = unescapeSinglePass s.
Proof. apply unescapeValue_single_pass_aux. Qed.

End UnescapeFacts.

(** ** The unfolder *)

Module UnfoldFacts.
Import JS ICal Reference.

Lemma splitLines_cons x : exists l ls, splitLines x = l :: ls.
Proof.
  destruct x as [| a x]; [now eexists; eexists |].
  simpl. destruct (Ascii.eqb a CR).
  - destruct x as [| b x]; [now eexists; eexists |].
    destruct (Ascii.eqb b LF); now eexists; eexists.
  - destruct (Ascii.eqb a LF); [now eexists; eexists |].
    destruct (splitLines x); now eexists; eexists.
Qed.

(** The recursion of [splitLines] skips two characters at CR LF, so the
    induction carries the statement for a text and for every text one
    character longer. *)
Lemma splitLines_noBreak_aux x :
  Forall (fun l => noBreak l = true) (splitLines x) /\
  forall a, Forall (fun l => noBreak l = true) (splitLines (String a x)).
Proof.
  induction x as [| b x [IH1 IH2]].
  - split; [repeat constructor |].
    intros a. simpl.
    destruct (Ascii.eqb a CR) eqn:Ecr; [repeat constructor |].
    destruct (Ascii.eqb a LF) eqn:Elf; [repeat constructor |].
    repeat constructor. simpl. now rewrite Ecr, Elf.
  - split; [apply IH2 |].
    intros a. specialize (IH2 b).
    change (splitLines (String a (String b x))) with
      (if Ascii.eqb a CR then
         if Ascii.eqb b LF then EmptyString :: splitLines x
         else EmptyString :: splitLines (String b x)
       else if Ascii.eqb a LF then EmptyString :: splitLines (String b x)
       else match splitLines (String b x) with
            | l :: ls => String a l :: ls
            | [] => [String a EmptyString]
            end).
    destruct (Ascii.eqb a CR) eqn:Ecr.
    + destruct (Ascii.eqb b LF); constructor; auto.
    + destruct (Ascii.eqb a LF) eqn:Elf; [constructor; auto |].
      destruct (splitLines (String b x)) as [| l ls].
      * repeat constructor. simpl. now rewrite Ecr, Elf.
      * inversion IH2; subst. constructor; [| assumption].
        simpl. rewrite Ecr, Elf. assumption.
Qed.

Lemma splitLines_noBreak x : Forall (fun l => noBreak l = true) (splitLines x).
Proof. apply splitLines_noBreak_aux. Qed.

Lemma noBreak_append a b :
  noBreak a = true -> noBreak b = true -> noBreak (a ++ b) = true.
Proof.
  induction a as [| c a IH]; simpl; intros Ha Hb; [exact Hb |].
  apply andb_prop in Ha as [Hc Ha]. rewrite Hc. simpl. auto.
Qed.

Lemma noBreak_substring s : forall n m,
  noBreak s = true -> noBreak (substring n m s) = true.
Proof.
  induction s as [| c s IH]; intros n m Hs.
  - destruct n, m; reflexivity.
  - simpl in Hs. apply andb_prop in Hs as [Hc Hs].
    destruct n as [| n]; destruct m as [| m]; simpl; auto.
    rewrite Hc. simpl. auto.
Qed.

Lemma unfoldFrom_noBreak rest : forall line,
  noBreak line = true -> Forall (fun l => noBreak l = true) rest ->
  Forall (fun l => noBreak l = true) (unfoldFrom line rest).
Proof.
  induction rest as [| nxt rest IH]; intros line Hl Hr; simpl.
  - repeat constructor. exact Hl.
  - inversion Hr as [| ? ? Hn Hr']; subst.
    destruct (isContinuation nxt).
    + apply IH; [| exact Hr'].
      apply noBreak_append; [exact Hl |]. now apply noBreak_substring.
    + constructor; [exact Hl |]. now apply IH.
Qed.

Lemma unfoldFrom_cons line rest : exists l ls, unfoldFrom line rest = l :: ls.
Proof.
  revert line. induction rest as [| nxt rest IH]; intros line; simpl.
  - now eexists; eexists.
  - destruct (isContinuation nxt); [apply IH | now eexists; eexists].
Qed.

Lemma splitLines_append_LF l rest :
  noBreak l = true -> splitLines (l ++ String LF rest) = l :: splitLines rest.
Proof.
  induction l as [| c l IH]; intros Hl.
  - reflexivity.
  - simpl in Hl. apply andb_prop in Hl as [Hc Hl].
    apply andb_prop in Hc as [Hcr Hlf].
    apply negb_true_iff in Hcr, Hlf.
    change ((String c l ++ String LF rest)%string)
      with (String c (l ++ String LF rest)).
    cbn [splitLines]. rewrite Hcr, Hlf, (IH Hl). reflexivity.
Qed.

Lemma splitLines_single l : noBreak l = true -> splitLines l = [l].
Proof.
  induction l as [| c l IH]; intros Hl; [reflexivity |].
  simpl in Hl. apply andb_prop in Hl as [Hc Hl].
  apply andb_prop in Hc as [Hcr Hlf].
  apply negb_true_iff in Hcr, Hlf.
  cbn [splitLines]. rewrite Hcr, Hlf, (IH Hl). reflexivity.
Qed.

(** Joining lines without breaks and splitting again gives the lines back. *)
Lemma splitLines_joinLines l ls :
  Forall (fun l => noBreak l = true) (l :: ls) ->
  splitLines (joinLines (l :: ls)) = l :: ls.
Proof.
  revert l. induction ls as [| l' ls IH]; intros l H.
  - inversion H; subst. now apply splitLines_single.
  - inversion H as [| ? ? Hl Hrest]; subst.
    change (joinLines (l :: l' :: ls))
      with ((l ++ String LF (joinLines (l' :: ls)))%string).
    rewrite splitLines_append_LF by exact Hl.
    now rewrite IH.
Qed.

Lemma unfoldFrom_settled line rest :
  Forall (fun l => isContinuation l = false) rest ->
  unfoldFrom line rest = line :: rest.
Proof.
  revert line. induction rest as [| nxt rest IH]; intros line H; simpl.
  - reflexivity.
  - inversion H as [| ? ? Hn Hr]; subst. rewrite Hn. now rewrite IH.
Qed.

Lemma unfoldFrom_length rest : forall line,
  (List.length (unfoldFrom line rest) <= S (List.length rest))%nat.
Proof.
  induction rest as [| nxt rest IH]; intros line; simpl; [lia |].
  destruct (isContinuation nxt).
  - specialize (IH (line ++ substring1 nxt 1)%string). lia.
  - specialize (IH nxt). simpl. lia.
Qed.

(** A continuation line among the raw lines makes the result shorter. *)
Lemma unfoldFrom_shorter rest : forall line,
  Exists (fun l => isContinuation l = true) rest ->
  (List.length (unfoldFrom line rest) < S (List.length rest))%nat.
Proof.
  induction rest as [| nxt rest IH]; intros line H; [inversion H |].
  simpl. destruct (isContinuation nxt) eqn:E.
  - pose proof (unfoldFrom_length rest (line ++ substring1 nxt 1)%string). lia.
  - inversion H as [? ? Hn | ? ? Hr]; subst; [congruence |].
    specialize (IH nxt Hr). simpl. lia.
Qed.

Lemma unfoldFrom_fixed_settled line rest :
  unfoldFrom line rest = line :: rest ->
  Forall (fun l => isContinuation l = false) rest.
Proof.
  intros Heq. apply Forall_forall. intros l Hin.
  destruct (isContinuation l) eqn:E; [| reflexivity].
  exfalso.
  assert (Exists (fun l => isContinuation l = true) rest) as Hex
    by (apply Exists_exists; eauto).
  pose proof (unfoldFrom_shorter rest line Hex) as Hlt.
  rewrite Heq in Hlt. simpl in Hlt. lia.
Qed.

Lemma logicalLines_cons x : exists l ls, logicalLines x = l :: ls.
Proof.
  unfold logicalLines. destruct (splitLines_cons x) as (l & ls & ->).
  apply unfoldFrom_cons.
Qed.

Lemma logicalLines_noBreak x :
  Forall (fun l => noBreak l = true) (logicalLines x).
Proof.
  unfold logicalLines. pose proof (splitLines_noBreak x) as H.
  destruct (splitLines x) as [| l ls]; [constructor |].
  inversion H; subst. now apply unfoldFrom_noBreak.
Qed.

(** Splitting the rejoined output gives the logical lines back. *)
Lemma splitLines_unfoldText x : splitLines (unfoldText x) = logicalLines x.
Proof.
  unfold unfoldText. fold (logicalLines x).
  pose proof (logicalLines_noBreak x) as H.
  destruct (logicalLines_cons x) as (l & ls & E). rewrite E in *.
  now apply splitLines_joinLines.
Qed.

Lemma isContinuation_append l sfx :
  l <> EmptyString -> isContinuation (l ++ sfx) = isContinuation l.
Proof.
  destruct l as [| c l]; [congruence |]. intros _.
  unfold isContinuation, startsWith. cbn [append prefix].
  destruct (ascii_dec SP c), (ascii_dec TAB c);
    destruct l, sfx; reflexivity.
Qed.

(** Without empty raw lines every logical line starts like the raw line that
    opens it. *)
Lemma unfoldFrom_nonempty_lines rest : forall line,
  line <> EmptyString -> isContinuation line = false ->
  Forall (fun l => l <> EmptyString) rest ->
  Forall (fun l => isContinuation l = false) (unfoldFrom line rest).
Proof.
  induction rest as [| nxt rest IH]; intros line Hne Hc Hr; simpl.
  - repeat constructor. exact Hc.
  - inversion Hr as [| ? ? Hn Hr']; subst.
    destruct (isContinuation nxt) eqn:E.
    + apply IH; [| | exact Hr'].
      * destruct line; [congruence | discriminate].
      * now rewrite isContinuation_append.
    + constructor; [exact Hc |]. now apply IH.
Qed.

Lemma tl_unfoldFrom_nonempty_lines rest : forall line,
  Forall (fun l => l <> EmptyString) rest ->
  Forall (fun l => isContinuation l = false) (tl (unfoldFrom line rest)).
Proof.
  induction rest as [| nxt rest IH]; intros line Hr; simpl.
  - constructor.
  - inversion Hr as [| ? ? Hn Hr']; subst.
    destruct (isContinuation nxt) eqn:E.
    + now apply IH.
    + simpl. now apply unfoldFrom_nonempty_lines.
Qed.

End UnfoldFacts.

Section UnfoldClaims.
Import JS ICal Reference UnfoldFacts.

(** C9, amended.  Unfolding the rejoined output of the unfolder gives the same
    logical lines as unfolding once exactly when no logical line after the
    first begins with a space or a tab; this is so, in particular, for every
    text that has no empty line. *)
Theorem unfold_twice (x : string) :
  (logicalLines (unfoldText x) = logicalLines x <-> settled x) /\
  (Forall (fun l => l <> EmptyString) (splitLines x) ->
   logicalLines (unfoldText x) = logicalLines x).
Proof.
  assert (logicalLines (unfoldText x) = logicalLines x <-> settled x) as Hiff.
  { unfold settled.
    unfold logicalLines at 1. rewrite splitLines_unfoldText.
    destruct (logicalLines_cons x) as (l & ls & E). rewrite E.
    cbn [unfoldLines tl]. split.
    - apply unfoldFrom_fixed_settled.
    - apply unfoldFrom_settled. }
  split; [exact Hiff |].
  intros Hne. apply Hiff. unfold settled, logicalLines.
  destruct (splitLines x) as [| l ls]; [constructor |].
  inversion Hne; subst. now apply tl_unfoldFrom_nonempty_lines.
Qed.

(** C9 as stated fails on the text A, empty line, two spaces and foo: once
    unfolded its logical lines are A and " foo"; unfolded again they are the
    single line Afoo. *)
Lemma unfold_not_idempotent :
  let x := ("A" ++ String LF (String LF "  foo"))%string in
  logicalLines x = ["A"; " foo"]%string /\
  logicalLines (unfoldText x) = ["Afoo"%string] /\
  logicalLines (unfoldText x) <> logicalLines x /\
  unfoldText (unfoldText x) <> unfoldText x.
Proof.
  cbv zeta. repeat split; try (vm_compute; reflexivity);
    vm_compute; discriminate.
Qed.

Lemma unfold_twice_witness :
  let x := ("DESCRIPTION:Bring a calculator" ++ String LF
            (" and a ruler" ++ String LF "END:VEVENT"))%string in
  logicalLines x
  = ["DESCRIPTION:Bring a calculatorand a ruler"; "END:VEVENT"]%string /\
  logicalLines (unfoldText x) = logicalLines x.
Proof.
  cbv zeta. split; [vm_compute; reflexivity |].
  apply (proj2 (unfold_twice
    ("DESCRIPTION:Bring a calculator" ++ String LF
     (" and a ruler" ++ String LF "END:VEVENT"))%string)).
  vm_compute. repeat constructor; discriminate.
Defined.

End UnfoldClaims.

(** ** The event block parser *)

Module ParserFacts.
Import JS ICal Reference.

Section Generic.

Variable newDraft : EventFormData.
Variables unescapeSummary unescapeDescription unescapeLocation : string -> string.
Variable parseDate : string -> list string -> Date.

Let processLine :=
  processLine newDraft unescapeSummary unescapeDescription unescapeLocation
    parseDate.
Let propertyLine :=
  propertyLine unescapeSummary unescapeDescription unescapeLocation parseDate.
Let run :=
  run newDraft unescapeSummary unescapeDescription unescapeLocation parseDate.
Let parseLogical :=
  parseLogical newDraft unescapeSummary unescapeDescription unescapeLocation
    parseDate.

(** The loop with its folding is the loop body run over the logical
    lines. *)
Lemma scan_run rest : forall st line,
  scan newDraft unescapeSummary unescapeDescription unescapeLocation parseDate
    st line rest
  = run st (unfoldFrom line rest).
Proof.
  induction rest as [| nxt rest IH]; intros st line; simpl.
  - reflexivity.
  - destruct (isContinuation nxt); rewrite IH; reflexivity.
Qed.

Lemma parse_logical content :
  parse newDraft unescapeSummary unescapeDescription unescapeLocation
    parseDate content
  = parseLogical (logicalLines content).
Proof.
  unfold parse, parseLines, logicalLines, parseLogical, ICal.parseLogical.
  destruct (splitLines content) as [| l rest]; [reflexivity |].
  unfold unfoldLines. now rewrite scan_run.
Qed.

(** The events collected so far only grow, and nothing else depends on
    them. *)
Lemma processLine_events ev c i l :
  processLine (mkParserState ev c i) l
  = let st := processLine (mkParserState [] c i) l in
    mkParserState (ev ++ events st) (currentEvent st) (inEvent st).
Proof.
  unfold processLine, ICal.processLine. cbn [events currentEvent inEvent].
  destruct (String.eqb l "BEGIN:VEVENT"); cbn; [now rewrite app_nil_r |].
  destruct c as [ce |]; cbn; [| now rewrite app_nil_r].
  destruct (String.eqb l "END:VEVENT"); cbn.
  - destruct (complete ce); cbn; [reflexivity | now rewrite app_nil_r].
  - destruct i; cbn; now rewrite app_nil_r.
Qed.

Lemma run_events lines : forall ev c i,
  run (mkParserState ev c i) lines
  = let st := run (mkParserState [] c i) lines in
    mkParserState (ev ++ events st) (currentEvent st) (inEvent st).
Proof.
  induction lines as [| l lines IH]; intros ev c i.
  - cbn. now rewrite app_nil_r.
  - unfold run, ICal.run. cbn [fold_left]. fold processLine.
    rewrite (processLine_events ev c i l). cbv zeta.
    destruct (processLine (mkParserState [] c i) l) as [d c' i'].
    cbn [events currentEvent inEvent].
    change (fold_left processLine lines ?st) with (run st lines).
    rewrite (IH (ev ++ d)), (IH d). cbv zeta. cbn [events currentEvent inEvent].
    now rewrite app_assoc.
Qed.

Lemma run_app st a b : run st (a ++ b) = run (run st a) b.
Proof. apply fold_left_app. Qed.

Lemma run_begin st rest :
  run st ("BEGIN:VEVENT" :: rest)
  = run (mkParserState (events st) (Some newDraft) true) rest.
Proof. reflexivity. Qed.

(** Inside a block, lines other than the two markers only update the
    draft. *)
Lemma run_body body : forall ev ce,
  Forall bodyLine body ->
  run (mkParserState ev (Some ce) true) body
  = mkParserState ev
      (Some (fold_left (fun ce l => propertyLine l ce) body ce)) true.
Proof.
  induction body as [| l body IH]; intros ev ce Hb; [reflexivity |].
  inversion Hb as [| ? ? [Hnb Hne] Hb']; subst.
  unfold run, ICal.run. cbn [fold_left].
  unfold ICal.processLine at 2. cbn [currentEvent inEvent events].
  apply String.eqb_neq in Hnb, Hne. rewrite Hnb, Hne.
  apply IH. exact Hb'.
Qed.

Lemma run_end ev ce rest :
  run (mkParserState ev (Some ce) true) ("END:VEVENT" :: rest)
  = run (mkParserState (if complete ce then ev ++ [ce] else ev) None false)
      rest.
Proof. reflexivity. Qed.

(** After a marker the state no longer depends on what came before, apart
    from the events collected. *)
Lemma events_run_from ev c i lines :
  events (run (mkParserState ev c i) lines)
  = ev ++ events (run (mkParserState [] c i) lines).
Proof. rewrite run_events. reflexivity. Qed.

Lemma events_run_pre pre :
  exists c i, run initialState pre = mkParserState (parseLogical pre) c i.
Proof.
  unfold parseLogical, ICal.parseLogical. fold run.
  destruct (run initialState pre) as [ev c i]. now exists c, i.
Qed.

(** The events of a document around one of its blocks. *)
Lemma parseLogical_block pre body e :
  Forall bodyLine body ->
  parseLogical (pre ++ blockLines body e)
  = parseLogical pre ++
    match e with
    | ClosedBy post =>
        let ce := fold_left (fun ce l => propertyLine l ce) body newDraft in
        (if complete ce then [ce] else []) ++ parseLogical post
    | CutBy post => parseLogical ("BEGIN:VEVENT" :: post)
    | EndOfInput => []
    end.
Proof.
  intros Hb. unfold parseLogical at 1, ICal.parseLogical. fold run.
  rewrite run_app. destruct (events_run_pre pre) as (c & i & ->).
  unfold blockLines. rewrite run_begin. cbn [events].
  rewrite run_app, (run_body body _ _ Hb).
  destruct e as [post | post |].
  - rewrite run_end, events_run_from. cbv zeta.
    destruct (complete _); [now rewrite <- app_assoc | reflexivity].
  - rewrite run_begin, events_run_from. cbn [events]. reflexivity.
  - cbn. now rewrite app_nil_r.
Qed.

Lemma carried_snoc name body l :
  carried name (body ++ [l])
  = match propertyOf name l with
    | Some p => Some p
    | None => carried name body
    end.
Proof. unfold carried. rewrite fold_left_app. reflexivity. Qed.

Lemma title_propertyLine l ce :
  title (propertyLine l ce)
  = match propertyOf "SUMMARY" l with
    | Some (v, _) => Some (unescapeSummary v)
    | None => title ce
    end.
Proof.
  unfold propertyLine, ICal.propertyLine, propertyOf.
  destruct (indexOf l ":") as [i |]; [| reflexivity]. cbv zeta.
  unfold setProperty.
  destruct (String.eqb (hd EmptyString (split ";" (substring2 l 0 i)))
              "SUMMARY"); [reflexivity |].
  repeat match goal with
         | |- context [if String.eqb ?a ?b then _ else _] =>
             destruct (String.eqb a b)
         end; reflexivity.
Qed.

Lemma startDate_propertyLine l ce :
  startDate (propertyLine l ce)
  = match propertyOf "DTSTART" l with
    | Some (v, keyParts) => Some (parseDate v keyParts)
    | None => startDate ce
    end.
Proof.
  unfold propertyLine, ICal.propertyLine, propertyOf.
  destruct (indexOf l ":") as [i |]; [| reflexivity]. cbv zeta.
  unfold setProperty.
  destruct (String.eqb_spec (hd EmptyString (split ";" (substring2 l 0 i)))
              "DTSTART") as [-> | Hne]; [reflexivity |].
  repeat match goal with
         | |- context [if String.eqb ?a ?b then _ else _] =>
             destruct (String.eqb_spec a b)
         end; congruence || reflexivity.
Qed.

Lemma draft_title body : forall ce,
  title (fold_left (fun ce l => propertyLine l ce) body ce)
  = match carried "SUMMARY" body with
    | Some (v, _) => Some (unescapeSummary v)
    | None => title ce
    end.
Proof.
  induction body as [| l body IH] using rev_ind; intros ce; [reflexivity |].
  rewrite fold_left_app, carried_snoc. cbn [fold_left].
  rewrite title_propertyLine.
  destruct (propertyOf "SUMMARY" l) as [[v kp] |]; [reflexivity | apply IH].
Qed.

Lemma draft_startDate body : forall ce,
  startDate (fold_left (fun ce l => propertyLine l ce) body ce)
  = match carried "DTSTART" body with
    | Some (v, keyParts) => Some (parseDate v keyParts)
    | None => startDate ce
    end.
Proof.
  induction body as [| l body IH] using rev_ind; intros ce; [reflexivity |].
  rewrite fold_left_app, carried_snoc. cbn [fold_left].
  rewrite startDate_propertyLine.
  destruct (propertyOf "DTSTART" l) as [[v kp] |]; [reflexivity | apply IH].
Qed.

Hypothesis newDraft_title : title newDraft = None.
Hypothesis newDraft_startDate : startDate newDraft = None.
Hypothesis unescape_empty : unescapeSummary EmptyString = EmptyString.
Hypothesis unescape_nonempty :
  forall v, v <> EmptyString -> unescapeSummary v <> EmptyString.

(** What a block adds to the events of a document, by the properties it
    carries. *)
Lemma block_contribution content pre body e :
  logicalLines content = pre ++ blockLines body e ->
  Forall bodyLine body ->
  blockRule
    (parse newDraft unescapeSummary unescapeDescription unescapeLocation
       parseDate content)
    parseLogical unescapeSummary parseDate pre body e.
Proof.
  intros Hdoc Hb. unfold blockRule.
  rewrite parse_logical, Hdoc, (parseLogical_block pre body e Hb).
  destruct e as [post | post |]; [| reflexivity | now rewrite app_nil_r].
  cbv zeta.
  set (ce := fold_left (fun ce l => propertyLine l ce) body newDraft).
  assert (title ce = match carried "SUMMARY" body with
                     | Some (v, _) => Some (unescapeSummary v)
                     | None => None
                     end) as Ht
    by (subst ce; rewrite draft_title, newDraft_title; reflexivity).
  assert (startDate ce = match carried "DTSTART" body with
                         | Some (v, kp) => Some (parseDate v kp)
                         | None => None
                         end) as Hs
    by (subst ce; rewrite draft_startDate, newDraft_startDate; reflexivity).
  unfold complete. rewrite Ht, Hs.
  destruct (carried "SUMMARY" body) as [[[| c r] sp] |].
  - rewrite unescape_empty. reflexivity.
  - pose proof (unescape_nonempty (String c r) ltac:(discriminate)) as Hne.
    destruct (unescapeSummary (String c r)) as [| c' r'] eqn:E;
      [congruence |].
    destruct (carried "DTSTART" body) as [[dv dp] |]; [| reflexivity].
    cbn [truthy andb]. exists ce. rewrite Ht, Hs. repeat split.
  - destruct (carried "DTSTART" body) as [[dv dp] |]; reflexivity.
Qed.

End Generic.

Lemma replaceEscape_nonempty x r s :
  r <> EmptyString -> s <> EmptyString -> replaceEscape x r s <> EmptyString.
Proof.
  intros Hr Hs. destruct s as [| a s]; [congruence |].
  simpl. destruct (Ascii.eqb a BACKSLASH); [| discriminate].
  destruct s as [| b s]; [discriminate |].
  destruct (Ascii.eqb b x); [| discriminate].
  destruct r; [congruence | discriminate].
Qed.

Lemma unescapeValue_nonempty v :
  v <> EmptyString -> CalendarTab.unescapeValue v <> EmptyString.
Proof.
  intros Hv. unfold CalendarTab.unescapeValue.
  repeat (apply replaceEscape_nonempty; [discriminate |]). exact Hv.
Qed.

Lemma unescapeText_nonempty v :
  v <> EmptyString -> CalendarService.unescapeText v <> EmptyString.
Proof.
  intros Hv. unfold CalendarService.unescapeText.
  repeat (apply replaceEscape_nonempty; [discriminate |]). exact Hv.
Qed.

End ParserFacts.

Section ParserClaims.
Import JS ICal Reference ParserFacts.

(** C4.  Take any document and any BEGIN:VEVENT block among its logical lines:
    the lines [body] after the BEGIN:VEVENT up to the next marker or the end of
    the input.  If the block is closed by END:VEVENT and carries a non-empty
    SUMMARY and a DTSTART, the parser emits exactly one event for it, in
    place between the events of the lines before and after, with title and
    start date set; if SUMMARY is missing or empty or DTSTART is missing, it
    emits none; a block that is never closed, because the input ends or
    another BEGIN:VEVENT starts over, adds no event either.  This holds for
    [parseICalContent] and for the loop of [importICalEvents] in
    calendarService.ts. *)
Theorem block_emits_one_or_none (content : string)
    (subscriptionId color : option string) (pre body : list string)
    (e : BlockEnd) :
  logicalLines content = pre ++ blockLines body e ->
  Forall bodyLine body ->
  blockRule (CalendarTab.parseICalContent content subscriptionId color)
    (CalendarTab.parseICalLogical subscriptionId color)
    CalendarTab.unescapeValue CalendarTab.parseDate pre body e /\
  blockRule (CalendarService.parsedEvents content)
    CalendarService.parsedLogical
    CalendarService.unescapeText CalendarService.parseICalDate pre body e.
Proof.
  intros Hdoc Hb. split.
  - apply block_contribution; try assumption; try reflexivity.
    apply unescapeValue_nonempty.
  - apply block_contribution; try assumption; try reflexivity.
    apply unescapeText_nonempty.
Qed.

Lemma block_emits_one_or_none_witness :
  blockRule
    (CalendarTab.parseICalContent (exampleDocument (String LF EmptyString))
       None None)
    (CalendarTab.parseICalLogical None None)
    CalendarTab.unescapeValue CalendarTab.parseDate
    ["BEGIN:VCALENDAR"%string]
    ["SUMMARY:Midterm\, Calc III"%string;
     "DTSTART;VALUE=DATE:20250522"%string; "LOCATION:Main Hall A"%string]
    (ClosedBy ["END:VCALENDAR"%string]) /\
  blockRule
    (CalendarService.parsedEvents (exampleDocument (String LF EmptyString)))
    CalendarService.parsedLogical
    CalendarService.unescapeText CalendarService.parseICalDate
    ["BEGIN:VCALENDAR"%string]
    ["SUMMARY:Midterm\, Calc III"%string;
     "DTSTART;VALUE=DATE:20250522"%string; "LOCATION:Main Hall A"%string]
    (ClosedBy ["END:VCALENDAR"%string]).
Proof.
  apply (block_emits_one_or_none (exampleDocument (String LF EmptyString))
           None None).
  - vm_compute. reflexivity.
  - repeat constructor; discriminate.
Defined.

End ParserClaims.

(** ** The event store and the subscription sync *)

Module StoreFacts.
Import JS ICal CalendarTab Reference.

Lemma filter_neg_of_filter {A : Type} (f : A -> bool) (l : list A) :
  filter f (filter (fun x => negb (f x)) l) = [].
Proof.
  induction l as [| a l IH]; [reflexivity |].
  simpl. destruct (f a) eqn:E; simpl; [exact IH |]. now rewrite E.
Qed.

Lemma filter_all {A : Type} (f : A -> bool) (l : list A) :
  Forall (fun x => f x = true) l -> filter f l = l.
Proof.
  induction 1 as [| a l Ha _ IH]; [reflexivity |].
  simpl. now rewrite Ha, IH.
Qed.

Lemma filter_none {A : Type} (f : A -> bool) (l : list A) :
  Forall (fun x => f x = false) l -> filter f l = [].
Proof.
  induction 1 as [| a l Ha _ IH]; [reflexivity |]. cbn. now rewrite Ha.
Qed.

Lemma filter_idem {A : Type} (f : A -> bool) (l : list A) :
  filter f (filter f l) = filter f l.
Proof.
  induction l as [| a l IH]; [reflexivity |].
  cbn. destruct (f a) eqn:E; cbn; rewrite ?E, IH; reflexivity.
Qed.

Lemma filter_map_commute {A : Type} (f : A -> bool) (g : A -> A) (l : list A) :
  (forall x, f (g x) = f x) -> filter f (map g l) = map g (filter f l).
Proof.
  intros H. induction l as [| a l IH]; [reflexivity |].
  cbn. rewrite H. destruct (f a); cbn; now rewrite IH.
Qed.

Lemma map_fixed {A : Type} (g : A -> A) (l : list A) :
  Forall (fun x => g x = x) l -> map g l = l.
Proof.
  induction 1 as [| a l Ha _ IH]; [reflexivity |]. cbn. now rewrite Ha, IH.
Qed.

(** *** The round trip through JSON *)

Lemma reread_id z e : id (reread z e) = id e.
Proof. reflexivity. Qed.

Lemma linkedTo_reread z sid e : linkedTo sid (reread z e) = linkedTo sid e.
Proof. reflexivity. Qed.

Lemma reread_data z e : data (reread z e) = rereadData z (data e).
Proof. reflexivity. Qed.

Lemma reread_dated z e : dated (data (reread z e)).
Proof. discriminate. Qed.

Lemma hydrateEvent_dated j : dated (data (hydrateEvent j)).
Proof. discriminate. Qed.

(** An event that has a start date is read back the same from the second
    round trip on. *)
Lemma reread_idem z e : dated (data e) -> reread z (reread z e) = reread z e.
Proof.
  destruct e as [i [t de s en a ty c ci cn l u]]. unfold dated.
  cbn [data startDate]. intros Hs.
  destruct s as [s |]; [| congruence].
  unfold reread, stringifyEvent, hydrateEvent, stringifyDate.
  cbn [id data title description startDate endDate allDay type color courseId
       courseName location subscriptionUrl j_id j_title j_description
       j_startDate j_endDate j_allDay j_type j_color j_courseId j_courseName
       j_location j_subscriptionUrl].
  destruct (timeValue z s) as [tv |]; destruct en as [en |];
    try destruct (timeValue z en) as [te |]; reflexivity.
Qed.

Lemma reread_hydrated z j :
  j_startDate j <> DateAbsent -> reread z (hydrateEvent j) = hydrateEvent j.
Proof.
  destruct j as [i t de s en a ty c ci cn l u]. cbn [j_startDate]. intros Hs.
  unfold reread, stringifyEvent, hydrateEvent, stringifyDate.
  destruct s as [| | tv]; [congruence | |]; destruct en as [| | te];
    reflexivity.
Qed.

Lemma rereadSubscription_hydrated z j :
  rereadSubscription z (hydrateSubscription j) = hydrateSubscription j.
Proof.
  destruct j as [i n u c l e].
  unfold rereadSubscription, stringifySubscription, hydrateSubscription.
  cbn. destruct l; reflexivity.
Qed.

Lemma iter_reread_dated z n e :
  dated (data e) -> Nat.iter (S n) (reread z) e = reread z e.
Proof.
  intros He. induction n as [| n IH]; [reflexivity |].
  change (Nat.iter (S (S n)) (reread z) e)
    with (reread z (Nat.iter (S n) (reread z) e)).
  rewrite IH. now apply reread_idem.
Qed.

Lemma iter_reread_reread z n e :
  dated (data e) -> Nat.iter n (reread z) (reread z e) = reread z e.
Proof.
  intros He. rewrite <- Nat.iter_succ_r. now apply iter_reread_dated.
Qed.

Lemma map_iter_reread z n l :
  Forall (fun e => dated (data e)) l ->
  map (Nat.iter n (reread z)) (map (reread z) l) = map (reread z) l.
Proof.
  induction 1 as [| e l He _ IH]; [reflexivity |].
  cbn [map]. now rewrite iter_reread_reread, IH.
Qed.

(** *** What is read *)

Lemma readEvents_dated w : Forall (fun e => dated (data e)) (readEvents w).
Proof.
  unfold readEvents, getEvents. cbn [fst].
  induction (eventsItem w) as [| j l IH]; constructor;
    [apply hydrateEvent_dated | exact IH].
Qed.

Lemma readEvents_saved evs w :
  readEvents (snd (saveEvents evs w)) = map (reread (zone w)) evs.
Proof.
  unfold readEvents, getEvents, saveEvents. cbn [fst snd eventsItem].
  now rewrite map_map.
Qed.

Lemma readEvents_item z evs s i c n :
  readEvents (mkWorld (map (stringifyEvent z) evs) s i c n z)
  = map (reread z) evs.
Proof.
  unfold readEvents, getEvents. cbn [fst eventsItem]. now rewrite map_map.
Qed.

Lemma readSubscriptions_item z subs e i c n :
  readSubscriptions (mkWorld e (map (stringifySubscription z) subs) i c n z)
  = map (rereadSubscription z) subs.
Proof.
  unfold readSubscriptions, getSubscriptions. cbn [fst subscriptionsItem].
  now rewrite map_map.
Qed.

(** Saving what was read gives, on the next read, the same list again from
    the second time on; and the first time already when every stored event
    has its startDate key. *)
Lemma reread_read_twice w z :
  map (reread z) (map (reread z) (readEvents w)) = map (reread z) (readEvents w).
Proof.
  pose proof (readEvents_dated w) as H.
  induction H as [| e l He _ IH]; [reflexivity |].
  cbn [map]. now rewrite reread_idem, IH.
Qed.

Lemma reread_read_steady w z :
  steady w -> map (reread z) (readEvents w) = readEvents w.
Proof.
  unfold steady, readEvents, getEvents. cbn [fst].
  induction 1 as [| j l Hj _ IH]; [reflexivity |].
  cbn [map]. now rewrite reread_hydrated, IH.
Qed.

Lemma iter_read_steady w z n :
  steady w -> map (Nat.iter n (reread z)) (readEvents w) = readEvents w.
Proof.
  intros Hw. induction n as [| n IH].
  - apply map_fixed. apply Forall_forall. reflexivity.
  - rewrite <- (reread_read_steady w z Hw) at 2. rewrite <- IH at 2.
    rewrite map_map. reflexivity.
Qed.

Lemma rereadSubscription_read w z :
  map (rereadSubscription z) (readSubscriptions w) = readSubscriptions w.
Proof.
  unfold readSubscriptions, getSubscriptions. cbn [fst].
  induction (subscriptionsItem w) as [| j l IH]; [reflexivity |].
  cbn [map]. now rewrite rereadSubscription_hydrated, IH.
Qed.

(** A saved list of events that have a start date leaves the store steady. *)
Lemma steady_item z evs s i c n :
  Forall (fun e => dated (data e)) evs ->
  steady (mkWorld (map (stringifyEvent z) evs) s i c n z).
Proof.
  unfold steady. cbn [eventsItem]. induction 1 as [| e l He _ IH];
    constructor; [| exact IH].
  destruct e as [i0 [t de st en a ty c0 ci cn l0 u]]. unfold dated in He.
  cbn in He |- *. destruct st as [st |]; [| congruence].
  cbn. destruct (timeValue z st); discriminate.
Qed.

(** *** Adding events *)

(** [addEvent] reads the events, appends the draft under a fresh id and
    saves the list; it touches nothing but the events item and the id
    source. *)
Lemma addEvent_spec d w :
  addEvent d w
  = (mkCalendarEvent ("event_" ++ idSource w (idCount w)) d,
     mkWorld
       (map (stringifyEvent (zone w))
          (readEvents w
           ++ [mkCalendarEvent ("event_" ++ idSource w (idCount w)) d]))
       (subscriptionsItem w) (idSource w) (S (idCount w)) (now w) (zone w)).
Proof. reflexivity. Qed.

Lemma mapM_addEvent_cons d ds w :
  mapM addEvent (d :: ds) w
  = let '(e, w1) := addEvent d w in
    let '(ys, w2) := mapM addEvent ds w1 in
    (e :: ys, w2).
Proof.
  cbn [mapM]. unfold bind at 1. destruct (addEvent d w) as [e w1].
  unfold bind at 1. destruct (mapM addEvent ds w1) as [ys w2]. reflexivity.
Qed.

(** Adding a list of drafts: what is returned, and what stays. *)
Lemma mapM_addEvent_frame ds : forall w,
  let '(new, w') := mapM addEvent ds w in
  map data new = ds /\
  map id new = map (fun k => ("event_" ++ idSource w k)%string)
                 (seq (idCount w) (List.length ds)) /\
  subscriptionsItem w' = subscriptionsItem w /\
  idSource w' = idSource w /\
  idCount w' = (idCount w + List.length ds)%nat /\
  now w' = now w /\ zone w' = zone w.
Proof.
  induction ds as [| d ds IH]; intros w.
  - cbn. repeat split. lia.
  - rewrite mapM_addEvent_cons, addEvent_spec.
    specialize (IH (mkWorld
      (map (stringifyEvent (zone w))
         (readEvents w
          ++ [mkCalendarEvent ("event_" ++ idSource w (idCount w)) d]))
      (subscriptionsItem w) (idSource w) (S (idCount w)) (now w) (zone w))).
    destruct (mapM addEvent ds _) as [new w'].
    cbn [subscriptionsItem idSource idCount now zone] in IH.
    destruct IH as (Hd & Hi & Hs & Hsrc & Hc & Hn & Hz).
    cbn [map List.length seq data id]. repeat split; try assumption.
    + now rewrite Hd.
    + now rewrite Hi.
    + rewrite Hc. lia.
Qed.

(** Adding a list of drafts that have a start date: the events read
    afterwards are the earlier ones, gone through one more round trip for
    every draft, and then the new ones. *)
Lemma mapM_addEvent_read ds : forall w,
  Forall dated ds ->
  let '(new, w') := mapM addEvent ds w in
  readEvents w'
  = map (Nat.iter (List.length ds) (reread (zone w))) (readEvents w)
    ++ map (reread (zone w)) new.
Proof.
  induction ds as [| d ds IH]; intros w Hds.
  - cbn. rewrite app_nil_r. symmetry. apply map_fixed.
    apply Forall_forall. reflexivity.
  - inversion Hds as [| ? ? Hd Hds']; subst.
    rewrite mapM_addEvent_cons, addEvent_spec.
    set (e := mkCalendarEvent ("event_" ++ idSource w (idCount w)) d).
    specialize (IH (mkWorld
      (map (stringifyEvent (zone w)) (readEvents w ++ [e]))
      (subscriptionsItem w) (idSource w) (S (idCount w)) (now w) (zone w))
      Hds').
    destruct (mapM addEvent ds _) as [new w'].
    rewrite IH. cbn [zone]. rewrite readEvents_item, map_app, map_app.
    cbn [map List.length]. rewrite iter_reread_reread by exact Hd.
    rewrite map_map, <- app_assoc. cbn [app]. f_equal.
    apply map_ext. intros x. now rewrite Nat.iter_succ_r.
Qed.

(** *** Replacing the events of a subscription *)

Lemma replaceSubscriptionEvents_unfold sid ds w :
  replaceSubscriptionEvents sid ds w
  = mapM addEvent ds
      (mkWorld
         (map (stringifyEvent (zone w))
            (filter (fun e => negb (linkedTo sid e)) (readEvents w)))
         (subscriptionsItem w) (idSource w) (idCount w) (now w) (zone w)).
Proof. reflexivity. Qed.

Lemma replaceSubscriptionEvents_frame sid ds w :
  let '(new, w') := replaceSubscriptionEvents sid ds w in
  map data new = ds /\
  map id new = map (fun k => ("event_" ++ idSource w k)%string)
                 (seq (idCount w) (List.length ds)) /\
  subscriptionsItem w' = subscriptionsItem w /\
  idSource w' = idSource w /\
  idCount w' = (idCount w + List.length ds)%nat /\
  now w' = now w /\ zone w' = zone w.
Proof.
  rewrite replaceSubscriptionEvents_unfold.
  exact (mapM_addEvent_frame ds _).
Qed.

(** After a replacement with drafts that have a start date, the events read
    are the earlier ones that are not linked to the id, as one round trip
    leaves them, and then the new ones. *)
Lemma replaceSubscriptionEvents_read sid ds w :
  Forall dated ds ->
  let '(new, w') := replaceSubscriptionEvents sid ds w in
  readEvents w'
  = map (reread (zone w))
      (filter (fun e => negb (linkedTo sid e)) (readEvents w))
    ++ map (reread (zone w)) new.
Proof.
  intros Hds. rewrite replaceSubscriptionEvents_unfold.
  pose proof (mapM_addEvent_read ds
    (mkWorld
       (map (stringifyEvent (zone w))
          (filter (fun e => negb (linkedTo sid e)) (readEvents w)))
       (subscriptionsItem w) (idSource w) (idCount w) (now w) (zone w))
    Hds) as H.
  destruct (mapM addEvent ds _) as [new w'].
  rewrite H. cbn [zone]. rewrite readEvents_item. f_equal.
  apply map_iter_reread.
  apply Forall_forall. intros e He. apply filter_In in He as [He _].
  pose proof (readEvents_dated w) as Hall. rewrite Forall_forall in Hall.
  now apply Hall.
Qed.

Lemma linkedTo_iff sid e :
  linkedTo sid e = true <-> subscriptionUrl (data e) = Some sid.
Proof.
  unfold linkedTo. destruct (subscriptionUrl (data e)) as [u |].
  - rewrite String.eqb_eq. split; congruence.
  - split; discriminate.
Qed.

Lemma tagged_linked sid new :
  Forall (fun d => subscriptionUrl d = Some sid) (map data new) ->
  Forall (fun e => linkedTo sid e = true) new.
Proof.
  induction new as [| e new IH]; intros H; [constructor |].
  inversion H; subst. constructor; [now apply linkedTo_iff | auto].
Qed.

Lemma linkedTo_distinct sid sid' e :
  sid <> sid' -> linkedTo sid e = true -> linkedTo sid' e = false.
Proof.
  unfold linkedTo. destruct (subscriptionUrl (data e)) as [u |];
    [| discriminate].
  intros Hne Hu. apply String.eqb_eq in Hu. subst u.
  now apply String.eqb_neq.
Qed.

(** After a replacement with tagged drafts that have a start date, the
    events read that are linked to the id are the new ones, as read back. *)
Lemma linked_after_replace sid ds w :
  Forall (fun d => subscriptionUrl d = Some sid) ds ->
  Forall dated ds ->
  let '(new, w') := replaceSubscriptionEvents sid ds w in
  filter (linkedTo sid) (readEvents w') = map (reread (zone w)) new /\
  filter (fun e => negb (linkedTo sid e)) (readEvents w')
  = map (reread (zone w))
      (filter (fun e => negb (linkedTo sid e)) (readEvents w)) /\
  map data new = ds.
Proof.
  intros Htag Hds.
  pose proof (replaceSubscriptionEvents_read sid ds w Hds) as H.
  pose proof (replaceSubscriptionEvents_frame sid ds w) as F.
  destruct (replaceSubscriptionEvents sid ds w) as [new w'].
  destruct F as (Hd & _).
  assert (Forall (fun e => linkedTo sid e = true) new) as Hl
    by (apply tagged_linked; now rewrite Hd).
  rewrite H, !filter_app.
  rewrite !(filter_map_commute _ (reread (zone w)))
    by (intros x; now rewrite linkedTo_reread).
  rewrite filter_neg_of_filter, filter_idem. cbn [map app].
  rewrite (filter_all _ new Hl).
  rewrite (filter_none (fun e => negb (linkedTo sid e)) new)
    by (eapply Forall_impl; [| exact Hl]; intros e He; cbn; now rewrite He).
  cbn [map]. rewrite app_nil_r. repeat split. exact Hd.
Qed.


(** Every draft of [parseICalContent] carries the subscription id it was
    called with. *)
Section Tagged.

Variables (sid color : option string).

Let processLine :=
  processLine (newDraft sid color) unescapeValue unescapeValue unescapeValue
    parseDate.

Lemma propertyLine_tag l ce :
  subscriptionUrl
    (propertyLine unescapeValue unescapeValue unescapeValue parseDate l ce)
  = subscriptionUrl ce.
Proof.
  unfold propertyLine. destruct (indexOf l ":"); [| reflexivity].
  cbv zeta. unfold setProperty.
  repeat match goal with
         | |- context [if String.eqb ?a ?b then _ else _] =>
             destruct (String.eqb a b)
         end; reflexivity.
Qed.

Lemma processLine_tagged st l : taggedState sid st -> taggedState sid (processLine st l).
Proof.
  intros [Hev Hce]. unfold processLine, ICal.processLine.
  destruct (String.eqb l "BEGIN:VEVENT"); [split; [exact Hev | reflexivity] |].
  destruct (currentEvent st) as [ce |] eqn:E; [| split; [exact Hev | now rewrite E]].
  destruct (String.eqb l "END:VEVENT").
  - split; [| exact I]. cbn [events].
    destruct (complete ce); [| exact Hev].
    apply Forall_app. split; [exact Hev | repeat constructor; exact Hce].
  - destruct (inEvent st); [| split; [exact Hev | now rewrite E]].
    split; [exact Hev |]. cbn [currentEvent]. now rewrite propertyLine_tag.
Qed.

Lemma run_tagged lines : forall st,
  taggedState sid st -> taggedState sid (fold_left processLine lines st).
Proof.
  induction lines as [| l lines IH]; intros st H; [exact H |].
  cbn [fold_left]. apply IH, processLine_tagged, H.
Qed.

Lemma parseICalContent_tagged content :
  Forall (fun d => subscriptionUrl d = sid) (parseICalContent content sid color).
Proof.
  unfold parseICalContent. rewrite ParserFacts.parse_logical.
  unfold parseLogical, run. apply run_tagged.
  split; [constructor | exact I].
Qed.

End Tagged.

End StoreFacts.

Section StoreClaims.
Import JS ICal CalendarTab Reference StoreFacts.




(** C6.  When the fetch is rejected, the response is not ok, its text cannot
    be read, or the text does not contain BEGIN:VCALENDAR, [syncSubscription]
    throws and leaves everything it could write unchanged: the stored events,
    the stored subscriptions, the id source. *)
Theorem sync_failure_changes_nothing (fetched : FetchOutcome)
    (sub : CalendarSubscription) (w : World) :
  match fetched with
  | FetchRejected _ => True
  | FetchResponse ok _ text =>
      ok = false \/
      match text with
      | Thrown _ => True
      | Returned content => includes content "BEGIN:VCALENDAR" = false
      end
  end ->
  exists err, syncSubscription fetched sub w = (Thrown err, w).
Proof.
  intros H. destruct fetched as [err | ok status text]; cbn.
  - now exists err.
  - destruct ok; cbn.
    + destruct H as [H | H]; [discriminate |].
      destruct text as [content | err]; [| now exists err].
      rewrite H. cbn. now eexists.
    + now eexists.
Qed.

Lemma sync_failure_witness :
  exists err,
    syncSubscription
      (FetchResponse true "200" (Returned "<html>not a calendar</html>"%string))
      (mkCalendarSubscription "sub_1" "Timetable" "https://example.org/t.ics"
         "#8b5cf6" None true)
      (mkWorld
         [mkStoredEvent "event_0" (Some "kept"%string) None (DateText 0)
            DateAbsent None subscription None None None None
            (Some "sub_1"%string)]
         [] (fun _ => "x"%string) 0 0%Z berlin2025)
    = (Thrown err,
       mkWorld
         [mkStoredEvent "event_0" (Some "kept"%string) None (DateText 0)
            DateAbsent None subscription None None None None
            (Some "sub_1"%string)]
         [] (fun _ => "x"%string) 0 0%Z berlin2025).
Proof.
  apply (sync_failure_changes_nothing
           (FetchResponse true "200"
              (Returned "<html>not a calendar</html>"%string))).
  right. vm_compute. reflexivity.
Defined.


End StoreClaims.

(** ** Reading the stored events *)

Section StorageClaims.
Import JS EventStorage.

Lemma mapO_hydrate_null (newDate : option JSValue -> Outcome Date) items :
  In JNull items -> exists err, mapO (hydrate newDate) items = Thrown err.
Proof.
  induction items as [| it items IH]; intros Hin; [destruct Hin |].
  cbn [mapO]. destruct (hydrate newDate it) as [h | err] eqn:E.
  - destruct Hin as [-> | Hin]; [discriminate E |].
    destruct (IH Hin) as [err ->]. now exists err.
  - now exists err.
Qed.

(** C10.  Whatever [localStorage] holds under the events key, [getEvents]
    returns and does not throw; it returns the empty list when the item is
    absent, when it is the empty text, and when [JSON.parse] rejects the
    text.  (It also returns the empty list when the text is JSON but not an
    array, or an array with a null element.) *)
Theorem getEvents_never_throws (JSON_parse : string -> Outcome JSValue)
    (newDate : option JSValue -> Outcome Date) (stored : option string) :
  (exists evs, getEvents JSON_parse newDate stored = Returned evs) /\
  getEvents JSON_parse newDate None = Returned [] /\
  getEvents JSON_parse newDate (Some EmptyString) = Returned [] /\
  (forall text err,
      JSON_parse text = Thrown err ->
      getEvents JSON_parse newDate (Some text) = Returned []) /\
  (forall text v,
      JSON_parse text = Returned v ->
      (forall items, v = JArray items -> In JNull items) ->
      getEvents JSON_parse newDate (Some text) = Returned []).
Proof.
  split; [| split; [reflexivity | split; [reflexivity | split]]].
  - unfold getEvents, tryCatch.
    destruct (match stored with
              | None => Returned []
              | Some EmptyString => Returned []
              | Some text => bindO (JSON_parse text) (callMap newDate)
              end) as [evs | err]; eexists; reflexivity.
  - intros text err H. unfold getEvents.
    destruct text; [reflexivity |]. rewrite H. reflexivity.
  - intros text v H Hshape. unfold getEvents.
    destruct text; [reflexivity |]. rewrite H. cbn [bindO].
    destruct v as [| b | q | s | items | members]; try reflexivity.
    specialize (Hshape items eq_refl). unfold callMap.
    destruct (mapO_hydrate_null newDate items Hshape) as [err ->].
    reflexivity.
Qed.

Lemma getEvents_never_throws_witness :
  getEvents (fun _ => Thrown SyntaxError)
    (fun _ => Returned (DateOfTime None)) (Some "{not json"%string)
  = Returned [].
Proof.
  destruct (getEvents_never_throws (fun _ => Thrown SyntaxError)
              (fun _ => Returned (DateOfTime None)) None)
    as (_ & _ & _ & Hreject & _).
  apply (Hreject "{not json"%string SyntaxError). reflexivity.
Defined.

End StorageClaims.


(** * Further properties of the parser, the store and the sync *)

(** ** The events of a document, field by field *)

Module BlockFacts.
Import JS ICal Reference ParserFacts.

Section Generic.

Variable newDraft : EventFormData.
Variables unescapeSummary unescapeDescription unescapeLocation : string -> string.
Variable parseDate : string -> list string -> Date.

Let processLine :=
  processLine newDraft unescapeSummary unescapeDescription unescapeLocation
    parseDate.
Let propertyLine :=
  propertyLine unescapeSummary unescapeDescription unescapeLocation parseDate.
Let run :=
  run newDraft unescapeSummary unescapeDescription unescapeLocation parseDate.
Let parseLogical :=
  parseLogical newDraft unescapeSummary unescapeDescription unescapeLocation
    parseDate.

Ltac property_cases :=
  unfold propertyLine, ICal.propertyLine, propertyOf;
  destruct (indexOf _ ":") as [i |]; [| reflexivity]; cbv zeta;
  unfold setProperty;
  repeat match goal with
         | |- context [String.eqb ?a ?b] => destruct (String.eqb_spec a b)
         end; congruence || reflexivity.

Lemma description_propertyLine l ce :
  description (propertyLine l ce)
  = match propertyOf "DESCRIPTION" l with
    | Some (v, _) => Some (unescapeDescription v)
    | None => description ce
    end.
Proof. property_cases. Qed.

Lemma location_propertyLine l ce :
  location (propertyLine l ce)
  = match propertyOf "LOCATION" l with
    | Some (v, _) => Some (unescapeLocation v)
    | None => location ce
    end.
Proof. property_cases. Qed.

Lemma endDate_propertyLine l ce :
  endDate (propertyLine l ce)
  = match propertyOf "DTEND" l with
    | Some (v, keyParts) => Some (parseDate v keyParts)
    | None => endDate ce
    end.
Proof. property_cases. Qed.

Lemma allDay_propertyLine l ce :
  allDay (propertyLine l ce)
  = match propertyOf "DTSTART" l with
    | Some (_, keyParts) => Some (isDateOnly keyParts)
    | None => allDay ce
    end.
Proof. property_cases. Qed.

Lemma untouched_propertyLine l ce :
  type (propertyLine l ce) = type ce /\
  color (propertyLine l ce) = color ce /\
  courseId (propertyLine l ce) = courseId ce /\
  courseName (propertyLine l ce) = courseName ce /\
  subscriptionUrl (propertyLine l ce) = subscriptionUrl ce.
Proof.
  unfold propertyLine, ICal.propertyLine.
  destruct (indexOf l ":") as [i |]; [| repeat split]. cbv zeta.
  unfold setProperty.
  repeat match goal with
         | |- context [String.eqb ?a ?b] => destruct (String.eqb a b)
         end; repeat split.
Qed.

(** A field written from the property [name] holds, after a block body, what
    the last line of that property gave. *)
Lemma draft_field {A : Type} (field : EventFormData -> option A)
    (name : string) (f : string -> list string -> A) :
  (forall l ce, field (propertyLine l ce)
                = match propertyOf name l with
                  | Some (v, keyParts) => Some (f v keyParts)
                  | None => field ce
                  end) ->
  forall body ce,
    field (fold_left (fun ce l => propertyLine l ce) body ce)
    = match carriedValue f name body with
      | Some x => Some x
      | None => field ce
      end.
Proof.
  intros Hstep body. unfold carriedValue.
  induction body as [| l body IH] using rev_ind; intros ce; [reflexivity |].
  rewrite fold_left_app, carried_snoc. cbn [fold_left]. rewrite Hstep.
  destruct (propertyOf name l) as [[v kp] |]; [reflexivity | apply IH].
Qed.

Lemma draft_untouched body : forall ce,
  let ce' := fold_left (fun ce l => propertyLine l ce) body ce in
  type ce' = type ce /\ color ce' = color ce /\ courseId ce' = courseId ce /\
  courseName ce' = courseName ce /\ subscriptionUrl ce' = subscriptionUrl ce.
Proof.
  induction body as [| l body IH]; intros ce; [cbn; repeat split |].
  cbn [fold_left]. cbv zeta.
  destruct (IH (propertyLine l ce)) as (H1 & H2 & H3 & H4 & H5).
  destruct (untouched_propertyLine l ce) as (U1 & U2 & U3 & U4 & U5).
  rewrite H1, H2, H3, H4, H5. repeat split; assumption.
Qed.

Hypothesis newDraft_empty :
  title newDraft = None /\ description newDraft = None /\
  location newDraft = None /\ startDate newDraft = None /\
  endDate newDraft = None /\ allDay newDraft = None.

(** The draft of a block, by the properties the block carries. *)
Lemma block_draft body :
  blockEvent newDraft unescapeSummary unescapeDescription unescapeLocation
    parseDate body (fold_left (fun ce l => propertyLine l ce) body newDraft).
Proof.
  destruct newDraft_empty as (Nt & Nd & Nl & Ns & Ne & Na).
  destruct (draft_untouched body newDraft) as (U1 & U2 & U3 & U4 & U5).
  unfold blockEvent.
  rewrite (draft_field title "SUMMARY" (fun v _ => unescapeSummary v));
    [| intros l ce; unfold propertyLine; rewrite title_propertyLine;
       destruct (propertyOf "SUMMARY" l) as [[v kp] |]; reflexivity].
  rewrite (draft_field description "DESCRIPTION"
             (fun v _ => unescapeDescription v));
    [| intros l ce; rewrite description_propertyLine;
       destruct (propertyOf "DESCRIPTION" l) as [[v kp] |]; reflexivity].
  rewrite (draft_field location "LOCATION" (fun v _ => unescapeLocation v));
    [| intros l ce; rewrite location_propertyLine;
       destruct (propertyOf "LOCATION" l) as [[v kp] |]; reflexivity].
  rewrite (draft_field startDate "DTSTART" parseDate);
    [| intros l ce; unfold propertyLine; rewrite startDate_propertyLine;
       reflexivity].
  rewrite (draft_field endDate "DTEND" parseDate);
    [| intros l ce; rewrite endDate_propertyLine; reflexivity].
  rewrite (draft_field allDay "DTSTART" (fun _ kp => isDateOnly kp));
    [| intros l ce; rewrite allDay_propertyLine;
       destruct (propertyOf "DTSTART" l) as [[v kp] |]; reflexivity].
  rewrite Nt, Nd, Nl, Ns, Ne, Na.
  repeat split; try assumption;
    match goal with |- context [carriedValue ?f ?n ?b] =>
      destruct (carriedValue f n b); reflexivity end.
Qed.

Lemma closed_block content pre body post :
  logicalLines content = pre ++ blockLines body (ClosedBy post) ->
  Forall bodyLine body ->
  exists ev,
    blockEvent newDraft unescapeSummary unescapeDescription unescapeLocation
      parseDate body ev /\
    parse newDraft unescapeSummary unescapeDescription unescapeLocation
      parseDate content
    = parseLogical pre ++ (if complete ev then [ev] else [])
      ++ parseLogical post.
Proof.
  intros Hdoc Hb.
  exists (fold_left (fun ce l => propertyLine l ce) body newDraft).
  split; [apply block_draft |].
  rewrite parse_logical, Hdoc.
  apply (parseLogical_block newDraft unescapeSummary unescapeDescription
           unescapeLocation parseDate pre body (ClosedBy post) Hb).
Qed.

(** *** What holds of every event of a document *)

Lemma propertyLine_shape l ce :
  draftShape newDraft ce -> draftShape newDraft (propertyLine l ce).
Proof.
  intros (H1 & H2 & H3 & H4 & H5 & H6).
  destruct (untouched_propertyLine l ce) as (U1 & U2 & U3 & U4 & U5).
  unfold draftShape. rewrite U1, U2, U3, U4, U5.
  repeat split; try assumption.
  rewrite allDay_propertyLine. unfold propertyLine.
  rewrite startDate_propertyLine.
  destruct (propertyOf "DTSTART" l) as [[v kp] |]; [discriminate | exact H6].
Qed.

Lemma newDraft_shape : draftShape newDraft newDraft.
Proof.
  destruct newDraft_empty as (_ & _ & _ & Ns & _ & _).
  unfold draftShape. repeat split. intros H. congruence.
Qed.

Lemma processLine_shaped st l :
  shapedState newDraft st -> shapedState newDraft (processLine st l).
Proof.
  intros [Hev Hce]. unfold processLine, ICal.processLine.
  destruct (String.eqb l "BEGIN:VEVENT");
    [split; [exact Hev | apply newDraft_shape] |].
  destruct (currentEvent st) as [ce |] eqn:E;
    [| split; [exact Hev | now rewrite E]].
  destruct (String.eqb l "END:VEVENT").
  - split; [| exact I]. cbn [events].
    destruct (complete ce) eqn:C; [| exact Hev].
    apply Forall_app. split; [exact Hev |].
    constructor; [split; assumption | constructor].
  - destruct (inEvent st); [| split; [exact Hev | now rewrite E]].
    split; [exact Hev |]. cbn [currentEvent]. now apply propertyLine_shape.
Qed.

Lemma parse_shaped content :
  Forall (fun d => complete d = true /\ draftShape newDraft d)
    (parse newDraft unescapeSummary unescapeDescription unescapeLocation
       parseDate content).
Proof.
  rewrite parse_logical. unfold ICal.parseLogical, ICal.run.
  assert (forall lines st, shapedState newDraft st ->
            shapedState newDraft (fold_left processLine lines st)) as Hrun.
  { induction lines as [| l lines IH]; intros st H; [exact H |].
    cbn [fold_left]. apply IH, processLine_shaped, H. }
  apply Hrun. split; [constructor | exact I].
Qed.

(** *** How many events a document can give *)

Lemma processLine_count_end st l :
  (List.length (events (processLine st l))
   <= List.length (events st)
      + (if String.eqb "END:VEVENT" l then 1 else 0))%nat.
Proof.
  unfold processLine, ICal.processLine.
  destruct (String.eqb l "BEGIN:VEVENT"); [cbn [events]; lia |].
  destruct (currentEvent st) as [ce |]; [| lia].
  rewrite (String.eqb_sym "END:VEVENT" l).
  destruct (String.eqb l "END:VEVENT").
  - cbn [events]. destruct (complete ce); [| lia].
    rewrite length_app. cbn. lia.
  - destruct (inEvent st); cbn [events]; lia.
Qed.

Lemma processLine_count_begin st l :
  (pendingCount (processLine st l)
   <= pendingCount st + (if String.eqb "BEGIN:VEVENT" l then 1 else 0))%nat.
Proof.
  unfold processLine, ICal.processLine, pendingCount.
  rewrite (String.eqb_sym "BEGIN:VEVENT" l).
  destruct (String.eqb l "BEGIN:VEVENT");
    [cbn [events currentEvent]; destruct (currentEvent st); lia |].
  destruct (currentEvent st) as [ce |] eqn:E; [| rewrite E; lia].
  destruct (String.eqb l "END:VEVENT").
  - cbn [events currentEvent]. destruct (complete ce); [| lia].
    rewrite length_app. cbn. lia.
  - destruct (inEvent st); cbn [events currentEvent]; [lia | rewrite E; lia].
Qed.

Lemma run_count lines : forall st,
  (List.length (events (fold_left processLine lines st))
   <= List.length (events st) + countLine "END:VEVENT" lines)%nat /\
  (pendingCount (fold_left processLine lines st)
   <= pendingCount st + countLine "BEGIN:VEVENT" lines)%nat.
Proof.
  unfold countLine.
  induction lines as [| l lines IH]; intros st; [cbn; lia |].
  cbn [fold_left filter].
  destruct (IH (processLine st l)) as [He Hb].
  pose proof (processLine_count_end st l) as He1.
  pose proof (processLine_count_begin st l) as Hb1.
  destruct (String.eqb "END:VEVENT" l), (String.eqb "BEGIN:VEVENT" l);
    cbn [List.length]; lia.
Qed.

Lemma parse_count content :
  let n := List.length
             (parse newDraft unescapeSummary unescapeDescription unescapeLocation
                parseDate content) in
  (n <= countLine "BEGIN:VEVENT" (logicalLines content))%nat /\
  (n <= countLine "END:VEVENT" (logicalLines content))%nat.
Proof.
  cbv zeta. rewrite parse_logical. unfold ICal.parseLogical, ICal.run.
  destruct (run_count (logicalLines content) initialState) as [He Hb].
  unfold pendingCount in Hb. cbn [initialState events currentEvent] in He, Hb.
  fold processLine. split; [| exact He].
  cbn [List.length] in Hb. lia.
Qed.

End Generic.

End BlockFacts.

Section ParserProperties.
Import JS ICal Reference ParserFacts BlockFacts.

(** X14.  The event of a closed block, field by field.  For a block
    BEGIN:VEVENT, body, END:VEVENT among the logical lines of a document,
    the parser builds one draft: its title, description, location, start and
    end date come from the last SUMMARY, DESCRIPTION, LOCATION, DTSTART and
    DTEND line of the body (unescaped, decoded) and are unset where the body
    has no such line; its all-day flag tells whether the last DTSTART line
    has the parameter VALUE=DATE; type, colour and subscription link are
    those the block started with.  The document's events are those of the
    lines before, this draft if it is complete, and those of the lines after.
    This holds for [parseICalContent] and for the loop of calendarService.ts. *)
Theorem closed_block_event (content : string)
    (subscriptionId color : option string) (pre body post : list string) :
  logicalLines content = pre ++ blockLines body (ClosedBy post) ->
  Forall bodyLine body ->
  (exists ev,
     blockEvent (CalendarTab.newDraft subscriptionId color)
       CalendarTab.unescapeValue CalendarTab.unescapeValue
       CalendarTab.unescapeValue CalendarTab.parseDate body ev /\
     CalendarTab.parseICalContent content subscriptionId color
     = CalendarTab.parseICalLogical subscriptionId color pre
       ++ (if complete ev then [ev] else [])
       ++ CalendarTab.parseICalLogical subscriptionId color post) /\
  (exists ev,
     blockEvent CalendarService.newDraft
       CalendarService.unescapeText CalendarService.unescapeText
       CalendarService.unescapeLocation CalendarService.parseICalDate body ev /\
     CalendarService.parsedEvents content
     = CalendarService.parsedLogical pre
       ++ (if complete ev then [ev] else [])
       ++ CalendarService.parsedLogical post).
Proof.
  intros Hdoc Hb. split.
  - apply closed_block; try assumption. repeat split.
  - apply closed_block; try assumption. repeat split.
Qed.

Lemma closed_block_event_witness :
  exists ev,
    blockEvent (CalendarTab.newDraft None None)
      CalendarTab.unescapeValue CalendarTab.unescapeValue
      CalendarTab.unescapeValue CalendarTab.parseDate
      ["SUMMARY:Midterm\, Calc III"%string;
       "DTSTART;VALUE=DATE:20250522"%string; "LOCATION:Main Hall A"%string]
      ev /\
    CalendarTab.parseICalContent (exampleDocument (String LF EmptyString))
      None None
    = CalendarTab.parseICalLogical None None ["BEGIN:VCALENDAR"%string]
      ++ (if complete ev then [ev] else [])
      ++ CalendarTab.parseICalLogical None None ["END:VCALENDAR"%string].
Proof.
  refine (proj1 (closed_block_event (exampleDocument (String LF EmptyString))
                   None None ["BEGIN:VCALENDAR"%string]
                   ["SUMMARY:Midterm\, Calc III"%string;
                    "DTSTART;VALUE=DATE:20250522"%string;
                    "LOCATION:Main Hall A"%string]
                   ["END:VCALENDAR"%string] _ _)).
  - vm_compute. reflexivity.
  - repeat constructor; discriminate.
Defined.

(** X15.  Every event [parseICalContent] returns has a non-empty title, a
    start date and an all-day flag; its type is subscription when a
    non-empty subscription id was given and imported otherwise, its colour is
    the colour given, or #6366f1 when none or the empty one was given, it
    carries the subscription id, and it has no course.  Every event of the
    loop of calendarService.ts has a non-empty title, a start date, an
    all-day flag, the type imported and the colour #6366f1. *)
Theorem parsed_events_shape (content : string)
    (subscriptionId color : option string) :
  Forall (fun d =>
            truthy (title d) = true /\ startDate d <> None /\
            allDay d <> None /\
            type d = (if truthy subscriptionId then subscription else imported) /\
            ICal.color d = (if truthy color then color else Some "#6366f1"%string) /\
            subscriptionUrl d = subscriptionId /\
            courseId d = None /\ courseName d = None)
    (CalendarTab.parseICalContent content subscriptionId color) /\
  Forall (fun d =>
            truthy (title d) = true /\ startDate d <> None /\
            allDay d <> None /\ type d = imported /\
            ICal.color d = Some "#6366f1"%string /\ subscriptionUrl d = None)
    (CalendarService.parsedEvents content).
Proof.
  split.
  - eapply Forall_impl;
      [| apply (parse_shaped (CalendarTab.newDraft subscriptionId color));
         repeat split].
    intros d [Hc (H1 & H2 & H3 & H4 & H5 & H6)].
    unfold complete in Hc. apply andb_prop in Hc as [Ht Hs].
    assert (startDate d <> None) as Hs'
      by (destruct (startDate d); [discriminate | discriminate Hs]).
    repeat split; auto.
  - eapply Forall_impl;
      [| apply (parse_shaped CalendarService.newDraft); repeat split].
    intros d [Hc (H1 & H2 & H3 & H4 & H5 & H6)].
    unfold complete in Hc. apply andb_prop in Hc as [Ht Hs].
    assert (startDate d <> None) as Hs'
      by (destruct (startDate d); [discriminate | discriminate Hs]).
    repeat split; auto.
Qed.

(** X16.  [getEventColor] never gives the empty text: it is the event's own
    colour when that is set and not empty, and the colour of the event's type
    otherwise.  For an event stored from a draft of [parseICalContent] it is
    the colour the parser was called with, or #6366f1 when that was absent or
    empty. *)
Theorem getEventColor_of_parsed :
  (forall e, CalendarTab.getEventColor e <> EmptyString) /\
  (forall content subscriptionId color eid d,
     In d (CalendarTab.parseICalContent content subscriptionId color) ->
     CalendarTab.getEventColor (CalendarTab.mkCalendarEvent eid d)
     = match color with
       | Some (String a c) => String a c
       | _ => "#6366f1"%string
       end).
Proof.
  split.
  - intros e. unfold CalendarTab.getEventColor.
    destruct (ICal.color (CalendarTab.data e)) as [[| a c] |]; cbn [truthy];
      try discriminate; destruct (type (CalendarTab.data e)); discriminate.
  - intros content sid color eid d Hin.
    pose proof (parse_shaped (CalendarTab.newDraft sid color)
                  CalendarTab.unescapeValue CalendarTab.unescapeValue
                  CalendarTab.unescapeValue CalendarTab.parseDate
                  ltac:(repeat split) content) as Hall.
    rewrite Forall_forall in Hall.
    destruct (Hall d Hin) as [_ (_ & Hcol & _)].
    unfold CalendarTab.getEventColor. cbn [CalendarTab.data]. rewrite Hcol.
    cbn [CalendarTab.newDraft ICal.color].
    destruct color as [[| a c] |]; reflexivity.
Qed.

(** X17.  A document gives at most as many events as it has BEGIN:VEVENT
    logical lines, and at most as many as it has END:VEVENT logical lines;
    so a document without one of the two markers gives none. *)
Theorem parsed_events_bounded (content : string)
    (subscriptionId color : option string) :
  let n := List.length
             (CalendarTab.parseICalContent content subscriptionId color) in
  let m := List.length (CalendarService.parsedEvents content) in
  (n <= countLine "BEGIN:VEVENT" (logicalLines content))%nat /\
  (n <= countLine "END:VEVENT" (logicalLines content))%nat /\
  (m <= countLine "BEGIN:VEVENT" (logicalLines content))%nat /\
  (m <= countLine "END:VEVENT" (logicalLines content))%nat.
Proof.
  cbv zeta.
  destruct (parse_count (CalendarTab.newDraft subscriptionId color)
              CalendarTab.unescapeValue CalendarTab.unescapeValue
              CalendarTab.unescapeValue CalendarTab.parseDate content)
    as [H1 H2].
  destruct (parse_count CalendarService.newDraft
              CalendarService.unescapeText CalendarService.unescapeText
              CalendarService.unescapeLocation CalendarService.parseICalDate
              content) as [H3 H4].
  repeat split; assumption.
Qed.

End ParserProperties.


(** ** Editing, deleting and importing stored events *)

Module EditFacts.
Import JS ICal CalendarTab Reference StoreFacts.

Lemma updateFirst_absent eid p evs :
  Forall (fun e => id e <> eid) evs -> updateFirst eid p evs = None.
Proof.
  induction 1 as [| e evs He _ IH]; [reflexivity |].
  cbn [updateFirst]. apply String.eqb_neq in He. now rewrite He, IH.
Qed.

Lemma updateFirst_found eid p before e after :
  Forall (fun x => id x <> eid) before -> id e = eid ->
  updateFirst eid p (before ++ e :: after)
  = Some (before ++ mkCalendarEvent eid (applyPatch p (data e)) :: after).
Proof.
  intros Hb He. induction Hb as [| x before Hx _ IH].
  - cbn [app updateFirst]. rewrite He, String.eqb_refl. reflexivity.
  - cbn [app updateFirst]. apply String.eqb_neq in Hx. now rewrite Hx, IH.
Qed.

Lemma updateFirst_ids eid p evs evs' :
  updateFirst eid p evs = Some evs' -> map id evs' = map id evs.
Proof.
  revert evs'. induction evs as [| e evs IH]; intros evs' H; [discriminate H |].
  cbn [updateFirst] in H. destruct (String.eqb (id e) eid).
  - injection H as <-. reflexivity.
  - destruct (updateFirst eid p evs) as [r |]; [| discriminate H].
    injection H as <-. cbn [map]. now rewrite (IH r eq_refl).
Qed.

(** An id is found in a list when, and where, its first holder is. *)
Lemma first_holder eid (evs : list CalendarEvent) :
  Forall (fun e => id e <> eid) evs \/
  exists before e after,
    evs = before ++ e :: after /\ id e = eid /\
    Forall (fun x => id x <> eid) before.
Proof.
  induction evs as [| e evs [IH | (before & x & after & -> & Hx & Hb)]].
  - left. constructor.
  - destruct (String.eqb_spec (id e) eid) as [He | He].
    + right. exists [], e, evs. repeat split; [exact He | constructor].
    + left. constructor; assumption.
  - destruct (String.eqb_spec (id e) eid) as [He | He].
    + right. exists [], e, (before ++ x :: after).
      repeat split; [exact He | constructor].
    + right. exists (e :: before), x, after.
      repeat split; [exact Hx | constructor; assumption].
Qed.

Lemma applyPatch_empty d : applyPatch emptyPatch d = d.
Proof. destruct d. reflexivity. Qed.

Lemma world_eta w :
  mkWorld (eventsItem w) (subscriptionsItem w) (idSource w) (idCount w)
    (now w) (zone w) = w.
Proof. destruct w. reflexivity. Qed.

Lemma keep_others_all eid (evs : list CalendarEvent) :
  Forall (fun e => id e <> eid) evs ->
  filter (fun e => negb (String.eqb (id e) eid)) evs = evs.
Proof.
  intros H. apply filter_all. eapply Forall_impl; [| exact H].
  intros e He. cbn. now apply negb_true_iff, String.eqb_neq.
Qed.

(** The drafts of the parsers have a start date. *)
Lemma parseICalContent_dated content sid color :
  Forall dated (parseICalContent content sid color).
Proof.
  eapply Forall_impl;
    [| apply (BlockFacts.parse_shaped (newDraft sid color)); repeat split].
  intros d [Hc _]. unfold complete in Hc. apply andb_prop in Hc as [_ Hs].
  unfold dated. destruct (startDate d); [discriminate | discriminate Hs].
Qed.

Lemma parsedEvents_dated content :
  Forall dated (CalendarService.parsedEvents content).
Proof.
  eapply Forall_impl;
    [| apply (BlockFacts.parse_shaped CalendarService.newDraft);
       repeat split].
  intros d [Hc _]. unfold complete in Hc. apply andb_prop in Hc as [_ Hs].
  unfold dated. destruct (startDate d); [discriminate | discriminate Hs].
Qed.

Lemma dated_events ds (new : list CalendarEvent) :
  map data new = ds -> Forall dated ds ->
  Forall (fun e => dated (data e)) new.
Proof.
  intros <- H. induction new as [| e new IH]; [constructor |].
  inversion H; subst. constructor; auto.
Qed.

(** What adding a list of drafts that have a start date does. *)
Lemma mapM_addEvent_spec ds w :
  Forall dated ds ->
  let '(new, w') := mapM addEvent ds w in
  readEvents w'
  = map (Nat.iter (List.length new) (reread (zone w))) (readEvents w)
    ++ map (reread (zone w)) new /\
  (steady w -> readEvents w' = readEvents w ++ map (reread (zone w)) new) /\
  map data new = ds /\
  map id new = map (fun k => ("event_" ++ idSource w k)%string)
                 (seq (idCount w) (List.length new)) /\
  subscriptionsItem w' = subscriptionsItem w /\
  zone w' = zone w.
Proof.
  intros Hds.
  pose proof (mapM_addEvent_read ds w Hds) as R.
  pose proof (mapM_addEvent_frame ds w) as F.
  destruct (mapM addEvent ds w) as [new w'].
  destruct F as (Hd & Hi & Hs & _ & _ & _ & Hz).
  assert (List.length new = List.length ds) as Hl
    by (rewrite <- Hd; now rewrite length_map).
  rewrite Hl. repeat split; try assumption.
  intros Hw. rewrite R. now rewrite iter_read_steady.
Qed.

(** One update after another, on the data of the event found. *)
Lemma startDate_twice z (q p : option (option Date)) (s : option Date) :
  p <> Some None -> s <> None ->
  Some (newDateOfStored
          (stringifyDate z
             (override q
                (Some (newDateOfStored (stringifyDate z (override p s)))))))
  = Some (newDateOfStored (stringifyDate z (override (orKey q p) s))).
Proof.
  intros Hp Hs. destruct q as [q |]; [reflexivity |].
  destruct p as [[p |] |]; [| congruence |];
    cbn [override orKey stringifyDate].
  - destruct (timeValue z p); reflexivity.
  - destruct s as [s |]; [| congruence]. cbn [stringifyDate].
    destruct (timeValue z s); reflexivity.
Qed.

Lemma endDate_twice z (q p : option (option Date)) (e : option Date) :
  optionalDateOfStored
    (stringifyDate z
       (override q (optionalDateOfStored (stringifyDate z (override p e)))))
  = optionalDateOfStored (stringifyDate z (override (orKey q p) e)).
Proof.
  destruct q as [q |]; [reflexivity |].
  cbn [override orKey].
  destruct (override p e) as [d |]; [| reflexivity].
  cbn [stringifyDate]. destruct (timeValue z d); reflexivity.
Qed.

Lemma override_twice {A : Type} (q p : option A) (x : A) :
  override q (override p x) = override (orKey q p) x.
Proof. destruct q; reflexivity. Qed.

Lemma patch_twice z eid q p d :
  p_startDate p <> Some None -> dated d ->
  reread z (mkCalendarEvent eid
              (applyPatch q
                 (data (reread z (mkCalendarEvent eid (applyPatch p d))))))
  = reread z (mkCalendarEvent eid (applyPatch (composePatch q p) d)).
Proof.
  intros Hp Hd. unfold dated in Hd.
  unfold reread, stringifyEvent, hydrateEvent, applyPatch, composePatch.
  cbn [id data title description startDate endDate allDay type color courseId
       courseName location subscriptionUrl j_id j_title j_description
       j_startDate j_endDate j_allDay j_type j_color j_courseId j_courseName
       j_location j_subscriptionUrl p_title p_description p_startDate
       p_endDate p_allDay p_type p_color p_courseId p_courseName p_location
       p_subscriptionUrl].
  rewrite !override_twice, endDate_twice.
  rewrite (startDate_twice z (p_startDate q) (p_startDate p) (startDate d) Hp Hd).
  reflexivity.
Qed.

End EditFacts.

Section EditProperties.
Import JS ICal CalendarTab Reference StoreFacts EditFacts.

(** X1.  Importing a document only appends.  The events read from the store
    afterwards are the earlier ones, each gone through one more JSON round
    trip per imported event, followed by one new event per parsed draft, in
    order, as JSON gives it back, under the ids "event_" + the next suffixes
    of the id source; when every stored event has its startDate key the
    earlier events are read exactly as before.  The subscriptions are not
    touched.  The same holds for [importICalEvents] of calendarService.ts
    with its own parser. *)
Theorem import_appends (content : string) (w : World) :
  (let '(new, w') := importICalEvents content w in
   readEvents w'
   = map (Nat.iter (List.length new) (reread (zone w))) (readEvents w)
     ++ map (reread (zone w)) new /\
   (steady w -> readEvents w' = readEvents w ++ map (reread (zone w)) new) /\
   map data new = parseICalContent content None None /\
   map id new = map (fun k => ("event_" ++ idSource w k)%string)
                  (seq (idCount w) (List.length new)) /\
   subscriptionsItem w' = subscriptionsItem w) /\
  (let '(new, w') := CalendarService.importICalEvents content w in
   readEvents w'
   = map (Nat.iter (List.length new) (reread (zone w))) (readEvents w)
     ++ map (reread (zone w)) new /\
   (steady w -> readEvents w' = readEvents w ++ map (reread (zone w)) new) /\
   map data new = CalendarService.parsedEvents content /\
   map id new = map (fun k => ("event_" ++ idSource w k)%string)
                  (seq (idCount w) (List.length new)) /\
   subscriptionsItem w' = subscriptionsItem w).
Proof.
  split.
  - unfold importICalEvents.
    pose proof (mapM_addEvent_spec _ w (parseICalContent_dated content None None))
      as H.
    destruct (mapM addEvent _ w) as [new w'].
    destruct H as (H1 & H2 & H3 & H4 & H5 & _). repeat split; assumption.
  - unfold CalendarService.importICalEvents.
    pose proof (mapM_addEvent_spec _ w (parsedEvents_dated content)) as H.
    destruct (mapM addEvent _ w) as [new w'].
    destruct H as (H1 & H2 & H3 & H4 & H5 & _). repeat split; assumption.
Qed.

(** X2.  Nothing is deduplicated: after importing the same document twice
    the events read from the store hold every parsed draft twice, the second
    batch after the first, behind the earlier events. *)
Theorem import_twice_duplicates (content : string) (w : World) :
  let '(new1, w1) := importICalEvents content w in
  let '(new2, w2) := importICalEvents content w1 in
  readEvents w2
  = map (Nat.iter (List.length new2 + List.length new1) (reread (zone w)))
      (readEvents w)
    ++ map (reread (zone w)) new1 ++ map (reread (zone w)) new2 /\
  (steady w ->
   readEvents w2
   = readEvents w ++ map (reread (zone w)) new1 ++ map (reread (zone w)) new2) /\
  map data new1 = parseICalContent content None None /\
  map data new2 = parseICalContent content None None.
Proof.
  unfold importICalEvents.
  pose proof (parseICalContent_dated content None None) as Hds.
  pose proof (mapM_addEvent_spec _ w Hds) as H1.
  destruct (mapM addEvent _ w) as [new1 w1].
  pose proof (mapM_addEvent_spec _ w1 Hds) as H2.
  destruct (mapM addEvent _ w1) as [new2 w2].
  destruct H1 as (R1 & _ & D1 & _ & _ & Z1).
  destruct H2 as (R2 & _ & D2 & _ & _ & _).
  rewrite Z1 in R2.
  assert (readEvents w2
          = map (Nat.iter (List.length new2 + List.length new1)
                   (reread (zone w))) (readEvents w)
            ++ map (reread (zone w)) new1 ++ map (reread (zone w)) new2) as R.
  { rewrite R2, R1, map_app, map_map, <- app_assoc. f_equal.
    - apply map_ext. intros e. now rewrite Nat.iter_add.
    - f_equal. apply map_iter_reread. exact (dated_events _ _ D1 Hds). }
  repeat split; try assumption.
  intros Hw. rewrite R. now rewrite iter_read_steady.
Qed.

(** X3.  [updateEventInStorage] changes the first event it reads that has
    the id, and only it: in the list it saves that event has the keys of the
    patch over its own fields and keeps its id and place; the ids and the
    order of all events stay as they were.  When no event read has the id,
    nothing at all is written. *)
Theorem updateEventInStorage_first_match (eid : string) (p : EventPatch)
    (w : World) :
  let w' := snd (updateEventInStorage eid p w) in
  map id (readEvents w') = map id (readEvents w) /\
  subscriptionsItem w' = subscriptionsItem w /\
  (Forall (fun e => id e <> eid) (readEvents w) -> w' = w) /\
  (forall before e after,
      readEvents w = before ++ e :: after -> id e = eid ->
      Forall (fun x => id x <> eid) before ->
      eventsItem w'
      = map (stringifyEvent (zone w))
          (before ++ mkCalendarEvent eid (applyPatch p (data e)) :: after)).
Proof.
  unfold updateEventInStorage, bind. cbv zeta.
  change (getEvents w) with (readEvents w, w). cbv iota.
  split; [| split; [| split]].
  - destruct (updateFirst eid p (readEvents w)) as [evs' |] eqn:E;
      [| reflexivity].
    rewrite readEvents_saved, map_map.
    rewrite <- (updateFirst_ids eid p _ _ E). reflexivity.
  - destruct (updateFirst eid p (readEvents w)); reflexivity.
  - intros Ha. now rewrite (updateFirst_absent eid p _ Ha).
  - intros before e after Hs He Hb.
    rewrite Hs, (updateFirst_found eid p before e after Hb He). reflexivity.
Qed.

(** X4.  Updates of one event compose: after updating with [p] and then with
    [q], the events read from the store are those read after one update with
    the keys of [q] over those of [p], as long as [p] does not set the start
    date to undefined.  After an update with a patch without keys the events
    read are those read before, when every stored event has its startDate
    key. *)
Theorem updateEventInStorage_composes (eid : string) (p q : EventPatch)
    (w : World) :
  p_startDate p <> Some None ->
  readEvents
    (snd (updateEventInStorage eid q (snd (updateEventInStorage eid p w))))
  = readEvents (snd (updateEventInStorage eid (composePatch q p) w)) /\
  (steady w ->
   readEvents (snd (updateEventInStorage eid emptyPatch w)) = readEvents w).
Proof.
  intros Hp.
  assert (forall r v, snd (updateEventInStorage eid r v)
                      = match updateFirst eid r (readEvents v) with
                        | Some evs' => snd (saveEvents evs' v)
                        | None => v
                        end) as Hu.
  { intros r v. unfold updateEventInStorage, bind.
    change (getEvents v) with (readEvents v, v). cbv iota.
    destruct (updateFirst eid r (readEvents v)); reflexivity. }
  pose proof (readEvents_dated w) as Hdated.
  destruct (first_holder eid (readEvents w))
    as [Ha | (before & e & after & Hs & He & Hb)].
  - rewrite !Hu, !(updateFirst_absent eid _ _ Ha). cbv iota.
    rewrite ?(updateFirst_absent eid _ _ Ha). split; reflexivity.
  - rewrite Hs in Hdated. apply Forall_app in Hdated as [Hdb Hda].
    apply Forall_cons_iff in Hda as [Hde Hdaft].
    split.
    + rewrite (Hu (composePatch q p) w), (Hu p w), Hs.
      rewrite !(updateFirst_found eid _ before e after Hb He).
      rewrite Hu, !readEvents_saved.
      rewrite map_app. cbn [map].
      rewrite (updateFirst_found eid q (map (reread (zone w)) before)
                 (reread (zone w)
                    (mkCalendarEvent eid (applyPatch p (data e))))
                 (map (reread (zone w)) after));
        [| apply Forall_forall; intros x Hx;
           apply in_map_iff in Hx as (y & <- & Hy);
           rewrite Forall_forall in Hb; exact (Hb y Hy)
         | reflexivity].
      rewrite readEvents_saved. cbn [zone saveEvents snd].
      rewrite !map_app. cbn [map].
      rewrite (patch_twice (zone w) eid q p (data e) Hp Hde).
      f_equal; [| f_equal].
      * rewrite map_map. apply map_ext_in. intros x Hx.
        rewrite Forall_forall in Hdb. now apply reread_idem, Hdb.
      * rewrite map_map. apply map_ext_in. intros x Hx.
        rewrite Forall_forall in Hdaft. now apply reread_idem, Hdaft.
    + intros Hw. rewrite Hu, Hs.
      rewrite (updateFirst_found eid _ before e after Hb He).
      rewrite applyPatch_empty, readEvents_saved.
      rewrite <- He. replace (mkCalendarEvent (id e) (data e)) with e
        by (destruct e; reflexivity).
      rewrite <- Hs. now apply reread_read_steady.
Qed.

Lemma updateEventInStorage_composes_witness :
  let title_only (t : string) :=
    mkEventPatch (Some (Some t)) None None None None None None None None None
      None in
  let w := mkWorld
             [mkStoredEvent "event_a" (Some "Lecture"%string) None
                (DateText 1749978000000) DateAbsent (Some false) personal
                None None None None None]
             [] (fun _ => "b"%string) 0 0%Z berlin2025 in
  readEvents
    (snd (updateEventInStorage "event_a" (title_only "Seminar")
            (snd (updateEventInStorage "event_a" (title_only "Tutorial") w))))
  = readEvents
      (snd (updateEventInStorage "event_a"
              (composePatch (title_only "Seminar") (title_only "Tutorial")) w)).
Proof.
  cbv zeta.
  refine (proj1 (updateEventInStorage_composes "event_a"
    (mkEventPatch (Some (Some "Tutorial"%string)) None None None None None None
       None None None None)
    (mkEventPatch (Some (Some "Seminar"%string)) None None None None None None
       None None None None)
    (mkWorld
       [mkStoredEvent "event_a" (Some "Lecture"%string) None
          (DateText 1749978000000) DateAbsent (Some false) personal
          None None None None None]
       [] (fun _ => "b"%string) 0 0%Z berlin2025) _)).
  discriminate.
Defined.

(** X5.  [deleteEventFromStorage] removes every event with the id (all of
    them, should several share it) and no other: the list it saves holds the
    events it read that have another id, in their order, and is the list it
    read when no event has the id.  After deleting again the same events are
    read; and after deleting an id no event has, the events read are those
    read before, when every stored event has its startDate key. *)
Theorem deleteEventFromStorage_removes (eid : string) (w : World) :
  let w' := snd (deleteEventFromStorage eid w) in
  let saved := filter (fun e => negb (String.eqb (id e) eid)) (readEvents w) in
  eventsItem w' = map (stringifyEvent (zone w)) saved /\
  (forall e, In e saved <-> In e (readEvents w) /\ id e <> eid) /\
  readEvents (snd (deleteEventFromStorage eid w')) = readEvents w' /\
  (Forall (fun e => id e <> eid) (readEvents w) -> saved = readEvents w) /\
  (steady w -> Forall (fun e => id e <> eid) (readEvents w) ->
   readEvents w' = readEvents w).
Proof.
  cbv zeta.
  set (keep := fun e : CalendarEvent => negb (String.eqb (id e) eid)).
  assert (forall v, snd (deleteEventFromStorage eid v)
                    = snd (saveEvents (filter keep (readEvents v)) v)) as Hdel
    by reflexivity.
  assert (forall v, readEvents (snd (deleteEventFromStorage eid v))
                    = map (reread (zone v)) (filter keep (readEvents v))) as Hread
    by (intros v; now rewrite Hdel, readEvents_saved).
  split; [reflexivity |]. split; [| split; [| split]].
  - intros e. unfold keep.
    rewrite filter_In, negb_true_iff, String.eqb_neq. reflexivity.
  - rewrite (Hread (snd (deleteEventFromStorage eid w))), Hread.
    change (zone (snd (deleteEventFromStorage eid w))) with (zone w).
    rewrite (filter_map_commute keep (reread (zone w))) by reflexivity.
    rewrite filter_idem, map_map. apply map_ext_in. intros x Hx.
    apply reread_idem. apply filter_In in Hx as [Hx _].
    pose proof (readEvents_dated w) as Hall. rewrite Forall_forall in Hall.
    now apply Hall.
  - intros Ha. now apply keep_others_all.
  - intros Hw Ha. rewrite Hread. unfold keep. rewrite (keep_others_all eid _ Ha).
    now apply reread_read_steady.
Qed.

(** X6.  [deleteEvent] of calendarService.ts returns true exactly when some
    event it reads has the id; it then leaves the store as
    [deleteEventFromStorage] does, and otherwise writes nothing. *)
Theorem deleteEvent_reports (eid : string) (w : World) :
  (fst (CalendarService.deleteEvent eid w) = true <->
   exists e, In e (readEvents w) /\ id e = eid) /\
  (fst (CalendarService.deleteEvent eid w) = true ->
   snd (CalendarService.deleteEvent eid w)
   = snd (deleteEventFromStorage eid w)) /\
  (fst (CalendarService.deleteEvent eid w) = false ->
   snd (CalendarService.deleteEvent eid w) = w).
Proof.
  unfold CalendarService.deleteEvent. cbv zeta.
  change (fst (getEvents w)) with (readEvents w).
  set (f := fun e => negb (String.eqb (id e) eid)).
  assert (forall l : list CalendarEvent,
             (List.length (filter f l) <= List.length l)%nat) as Hle
    by (intros l; apply filter_length_le).
  assert (forall l : list CalendarEvent,
             List.length (filter f l) = List.length l ->
             Forall (fun e => f e = true) l) as Hall.
  { induction l as [| a l IH]; intros Hl; [constructor |].
    cbn in Hl. destruct (f a) eqn:E.
    - cbn in Hl. constructor; [exact E | apply IH; lia].
    - specialize (Hle l). lia. }
  destruct (Nat.eqb_spec (List.length (filter f (readEvents w)))
              (List.length (readEvents w))) as [Hl | Hl].
  - pose proof (Hall _ Hl) as Hf. cbn [fst snd].
    split; [| split; [discriminate | reflexivity]].
    split; [discriminate |]. intros (e & Hin & He).
    rewrite Forall_forall in Hf. specialize (Hf e Hin). unfold f in Hf.
    apply negb_true_iff, String.eqb_neq in Hf. contradiction.
  - cbn [fst snd]. split; [| split; [reflexivity | discriminate]].
    split; [| reflexivity]. intros _.
    destruct (first_holder eid (readEvents w))
      as [Ha | (before & e & after & Hs & He & _)].
    + exfalso. apply Hl. f_equal. now apply keep_others_all.
    + exists e. split; [| exact He]. rewrite Hs. apply in_elt.
Qed.

(** X7.  Adding an event and deleting it by the id it was given leaves the
    events that were read before, each as one JSON round trip gives it back,
    provided the id the source hands out is not already the id of a stored
    event; when every stored event has its startDate key, the events read
    afterwards are exactly those read before. *)
Theorem add_then_delete (d : EventFormData) (w : World) :
  Forall (fun e => id e <> ("event_" ++ idSource w (idCount w))%string)
    (readEvents w) ->
  let '(e, w1) := addEvent d w in
  let w2 := snd (deleteEventFromStorage (id e) w1) in
  readEvents w2 = map (reread (zone w)) (readEvents w) /\
  (steady w -> readEvents w2 = readEvents w).
Proof.
  intros Hfresh. rewrite addEvent_spec. cbv zeta. cbn [id].
  set (eid := ("event_" ++ idSource w (idCount w))%string) in *.
  set (w1 := mkWorld _ _ _ _ _ _).
  assert (readEvents (snd (deleteEventFromStorage eid w1))
          = map (reread (zone w)) (readEvents w)) as H.
  { change (snd (deleteEventFromStorage eid w1))
      with (snd (saveEvents
                   (filter (fun e => negb (String.eqb (id e) eid))
                      (readEvents w1)) w1)).
    rewrite readEvents_saved. subst w1. cbn [zone].
    rewrite readEvents_item, map_app, filter_app. cbn [map filter id reread].
    change (id (reread (zone w) (mkCalendarEvent eid d))) with eid.
    rewrite String.eqb_refl. cbn [negb]. rewrite app_nil_r.
    rewrite keep_others_all.
    - apply reread_read_twice.
    - apply Forall_forall. intros x Hx.
      apply in_map_iff in Hx as (y & <- & Hy).
      rewrite Forall_forall in Hfresh. exact (Hfresh y Hy). }
  split; [exact H |]. intros Hw. rewrite H. now apply reread_read_steady.
Qed.

Lemma add_then_delete_witness :
  let w := mkWorld
             [mkStoredEvent "event_a" (Some "Lecture"%string) None
                (DateText 1749978000000) DateAbsent (Some false) personal
                None None None None None]
             [] (fun _ => "b"%string) 0 0%Z berlin2025 in
  let '(e, w1) := addEvent CalendarService.newDraft w in
  readEvents (snd (deleteEventFromStorage (id e) w1)) = readEvents w.
Proof.
  cbv zeta.
  pose proof (add_then_delete CalendarService.newDraft
           (mkWorld
              [mkStoredEvent "event_a" (Some "Lecture"%string) None
                 (DateText 1749978000000) DateAbsent (Some false) personal
                 None None None None None]
              [] (fun _ => "b"%string) 0 0%Z berlin2025)
           ltac:(repeat constructor; cbn; discriminate)) as H.
  destruct (addEvent _ _) as [e w1]. destruct H as [_ H].
  apply H. repeat constructor. discriminate.
Defined.

End EditProperties.

(** ** Subscriptions: sync, sync of all, deletion *)

Module SyncFacts.
Import JS ICal CalendarTab Reference StoreFacts EditFacts.

(** A fetch that gives no document makes the sync throw and change nothing. *)
Lemma sync_without_document fetched sub w :
  fetchedDocument fetched = None ->
  exists err, syncSubscription fetched sub w = (Thrown err, w).
Proof.
  intros H. destruct fetched as [err | ok status text]; [now exists err |].
  cbn in H |- *. destruct ok; cbn; [| now eexists].
  destruct text as [content | err]; [| now exists err].
  destruct (includes content "BEGIN:VCALENDAR"); [discriminate H |].
  cbn. now eexists.
Qed.

Lemma fetchedDocument_Some fetched content :
  fetchedDocument fetched = Some content ->
  exists status,
    fetched = FetchResponse true status (Returned content) /\
    includes content "BEGIN:VCALENDAR" = true.
Proof.
  destruct fetched as [err | [] status [c | err]]; try discriminate.
  cbn. destruct (includes c "BEGIN:VCALENDAR") eqn:E; [| discriminate].
  intros H. injection H as ->. now exists status.
Qed.

(** The world after a sync that got a document. *)
Lemma sync_with_document fetched content sub w :
  fetchedDocument fetched = Some content ->
  let '(new, w1) :=
    replaceSubscriptionEvents (sub_id sub)
      (parseICalContent content (Some (sub_id sub)) (Some (sub_color sub))) w in
  syncSubscription fetched sub w
  = (Returned new,
     mkWorld (eventsItem w1)
       (match stampFirst (sub_id sub) (DateOfTime (Some (now w1)))
                (readSubscriptions w1) with
        | Some subs' => map (stringifySubscription (zone w1)) subs'
        | None => subscriptionsItem w1
        end) (idSource w1) (idCount w1) (now w1) (zone w1)).
Proof.
  intros H. destruct (fetchedDocument_Some _ _ H) as (status & -> & Hm).
  unfold syncSubscription. cbn [negb]. rewrite Hm. cbn [negb].
  unfold bind at 1.
  destruct (replaceSubscriptionEvents _ _ w) as [new w1].
  unfold bind, currentDate, ret.
  change (getSubscriptions w1) with (readSubscriptions w1, w1). cbv iota.
  destruct (stampFirst _ _ _); cbn; [reflexivity |].
  now rewrite world_eta.
Qed.

(** What a sync leaves of the world: the events read afterwards, the zone,
    the clock. *)
Lemma sync_read fetched sub w :
  let w' := snd (syncSubscription fetched sub w) in
  zone w' = zone w /\ now w' = now w /\
  match fetchedDocument fetched with
  | Some content =>
      exists new,
        map data new
        = parseICalContent content (Some (sub_id sub)) (Some (sub_color sub)) /\
        readEvents w'
        = map (reread (zone w))
            (filter (fun e => negb (linkedTo (sub_id sub) e)) (readEvents w))
          ++ map (reread (zone w)) new /\
        filter (linkedTo (sub_id sub)) (readEvents w')
        = map (reread (zone w)) new /\
        filter (fun e => negb (linkedTo (sub_id sub) e)) (readEvents w')
        = map (reread (zone w))
            (filter (fun e => negb (linkedTo (sub_id sub) e)) (readEvents w))
  | None => w' = w
  end.
Proof.
  cbv zeta. destruct (fetchedDocument fetched) as [content |] eqn:E.
  - pose proof (sync_with_document fetched content sub w E) as H.
    pose proof (replaceSubscriptionEvents_frame (sub_id sub)
                  (parseICalContent content (Some (sub_id sub))
                     (Some (sub_color sub))) w) as F.
    pose proof (replaceSubscriptionEvents_read (sub_id sub) _ w
                  (parseICalContent_dated content (Some (sub_id sub))
                     (Some (sub_color sub)))) as R.
    pose proof (linked_after_replace (sub_id sub) _ w
                  (parseICalContent_tagged (Some (sub_id sub))
                     (Some (sub_color sub)) content)
                  (parseICalContent_dated content (Some (sub_id sub))
                     (Some (sub_color sub)))) as L.
    destruct (replaceSubscriptionEvents _ _ w) as [new w1].
    rewrite H. cbn [snd zone now].
    destruct F as (Hd & _ & _ & _ & _ & Hn & Hz).
    destruct L as (L1 & L2 & _).
    split; [exact Hz |]. split; [exact Hn |].
    exists new. split; [exact Hd |].
    change (readEvents (mkWorld (eventsItem w1) ?s ?i ?c ?n ?z))
      with (readEvents w1).
    repeat split; assumption.
  - destruct (sync_without_document fetched sub w E) as [err ->].
    repeat split.
Qed.

Lemma mapM_addEvent_steady ds : forall w,
  Forall dated ds -> steady w -> steady (snd (mapM addEvent ds w)).
Proof.
  induction ds as [| d ds IH]; intros w Hds Hw; [exact Hw |].
  inversion Hds as [| ? ? Hd Hds']; subst.
  rewrite mapM_addEvent_cons, addEvent_spec.
  match goal with |- context [mapM addEvent ds ?v] =>
    specialize (IH v Hds'); destruct (mapM addEvent ds v) as [ys w2] end.
  cbn [snd] in *. apply IH. apply steady_item.
  apply Forall_app. split; [apply readEvents_dated |].
  constructor; [exact Hd | constructor].
Qed.

(** A store in which every event has its startDate key stays so through a
    sync. *)
Lemma sync_steady fetched sub w :
  steady w -> steady (snd (syncSubscription fetched sub w)).
Proof.
  intros Hw. destruct (fetchedDocument fetched) as [content |] eqn:E.
  - pose proof (sync_with_document fetched content sub w E) as H.
    pose proof (mapM_addEvent_steady
                  (parseICalContent content (Some (sub_id sub))
                     (Some (sub_color sub)))
                  (mkWorld
                     (map (stringifyEvent (zone w))
                        (filter (fun e => negb (linkedTo (sub_id sub) e))
                           (readEvents w)))
                     (subscriptionsItem w) (idSource w) (idCount w) (now w)
                     (zone w))
                  (parseICalContent_dated content _ _)) as S.
    rewrite replaceSubscriptionEvents_unfold in H.
    destruct (mapM addEvent _ _) as [new w1]. rewrite H. cbn [snd] in *.
    unfold steady in *. cbn [eventsItem]. apply S.
    apply steady_item. apply Forall_forall. intros e He.
    apply filter_In in He as [He _].
    pose proof (readEvents_dated w) as Hall. rewrite Forall_forall in Hall.
    now apply Hall.
  - destruct (sync_without_document fetched sub w E) as [err ->]. exact Hw.
Qed.

(** A selection of events not linked to the subscription, across a sync of
    a store in which every event has its startDate key. *)
Lemma sync_keeps_others fetched sub w (P : CalendarEvent -> bool) :
  steady w ->
  (forall e, P e = true -> linkedTo (sub_id sub) e = false) ->
  filter P (readEvents (snd (syncSubscription fetched sub w)))
  = filter P (readEvents w).
Proof.
  intros Hw HP.
  destruct (sync_read fetched sub w) as (_ & _ & H).
  destruct (fetchedDocument fetched) as [content |]; [| now rewrite H].
  destruct H as (new & Hd & Hr & Hl & Hn).
  assert (forall l : list CalendarEvent,
            filter P l
            = filter P (filter (fun e => negb (linkedTo (sub_id sub) e)) l))
    as Hsplit.
  { induction l as [| e l IH]; [reflexivity |].
    cbn [filter]. destruct (P e) eqn:Pe.
    - rewrite (HP e Pe). cbn [negb filter]. rewrite Pe. now rewrite <- IH.
    - destruct (negb (linkedTo (sub_id sub) e)); cbn [filter]; rewrite ?Pe;
        exact IH. }
  rewrite (Hsplit (readEvents (snd _))), Hn.
  rewrite <- (filter_map_commute _ (reread (zone w)))
    by (intros x; now rewrite linkedTo_reread).
  rewrite (reread_read_steady w (zone w) Hw). now rewrite <- Hsplit.
Qed.

(** The events linked to the subscription after a sync. *)
Lemma sync_linked fetched sub w :
  match fetchedDocument fetched with
  | Some content =>
      map data (filter (linkedTo (sub_id sub))
                  (readEvents (snd (syncSubscription fetched sub w))))
      = map (rereadData (zone w))
          (parseICalContent content (Some (sub_id sub)) (Some (sub_color sub)))
  | None =>
      filter (linkedTo (sub_id sub))
        (readEvents (snd (syncSubscription fetched sub w)))
      = filter (linkedTo (sub_id sub)) (readEvents w)
  end.
Proof.
  destruct (sync_read fetched sub w) as (_ & _ & H).
  destruct (fetchedDocument fetched) as [content |]; [| now rewrite H].
  destruct H as (new & Hd & _ & Hl & _).
  rewrite Hl, map_map, <- Hd, map_map. apply map_ext. intros e.
  apply reread_data.
Qed.

Lemma stampFirst_absent sid d subs :
  Forall (fun s => sub_id s <> sid) subs -> stampFirst sid d subs = None.
Proof.
  induction 1 as [| s subs Hs _ IH]; [reflexivity |].
  cbn [stampFirst]. apply String.eqb_neq in Hs. now rewrite Hs, IH.
Qed.

Lemma stampFirst_found sid d before s after :
  Forall (fun x => sub_id x <> sid) before -> sub_id s = sid ->
  stampFirst sid d (before ++ s :: after)
  = Some (before ++ stamped d s :: after).
Proof.
  intros Hb Hs. induction Hb as [| x before Hx _ IH].
  - cbn [app stampFirst]. apply String.eqb_eq in Hs. rewrite Hs. reflexivity.
  - cbn [app stampFirst]. apply String.eqb_neq in Hx. now rewrite Hx, IH.
Qed.

(** The subscriptions read from the store are read back as they are. *)
Lemma readSubscriptions_fixed w z :
  Forall (fun s => rereadSubscription z s = s) (readSubscriptions w).
Proof.
  unfold readSubscriptions, getSubscriptions. cbn [fst].
  induction (subscriptionsItem w) as [| j l IH]; constructor;
    [apply rereadSubscription_hydrated | exact IH].
Qed.

Lemma rereadSubscription_stamped z tv s :
  rereadSubscription z s = s ->
  rereadSubscription z (stamped (DateOfTime (Some tv)) s)
  = stamped (DateOfTime (Some tv)) s.
Proof. intros _. destruct s. reflexivity. Qed.

Lemma syncAll_cons sub fetched jobs w :
  snd (syncAll ((sub, fetched) :: jobs) w)
  = snd (syncAll jobs
           (if enabled sub then snd (syncSubscription fetched sub w) else w)).
Proof.
  cbn [syncAll]. unfold bind at 1. destruct (enabled sub).
  - unfold bind at 1. destruct (syncSubscription fetched sub w) as [r w1].
    reflexivity.
  - reflexivity.
Qed.

Lemma syncAll_step_steady sub fetched w :
  steady w ->
  steady (if enabled sub then snd (syncSubscription fetched sub w) else w).
Proof. intros Hw. destruct (enabled sub); [now apply sync_steady | exact Hw]. Qed.

Lemma syncAll_step_zone sub fetched w :
  zone (if enabled sub then snd (syncSubscription fetched sub w) else w)
  = zone w.
Proof.
  destruct (enabled sub); [| reflexivity].
  now destruct (sync_read fetched sub w) as (Hz & _).
Qed.

Lemma syncAll_step_keeps_others sub fetched w (P : CalendarEvent -> bool) :
  steady w ->
  (forall e, P e = true -> linkedTo (sub_id sub) e = false) ->
  filter P (readEvents
              (if enabled sub then snd (syncSubscription fetched sub w) else w))
  = filter P (readEvents w).
Proof.
  intros Hw HP. destruct (enabled sub); [| reflexivity].
  now apply sync_keeps_others.
Qed.

Lemma syncAll_keeps_others jobs : forall w (P : CalendarEvent -> bool),
  steady w ->
  (forall e, P e = true ->
             Forall (fun j => linkedTo (sub_id (fst j)) e = false) jobs) ->
  filter P (readEvents (snd (syncAll jobs w))) = filter P (readEvents w).
Proof.
  induction jobs as [| [sub fetched] jobs IH]; intros w P Hw HP; [reflexivity |].
  rewrite syncAll_cons, IH.
  - apply syncAll_step_keeps_others; [exact Hw |]. intros e He.
    specialize (HP e He). now inversion HP.
  - now apply syncAll_step_steady.
  - intros e He. specialize (HP e He). now inversion HP.
Qed.

(** The subscriptions after a sync that got a document. *)
Lemma stamp_after_sync (fetched : FetchOutcome) (content : string)
    (sub : CalendarSubscription) (w : World) :
  fetchedDocument fetched = Some content ->
  let w' := snd (syncSubscription fetched sub w) in
  (forall before s after,
      readSubscriptions w = before ++ s :: after ->
      sub_id s = sub_id sub ->
      Forall (fun x => sub_id x <> sub_id sub) before ->
      subscriptionsItem w'
      = map (stringifySubscription (zone w))
          (before ++ stamped (DateOfTime (Some (now w))) s :: after) /\
      readSubscriptions w'
      = before ++ stamped (DateOfTime (Some (now w))) s :: after) /\
  (Forall (fun s => sub_id s <> sub_id sub) (readSubscriptions w) ->
   subscriptionsItem w' = subscriptionsItem w).
Proof.
  intros Hdoc. cbv zeta.
  pose proof (sync_with_document fetched content sub w Hdoc) as H.
  pose proof (replaceSubscriptionEvents_frame (sub_id sub)
                (parseICalContent content (Some (sub_id sub))
                   (Some (sub_color sub))) w) as F.
  destruct (replaceSubscriptionEvents _ _ w) as [new w1].
  destruct F as (_ & _ & Hs & _ & _ & Hn & Hz).
  assert (readSubscriptions w1 = readSubscriptions w) as Hrs
    by (unfold readSubscriptions, getSubscriptions; cbn [fst]; now rewrite Hs).
  rewrite H. cbn [snd subscriptionsItem]. rewrite Hrs, Hn, Hz, Hs. split.
  - intros before s after Hw Hid Hb.
    rewrite Hw, (stampFirst_found _ _ before s after Hb Hid).
    split; [reflexivity |].
    rewrite readSubscriptions_item.
    pose proof (readSubscriptions_fixed w (zone w)) as Hfix.
    rewrite Hw in Hfix. apply Forall_app in Hfix as [Hfb Hfa].
    apply Forall_cons_iff in Hfa as [Hfs Hfa].
    rewrite map_app. cbn [map].
    rewrite (map_fixed _ _ Hfb), (map_fixed _ _ Hfa).
    now rewrite rereadSubscription_stamped.
  - intros Ha. now rewrite (stampFirst_absent _ _ _ Ha).
Qed.

Lemma deleteSubscription_read sid w :
  readEvents (snd (deleteSubscription sid w))
  = map (reread (zone w))
      (filter (fun e => negb (linkedTo sid e)) (readEvents w)) /\
  zone (snd (deleteSubscription sid w)) = zone w.
Proof.
  split; [| reflexivity].
  unfold readEvents at 1, getEvents. cbn [fst].
  change (eventsItem (snd (deleteSubscription sid w)))
    with (map (stringifyEvent (zone w))
            (filter (fun e => negb (linkedTo sid e)) (readEvents w))).
  now rewrite map_map.
Qed.

End SyncFacts.

Section SyncProperties.
Import JS ICal CalendarTab Reference StoreFacts EditFacts SyncFacts.

(** X8.  A sync touches no event outside its subscription.  Take any
    selection of events that are not linked to the subscription's id (the
    events of another subscription, the events without a subscription).
    When every stored event has its startDate key, the selected events
    read from the store are the same list before and after, whatever the
    fetch gave.  In any store, if the selection does not look at the dates,
    a failed sync leaves the selected events as they were and a sync that
    got a document leaves each of them as one JSON round trip gives it
    back. *)
Theorem sync_leaves_other_events (fetched : FetchOutcome)
    (sub : CalendarSubscription) (w : World) (P : CalendarEvent -> bool) :
  (forall e, P e = true -> linkedTo (sub_id sub) e = false) ->
  let w' := snd (syncSubscription fetched sub w) in
  (steady w -> filter P (readEvents w') = filter P (readEvents w)) /\
  ((forall e, P (reread (zone w) e) = P e) ->
   filter P (readEvents w')
   = match fetchedDocument fetched with
     | Some _ => map (reread (zone w)) (filter P (readEvents w))
     | None => filter P (readEvents w)
     end).
Proof.
  intros HP. cbv zeta. split.
  - intros Hw. now apply sync_keeps_others.
  - intros Hinv. destruct (sync_read fetched sub w) as (_ & _ & H).
    destruct (fetchedDocument fetched) as [content |]; [| now rewrite H].
    destruct H as (new & Hd & Hr & Hl & Hn).
    assert (forall l : list CalendarEvent,
              filter P l
              = filter P (filter (fun e => negb (linkedTo (sub_id sub) e)) l))
      as Hsplit.
    { induction l as [| e l IH]; [reflexivity |].
      cbn [filter]. destruct (P e) eqn:Pe.
      - rewrite (HP e Pe). cbn [negb filter]. rewrite Pe. now rewrite <- IH.
      - destruct (negb (linkedTo (sub_id sub) e)); cbn [filter]; rewrite ?Pe;
          exact IH. }
    rewrite (Hsplit (readEvents (snd _))), Hn.
    rewrite (filter_map_commute P (reread (zone w)) _ Hinv).
    now rewrite <- Hsplit.
Qed.

Lemma sync_leaves_other_events_witness :
  let sub := mkCalendarSubscription "sub_1" "Timetable"
               "https://example.org/t.ics" "#8b5cf6" None true in
  let fetched := FetchResponse true "200"
                   (Returned (exampleDocument (String LF EmptyString))) in
  let w := mkWorld
             [mkStoredEvent "event_0" (Some "Seminar"%string) None
                (DateText 1749978000000) DateAbsent (Some false) personal
                None None None None None;
              mkStoredEvent "event_1" (Some "Old lecture"%string) None
                (DateText 1749978000000) DateAbsent (Some false) subscription
                None None None None (Some "sub_1"%string)]
             [] (fun _ => "x"%string) 0 0%Z berlin2025 in
  let unlinked e := match subscriptionUrl (data e) with
                    | None => true
                    | Some _ => false
                    end in
  filter unlinked (readEvents (snd (syncSubscription fetched sub w)))
  = filter unlinked (readEvents w).
Proof.
  cbv zeta.
  refine (proj1 (sync_leaves_other_events
    (FetchResponse true "200"
       (Returned (exampleDocument (String LF EmptyString))))
    (mkCalendarSubscription "sub_1" "Timetable" "https://example.org/t.ics"
       "#8b5cf6" None true)
    (mkWorld
       [mkStoredEvent "event_0" (Some "Seminar"%string) None
          (DateText 1749978000000) DateAbsent (Some false) personal
          None None None None None;
        mkStoredEvent "event_1" (Some "Old lecture"%string) None
          (DateText 1749978000000) DateAbsent (Some false) subscription
          None None None None (Some "sub_1"%string)]
       [] (fun _ => "x"%string) 0 0%Z berlin2025)
    (fun e => match subscriptionUrl (data e) with
              | None => true
              | Some _ => false
              end) _) _).
  - intros e. unfold linkedTo. destruct (subscriptionUrl (data e));
      [discriminate | reflexivity].
  - repeat constructor; discriminate.
Defined.

(** X9.  A sync that got a document stamps the first subscription it reads
    with the id, and only its [lastSync], with the current time; the
    subscriptions it saves, and those read afterwards, are otherwise as they
    were read.  When no stored subscription has the id (it was deleted in
    the meantime), the subscriptions item is not written, and the parsed
    events are stored all the same: the events read afterwards that are
    linked to the id are the parsed drafts, each as JSON gives it back. *)
Theorem sync_stamps_subscription (fetched : FetchOutcome) (content : string)
    (sub : CalendarSubscription) (w : World) :
  fetchedDocument fetched = Some content ->
  let w' := snd (syncSubscription fetched sub w) in
  (forall before s after,
      readSubscriptions w = before ++ s :: after ->
      sub_id s = sub_id sub ->
      Forall (fun x => sub_id x <> sub_id sub) before ->
      subscriptionsItem w'
      = map (stringifySubscription (zone w))
          (before ++ stamped (DateOfTime (Some (now w))) s :: after) /\
      readSubscriptions w'
      = before ++ stamped (DateOfTime (Some (now w))) s :: after) /\
  (Forall (fun s => sub_id s <> sub_id sub) (readSubscriptions w) ->
   subscriptionsItem w' = subscriptionsItem w /\
   map data (filter (linkedTo (sub_id sub)) (readEvents w'))
   = map (rereadData (zone w))
       (parseICalContent content (Some (sub_id sub)) (Some (sub_color sub)))).
Proof.
  intros Hdoc. cbv zeta.
  destruct (stamp_after_sync fetched content sub w Hdoc) as [H1 H2].
  split; [exact H1 |]. intros Ha. split; [now apply H2 |].
  pose proof (sync_linked fetched sub w) as Hl. now rewrite Hdoc in Hl.
Qed.

Lemma sync_stamps_subscription_witness :
  let sub := mkCalendarSubscription "sub_1" "Timetable"
               "https://example.org/t.ics" "#8b5cf6" None true in
  let fetched := FetchResponse true "200"
                   (Returned (exampleDocument (String LF EmptyString))) in
  let w := mkWorld []
             [mkStoredSubscription "sub_1" "Timetable"
                "https://example.org/t.ics" "#8b5cf6" DateAbsent true]
             (fun _ => "x"%string) 0 1750000000000%Z berlin2025 in
  readSubscriptions (snd (syncSubscription fetched sub w))
  = [stamped (DateOfTime (Some 1750000000000%Z)) sub].
Proof.
  cbv zeta.
  destruct (sync_stamps_subscription
              (FetchResponse true "200"
                 (Returned (exampleDocument (String LF EmptyString))))
              (exampleDocument (String LF EmptyString))
              (mkCalendarSubscription "sub_1" "Timetable"
                 "https://example.org/t.ics" "#8b5cf6" None true)
              (mkWorld []
                 [mkStoredSubscription "sub_1" "Timetable"
                    "https://example.org/t.ics" "#8b5cf6" DateAbsent true]
                 (fun _ => "x"%string) 0 1750000000000%Z berlin2025)
              ltac:(vm_compute; reflexivity)) as [H _].
  apply (H [] (mkCalendarSubscription "sub_1" "Timetable"
                 "https://example.org/t.ics" "#8b5cf6" None true) []);
    [reflexivity | reflexivity | constructor].
Defined.

(** X10.  Syncing a subscription and then deleting it leaves no trace among
    the events, whatever the fetch gave: the events read from the store
    afterwards are the earlier ones without those linked to the
    subscription, each as one JSON round trip gives it back, and exactly as
    it was read before when every stored event has its startDate key. *)
Theorem sync_then_delete (fetched : FetchOutcome) (sub : CalendarSubscription)
    (w : World) :
  let w2 := snd (deleteSubscription (sub_id sub)
                   (snd (syncSubscription fetched sub w))) in
  readEvents w2
  = map (reread (zone w))
      (filter (fun e => negb (linkedTo (sub_id sub) e)) (readEvents w)) /\
  (steady w ->
   readEvents w2
   = filter (fun e => negb (linkedTo (sub_id sub) e)) (readEvents w)).
Proof.
  cbv zeta.
  assert (readEvents (snd (deleteSubscription (sub_id sub)
                             (snd (syncSubscription fetched sub w))))
          = map (reread (zone w))
              (filter (fun e => negb (linkedTo (sub_id sub) e)) (readEvents w)))
    as H.
  { destruct (deleteSubscription_read (sub_id sub)
                (snd (syncSubscription fetched sub w))) as [-> _].
    destruct (sync_read fetched sub w) as (Hz & _ & H). rewrite Hz.
    destruct (fetchedDocument fetched) as [content |]; [| now rewrite H].
    destruct H as (new & _ & _ & _ & Hn). rewrite Hn, map_map.
    apply map_ext_in. intros e He. apply reread_idem.
    apply filter_In in He as [He _].
    pose proof (readEvents_dated w) as Hall. rewrite Forall_forall in Hall.
    now apply Hall. }
  split; [exact H |]. intros Hw. rewrite H.
  rewrite <- (filter_map_commute _ (reread (zone w)))
    by (intros x; now rewrite linkedTo_reread).
  now rewrite (reread_read_steady w (zone w) Hw).
Qed.

(** X11.  Deleting a subscription removes from the subscriptions exactly
    those with the id: the list it saves, and the list read afterwards,
    hold the subscriptions it read that have another id.  When no
    subscription read has the id and no event read is linked to it, the two
    lists it saves are the two lists it read, and the events read afterwards
    are those read before when every stored event has its startDate key. *)
Theorem deleteSubscription_subscriptions (sid : string) (w : World) :
  let w' := snd (deleteSubscription sid w) in
  let saved :=
    filter (fun s => negb (String.eqb (sub_id s) sid)) (readSubscriptions w) in
  subscriptionsItem w' = map (stringifySubscription (zone w)) saved /\
  readSubscriptions w' = saved /\
  (forall s, In s (readSubscriptions w') <->
             In s (readSubscriptions w) /\ sub_id s <> sid) /\
  (Forall (fun s => sub_id s <> sid) (readSubscriptions w) ->
   Forall (fun e => subscriptionUrl (data e) <> Some sid) (readEvents w) ->
   readSubscriptions w' = readSubscriptions w /\
   eventsItem w' = map (stringifyEvent (zone w)) (readEvents w) /\
   (steady w -> readEvents w' = readEvents w)).
Proof.
  cbv zeta.
  set (keep := fun s : CalendarSubscription => negb (String.eqb (sub_id s) sid)).
  assert (subscriptionsItem (snd (deleteSubscription sid w))
          = map (stringifySubscription (zone w))
              (filter keep (readSubscriptions w))) as Hitem by reflexivity.
  assert (readSubscriptions (snd (deleteSubscription sid w))
          = filter keep (readSubscriptions w)) as Hread.
  { unfold readSubscriptions at 1, getSubscriptions. cbn [fst].
    rewrite Hitem, map_map. apply map_fixed.
    pose proof (readSubscriptions_fixed w (zone w)) as Hfix.
    rewrite Forall_forall in Hfix. apply Forall_forall. intros s Hs.
    apply filter_In in Hs as [Hs _]. exact (Hfix s Hs). }
  split; [exact Hitem |]. split; [exact Hread |]. split.
  - intros s. rewrite Hread. unfold keep.
    rewrite filter_In, negb_true_iff, String.eqb_neq. reflexivity.
  - intros Hs He.
    assert (filter (fun e => negb (linkedTo sid e)) (readEvents w)
            = readEvents w) as Hev.
    { apply filter_all. eapply Forall_impl; [| exact He]. intros e Hn.
      cbn in Hn. apply negb_true_iff.
      destruct (linkedTo sid e) eqn:E; [| reflexivity].
      apply linkedTo_iff in E. contradiction. }
    split; [| split].
    + rewrite Hread. apply filter_all. eapply Forall_impl; [| exact Hs].
      intros s Hn. cbn in Hn. unfold keep.
      now apply negb_true_iff, String.eqb_neq.
    + change (eventsItem (snd (deleteSubscription sid w)))
        with (map (stringifyEvent (zone w))
                (filter (fun e => negb (linkedTo sid e)) (readEvents w))).
      now rewrite Hev.
    + intros Hw. destruct (deleteSubscription_read sid w) as [-> _].
      rewrite Hev. now apply reread_read_steady.
Qed.

(** X12.  [syncAll] over subscriptions with distinct ids, on a store in
    which every event has its startDate key, treats each subscription on
    its own.  For an enabled subscription whose fetch gave a document, the
    events read afterwards that are linked to it are the drafts parsed from
    that document, each as JSON gives it back; for a disabled one, and for
    one whose fetch failed, they are the events that were linked to it
    before, a failure of one subscription having no effect on the others.
    Events linked to none of the subscriptions are not changed. *)
Theorem syncAll_each_subscription
    (jobs : list (CalendarSubscription * FetchOutcome)) (w : World) :
  NoDup (map (fun j => sub_id (fst j)) jobs) ->
  steady w ->
  let w' := snd (syncAll jobs w) in
  (forall sub fetched, In (sub, fetched) jobs ->
     match (if enabled sub then fetchedDocument fetched else None) with
     | Some content =>
         map data (filter (linkedTo (sub_id sub)) (readEvents w'))
         = map (rereadData (zone w))
             (parseICalContent content (Some (sub_id sub))
                (Some (sub_color sub)))
     | None =>
         filter (linkedTo (sub_id sub)) (readEvents w')
         = filter (linkedTo (sub_id sub)) (readEvents w)
     end) /\
  (forall P : CalendarEvent -> bool,
     (forall e, P e = true ->
                Forall (fun j => linkedTo (sub_id (fst j)) e = false) jobs) ->
     filter P (readEvents w') = filter P (readEvents w)).
Proof.
  intros Hnd Hw. cbv zeta.
  split; [| intros P HP; now apply syncAll_keeps_others].
  revert w Hw Hnd.
  induction jobs as [| [s0 f0] jobs IH]; intros w Hw Hnd sub fetched Hin;
    [destruct Hin |].
  cbn [map fst] in Hnd. inversion Hnd as [| ? ? Hnotin Hnd']; subst.
  rewrite syncAll_cons.
  pose proof (syncAll_step_steady s0 f0 w Hw) as Hw1.
  pose proof (syncAll_step_zone s0 f0 w) as Hz1.
  set (w1 := if enabled s0 then snd (syncSubscription f0 s0 w) else w) in *.
  destruct Hin as [Heq | Hin].
  - injection Heq as -> ->.
    assert (filter (linkedTo (sub_id sub)) (readEvents (snd (syncAll jobs w1)))
            = filter (linkedTo (sub_id sub)) (readEvents w1)) as Hrest.
    { apply syncAll_keeps_others; [exact Hw1 |]. intros e He.
      apply Forall_forall.
      intros j Hj. apply (linkedTo_distinct (sub_id sub)); [| exact He].
      intros Hsame. apply Hnotin. rewrite Hsame.
      now apply (in_map (fun j => sub_id (fst j))). }
    rewrite Hrest. subst w1. destruct (enabled sub); [| reflexivity].
    pose proof (sync_linked fetched sub w) as Hl.
    destruct (fetchedDocument fetched); [exact Hl | now rewrite Hl].
  - specialize (IH w1 Hw1 Hnd' sub fetched Hin). rewrite Hz1 in IH.
    assert (filter (linkedTo (sub_id sub)) (readEvents w1)
            = filter (linkedTo (sub_id sub)) (readEvents w)) as Hfirst.
    { subst w1. apply syncAll_step_keeps_others; [exact Hw |]. intros e He.
      apply (linkedTo_distinct (sub_id sub)); [| exact He].
      intros Hsame. apply Hnotin. rewrite <- Hsame.
      now apply (in_map (fun j => sub_id (fst j)) jobs (sub, fetched)). }
    destruct (if enabled sub then fetchedDocument fetched else None);
      [exact IH | now rewrite IH].
Qed.

Lemma syncAll_each_subscription_witness :
  let a := mkCalendarSubscription "sub_a" "Lectures" "https://example.org/a.ics"
             "#8b5cf6" None true in
  let b := mkCalendarSubscription "sub_b" "Sports" "https://example.org/b.ics"
             "#10b981" None true in
  let w := mkWorld
             [mkStoredEvent "event_0" (Some "Training"%string) None
                (DateText 1749978000000) DateAbsent (Some false) subscription
                None None None None (Some "sub_b"%string)]
             [mkStoredSubscription "sub_a" "Lectures"
                "https://example.org/a.ics" "#8b5cf6" DateAbsent true;
              mkStoredSubscription "sub_b" "Sports"
                "https://example.org/b.ics" "#10b981" DateAbsent true]
             (fun _ => "x"%string) 0 0%Z berlin2025 in
  let jobs := [(a, FetchResponse true "200"
                     (Returned (exampleDocument (String LF EmptyString))));
               (b, FetchRejected (Error "Failed to fetch"))] in
  filter (linkedTo "sub_b") (readEvents (snd (syncAll jobs w)))
  = filter (linkedTo "sub_b") (readEvents w).
Proof.
  cbv zeta.
  refine (proj1 (syncAll_each_subscription
                   [(mkCalendarSubscription "sub_a" "Lectures"
                       "https://example.org/a.ics" "#8b5cf6" None true,
                     FetchResponse true "200"
                       (Returned (exampleDocument (String LF EmptyString))));
                    (mkCalendarSubscription "sub_b" "Sports"
                       "https://example.org/b.ics" "#10b981" None true,
                     FetchRejected (Error "Failed to fetch"))] _ _ _)
            (mkCalendarSubscription "sub_b" "Sports"
               "https://example.org/b.ics" "#10b981" None true)
            (FetchRejected (Error "Failed to fetch")) _).
  - repeat constructor; cbn; intuition discriminate.
  - repeat constructor. discriminate.
  - right. left. reflexivity.
Defined.

(** X13.  Adding a subscription stores it, enabled and with the id "sub_" +
    the next suffix of the id source, and syncs it once.  If that first fetch
    fails, the subscription stays stored without a sync time and the events
    item is untouched; if it gives a document, the events read afterwards
    that are linked to the new id are the drafts parsed from it, each as
    JSON gives it back, and, the id being new among the stored
    subscriptions, the new subscription carries the sync time. *)
Theorem handleAddSubscription_first_sync (name url color : string)
    (fetched : FetchOutcome) (w : World) :
  let sub := mkCalendarSubscription ("sub_" ++ idSource w (idCount w)) name url
               color None true in
  let w' := snd (handleAddSubscription name url color fetched w) in
  match fetchedDocument fetched with
  | None =>
      readSubscriptions w' = readSubscriptions w ++ [sub] /\
      eventsItem w' = eventsItem w
  | Some content =>
      map data (filter (linkedTo (sub_id sub)) (readEvents w'))
      = map (rereadData (zone w))
          (parseICalContent content (Some (sub_id sub)) (Some color)) /\
      (Forall (fun s => sub_id s <> sub_id sub) (readSubscriptions w) ->
       readSubscriptions w'
       = readSubscriptions w ++ [stamped (DateOfTime (Some (now w))) sub])
  end.
Proof.
  cbv zeta.
  set (sub := mkCalendarSubscription ("sub_" ++ idSource w (idCount w)) name url
                color None true).
  set (w0 := mkWorld (eventsItem w)
               (map (stringifySubscription (zone w))
                  (readSubscriptions w ++ [sub]))
               (idSource w) (S (idCount w)) (now w) (zone w)).
  assert (snd (handleAddSubscription name url color fetched w)
          = snd (syncSubscription fetched sub w0)) as ->.
  { unfold handleAddSubscription. unfold bind at 1.
    change (addSubscription name url color w) with (sub, w0).
    unfold bind at 1. destruct (syncSubscription fetched sub w0). reflexivity. }
  assert (readSubscriptions w0 = readSubscriptions w ++ [sub]) as Hrs.
  { unfold w0. rewrite readSubscriptions_item, map_app.
    rewrite (map_fixed _ _ (readSubscriptions_fixed w (zone w))).
    reflexivity. }
  pose proof (sync_linked fetched sub w0) as Hl.
  destruct (fetchedDocument fetched) as [content |] eqn:E.
  - split; [exact Hl |]. intros Hnew.
    destruct (stamp_after_sync fetched content sub w0 E) as [Hst _].
    apply (Hst (readSubscriptions w) sub []); [exact Hrs | reflexivity |].
    exact Hnew.
  - destruct (sync_without_document fetched sub w0 E) as [err ->].
    cbn [snd]. split; [exact Hrs | reflexivity].
Qed.

End SyncProperties.

(** ** Dates without a time, plain values, and what unfolding keeps *)

Module ValueFacts.
Import JS ICal Reference.

Lemma length_append (a b : string) :
  String.length (a ++ b) = (String.length a + String.length b)%nat.
Proof. induction a as [| c a IH]; cbn; [reflexivity | now rewrite IH]. Qed.

Lemma replaceEscape_length_aux x r s :
  (String.length r <= 2)%nat ->
  (String.length (replaceEscape x r s) <= String.length s)%nat /\
  (forall a, String.length (replaceEscape x r (String a s))
             <= S (String.length s))%nat.
Proof.
  intros Hr. induction s as [| b s [IH1 IH2]].
  - split; [cbn; lia |]. intros a. cbn [replaceEscape].
    destruct (Ascii.eqb a BACKSLASH); cbn [String.length]; lia.
  - split; [apply IH2 |]. intros a. specialize (IH2 b).
    destruct (Ascii.eqb a BACKSLASH) eqn:Ea.
    + apply Ascii.eqb_eq in Ea. subst a.
      destruct (Ascii.eqb_spec b x) as [-> | Hbx].
      * rewrite UnescapeFacts.replaceEscape_hit, length_append.
        cbn [String.length]. lia.
      * apply Ascii.eqb_neq in Hbx.
        rewrite (UnescapeFacts.replaceEscape_miss x r b s Hbx).
        cbn [String.length] in *. lia.
    + rewrite (UnescapeFacts.replaceEscape_other x r a _ Ea).
      cbn [String.length] in *. lia.
Qed.

Lemma replaceEscape_length x r s :
  (String.length r <= 2)%nat ->
  (String.length (replaceEscape x r s) <= String.length s)%nat.
Proof. intros Hr. now apply replaceEscape_length_aux. Qed.

Lemma replaceEscape_plain x r s :
  noBackslash s = true -> replaceEscape x r s = s.
Proof.
  induction s as [| a s IH]; intros H; [reflexivity |].
  cbn [noBackslash] in H. apply andb_prop in H as [Ha Hs].
  apply negb_true_iff in Ha. cbn [replaceEscape]. rewrite Ha.
  now rewrite (IH Hs).
Qed.

Lemma unescapeText_other a s :
  Ascii.eqb a BACKSLASH = false ->
  CalendarService.unescapeText (String a s)
  = String a (CalendarService.unescapeText s).
Proof.
  intros H. unfold CalendarService.unescapeText.
  now rewrite !UnescapeFacts.replaceEscape_other by exact H.
Qed.

(** On a value with no two backslashes in a row the three replacements of
    calendarService.ts give what the single pass gives. *)
Lemma unescapeText_single_pass_aux s :
  (noDoubleBackslash s = true ->
   CalendarService.unescapeText s = unescapeSinglePass s) /\
  (forall a, noDoubleBackslash (String a s) = true ->
   CalendarService.unescapeText (String a s) = unescapeSinglePass (String a s)).
Proof.
  induction s as [| b s [IH1 IH2]].
  - split; [reflexivity |]. intros a _.
    destruct (Ascii.eqb a BACKSLASH) eqn:E.
    + apply Ascii.eqb_eq in E. subst a. reflexivity.
    + rewrite unescapeText_other by exact E.
      cbn [unescapeSinglePass]. rewrite E. reflexivity.
  - split; [apply IH2 |]. intros a Hn.
    pose proof (UnescapeFacts.noDoubleBackslash_tail _ _ Hn) as Hn'.
    pose proof (UnescapeFacts.noDoubleBackslash_tail _ _ Hn') as Hn''.
    destruct (Ascii.eqb a BACKSLASH) eqn:Ea.
    + apply Ascii.eqb_eq in Ea. subst a.
      assert (Ascii.eqb b BACKSLASH = false) as Eb.
      { cbn [noDoubleBackslash] in Hn. apply andb_prop in Hn as [Hn _].
        destruct (Ascii.eqb b BACKSLASH); [discriminate Hn | reflexivity]. }
      unfold CalendarService.unescapeText.
      destruct (Ascii.eqb_spec b ",") as [-> | Hbc].
      { rewrite UnescapeFacts.replaceEscape_hit. cbn [append].
        rewrite !UnescapeFacts.replaceEscape_other by reflexivity.
        fold (CalendarService.unescapeText s). rewrite (IH1 Hn'').
        reflexivity. }
      apply Ascii.eqb_neq in Hbc.
      rewrite (UnescapeFacts.replaceEscape_miss ",") by exact Hbc.
      rewrite (UnescapeFacts.replaceEscape_other "," _ b) by exact Eb.
      destruct (Ascii.eqb_spec b ";") as [-> | Hbs].
      { rewrite UnescapeFacts.replaceEscape_hit. cbn [append].
        rewrite !UnescapeFacts.replaceEscape_other by reflexivity.
        fold (CalendarService.unescapeText s). rewrite (IH1 Hn'').
        reflexivity. }
      apply Ascii.eqb_neq in Hbs.
      rewrite (UnescapeFacts.replaceEscape_miss ";") by exact Hbs.
      rewrite (UnescapeFacts.replaceEscape_other ";" _ b) by exact Eb.
      destruct (Ascii.eqb_spec b "n") as [-> | Hbn].
      { rewrite UnescapeFacts.replaceEscape_hit. cbn [append].
        fold (CalendarService.unescapeText s). rewrite (IH1 Hn'').
        reflexivity. }
      apply Ascii.eqb_neq in Hbn.
      rewrite (UnescapeFacts.replaceEscape_miss "n") by exact Hbn.
      rewrite (UnescapeFacts.replaceEscape_other "n" _ b) by exact Eb.
      fold (CalendarService.unescapeText s). rewrite (IH1 Hn'').
      cbn [unescapeSinglePass]. rewrite Eb, Hbc, Hbs, Hbn.
      change (Ascii.eqb BACKSLASH BACKSLASH) with true. cbv iota.
      reflexivity.
    + rewrite unescapeText_other by exact Ea.
      rewrite (IH2 b Hn'). cbn [unescapeSinglePass]. rewrite Ea. reflexivity.
Qed.

(** So does the single replacement of the earlier copy of CalendarTab.tsx. *)
Lemma V1_single_pass_aux s :
  (noDoubleBackslash s = true ->
   CalendarTabV1.unescapeText s = unescapeSinglePass s) /\
  (forall a, noDoubleBackslash (String a s) = true ->
   CalendarTabV1.unescapeText (String a s) = unescapeSinglePass (String a s)).
Proof.
  induction s as [| b s [IH1 IH2]].
  - split; [reflexivity |]. intros a _. cbn.
    destruct (Ascii.eqb a BACKSLASH); reflexivity.
  - split; [apply IH2 |]. intros a Hn.
    pose proof (UnescapeFacts.noDoubleBackslash_tail _ _ Hn) as Hn'.
    pose proof (UnescapeFacts.noDoubleBackslash_tail _ _ Hn') as Hn''.
    cbn [CalendarTabV1.unescapeText unescapeSinglePass].
    destruct (Ascii.eqb a BACKSLASH) eqn:Ea.
    + apply Ascii.eqb_eq in Ea. subst a.
      assert (Ascii.eqb b BACKSLASH = false) as Eb.
      { cbn [noDoubleBackslash] in Hn. apply andb_prop in Hn as [Hn _].
        destruct (Ascii.eqb b BACKSLASH); [discriminate Hn | reflexivity]. }
      rewrite Eb.
      destruct (Ascii.eqb_spec b "n") as [-> | Hbn];
        [cbn; now rewrite (IH1 Hn'') |].
      destruct (Ascii.eqb_spec b ",") as [-> | Hbc];
        [cbn; now rewrite (IH1 Hn'') |].
      destruct (Ascii.eqb_spec b ";") as [-> | Hbs];
        [cbn; now rewrite (IH1 Hn'') |].
      apply Ascii.eqb_neq in Hbn, Hbc, Hbs. rewrite ?Hbn, ?Hbc, ?Hbs.
      cbn [orb]. now rewrite (IH1 Hn'').
    + f_equal. exact (IH2 b Hn').
Qed.

Lemma unfoldFrom_count rest : forall line,
  List.length (unfoldFrom line rest)
  = S (List.length (filter (fun l => negb (isContinuation l)) rest)).
Proof.
  induction rest as [| nxt rest IH]; intros line; [reflexivity |].
  cbn [unfoldFrom filter]. destruct (isContinuation nxt); cbn [negb].
  - apply IH.
  - cbn [List.length]. now rewrite IH.
Qed.

Lemma append_assoc (a b c : string) : ((a ++ b) ++ c = a ++ (b ++ c))%string.
Proof. induction a as [| x a IH]; cbn; [reflexivity | now rewrite IH]. Qed.

Lemma unfoldFrom_text rest : forall line,
  concatLines (unfoldFrom line rest)
  = (line ++ concatLines (map unfolded rest))%string.
Proof.
  unfold concatLines.
  induction rest as [| nxt rest IH]; intros line; [reflexivity |].
  cbn [unfoldFrom map fold_right]. unfold unfolded at 1.
  destruct (isContinuation nxt).
  - rewrite IH. apply append_assoc.
  - cbn [fold_right]. now rewrite IH.
Qed.

End ValueFacts.

Section ValueProperties.
Import JS ICal Reference ValueFacts.

Local Open Scope Z_scope.

(** X18.  A date without a time.  For every valid calendar date from year
    0100 on, the eight digits YYYYMMDD followed by anything at all, read with
    the parameter VALUE=DATE, decode to the Date that the host makes of local
    midnight of that date; on the local clock that Date shows the date at
    00:00:00 whenever this midnight exists in the host's zone.  So do
    [parseDate] of CalendarTab.tsx, [parseICalDate] of calendarService.ts and
    [parseDate] of the earlier copy of CalendarTab.tsx. *)
Theorem date_only_decoding (zone : Zone) (y mo d : Z) (rest : string)
    (parts : list string) :
  validFields y mo d 0 0 0 -> 100 <= y -> isDateOnly parts = true ->
  boundedOffsets zone ->
  let t := MakeDate (MakeDay y (mo - 1) d) (MakeTime 0 0 0 0) in
  fieldsOfTime t = mkFields y (mo - 1) d 0 0 0 0 /\
  CalendarTab.parseDate (dateToken y mo d rest) parts = DateOfLocal (Some t) /\
  CalendarService.parseICalDate (dateToken y mo d rest) parts
  = DateOfLocal (Some t) /\
  CalendarTabV1.parseDate (dateToken y mo d rest) parts
  = DateOfLocal (Some t) /\
  timeValue zone (DateOfLocal (Some t)) = Some (UTC zone t) /\
  (existsLocally zone t ->
   localFields zone (DateOfLocal (Some t))
   = Some (mkFields y (mo - 1) d 0 0 0 0)).
Proof.
  intros Hv Hy Hp Hz. cbv zeta.
  pose proof (DecoderFacts.token_time_fields y mo d 0 0 0 Hv) as Hf.
  pose proof (DecoderFacts.token_time_local y mo d 0 0 0 Hv zone Hz) as Ht.
  destruct (DecoderFacts.token_arguments y mo d 0 0 0 Hv Hy EmptyString)
    as (A1 & A2 & A3 & _).
  assert (CalendarTab.parseDate (dateToken y mo d rest) parts
          = DateOfLocal
              (Some (MakeDate (MakeDay y (mo - 1) d) (MakeTime 0 0 0 0))))
    as Hmain.
  { unfold CalendarTab.parseDate. rewrite Hp.
    destruct rest as [| c rest'];
    match goal with |- context [dateToken y mo d ?x] =>
      set (tok := dateToken y mo d x) end;
    change (substring2 tok 0 4)
      with (substring2 (dateTimeToken y mo d 0 0 0 EmptyString) 0 4);
    change (substring2 tok 4 6)
      with (substring2 (dateTimeToken y mo d 0 0 0 EmptyString) 4 6);
    change (substring2 tok 6 8)
      with (substring2 (dateTimeToken y mo d 0 0 0 EmptyString) 6 8);
    rewrite A1, A2, A3; unfold newDate3; cbn [dateFromFields];
    rewrite (DecoderFacts.MakeFullYear_token y 0 0 0 0 0 Hy); reflexivity. }
  split; [exact Hf |]. split; [exact Hmain |]. split; [| split; [| split]].
  - rewrite DecoderFacts.parseICalDate_parseDate. exact Hmain.
  - rewrite <- Hmain. unfold CalendarTabV1.parseDate, CalendarTab.parseDate.
    rewrite Hp. reflexivity.
  - exact Ht.
  - intros Hex. unfold localFields. rewrite Ht.
    unfold existsLocally in Hex. now rewrite Hex, Hf.
Qed.

Lemma date_only_decoding_witness :
  CalendarTab.parseDate (dateToken 2025 5 22 "T093000Z")
    ["DTSTART"%string; "VALUE=DATE"%string]
  = DateOfLocal (Some (MakeDate (MakeDay 2025 (5 - 1) 22) (MakeTime 0 0 0 0))) /\
  localFields berlin2025
    (DateOfLocal (Some (MakeDate (MakeDay 2025 (5 - 1) 22) (MakeTime 0 0 0 0))))
  = Some (mkFields 2025 (5 - 1) 22 0 0 0 0).
Proof.
  destruct (date_only_decoding berlin2025 2025 5 22 "T093000Z"
              ["DTSTART"%string; "VALUE=DATE"%string])
    as (_ & H1 & _ & _ & _ & H2).
  - unfold validFields. change (daysInMonth 2025 5) with 31. lia.
  - lia.
  - reflexivity.
  - intros t. unfold berlin2025, msPerDay. cbn [offsetAtLocal].
    destruct ((1743303600000 <=? t) && (t <? 1761447600000)); lia.
  - split; [exact H1 |]. apply H2. vm_compute. reflexivity.
Defined.

(** Where the clock change skips midnight, the Date of a date without a time
    shows another time: on a host with the rules of America/Havana the
    token 20250309 decodes to a Date that shows 01:00 on the local clock. *)
Remark date_only_clock_gap :
  ~ existsLocally havana2025
      (MakeDate (MakeDay 2025 (3 - 1) 9) (MakeTime 0 0 0 0)) /\
  localFields havana2025
    (CalendarTab.parseDate "20250309"
       ["DTSTART"%string; "VALUE=DATE"%string])
  = Some (mkFields 2025 2 9 1 0 0 0).
Proof. split; [vm_compute; discriminate | vm_compute; reflexivity]. Qed.

(** X19.  On a value in which no two backslashes follow one another, the
    unescapers of the three parsers agree: the four replacements of
    CalendarTab.tsx, the three of calendarService.ts and the single
    replacement of the earlier copy of CalendarTab.tsx all give the result
    of one left-to-right pass over the escapes. *)
Theorem unescapers_agree (value : string) :
  noDoubleBackslash value = true ->
  CalendarTab.unescapeValue value = unescapeSinglePass value /\
  CalendarService.unescapeText value = unescapeSinglePass value /\
  CalendarTabV1.unescapeText value = unescapeSinglePass value.
Proof.
  intros H. split; [now apply UnescapeFacts.unescapeValue_single_pass |].
  split; [now apply unescapeText_single_pass_aux
         | now apply V1_single_pass_aux].
Qed.

Lemma unescapers_agree_witness :
  CalendarTab.unescapeValue "Midterm\, Calc III\nRoom 2"
  = unescapeSinglePass "Midterm\, Calc III\nRoom 2" /\
  CalendarService.unescapeText "Midterm\, Calc III\nRoom 2"
  = unescapeSinglePass "Midterm\, Calc III\nRoom 2" /\
  CalendarTabV1.unescapeText "Midterm\, Calc III\nRoom 2"
  = unescapeSinglePass "Midterm\, Calc III\nRoom 2".
Proof.
  apply (unescapers_agree "Midterm\, Calc III\nRoom 2"). reflexivity.
Defined.

(** X20.  Unescaping never makes a value longer, and a value without a
    backslash comes back as it is; this holds for [unescapeValue] of
    CalendarTab.tsx and for the two unescapers of calendarService.ts. *)
Theorem unescape_shrinks_and_keeps_plain (value : string) :
  (String.length (CalendarTab.unescapeValue value) <= String.length value)%nat /\
  (String.length (CalendarService.unescapeText value)
   <= String.length value)%nat /\
  (String.length (CalendarService.unescapeLocation value)
   <= String.length value)%nat /\
  (noBackslash value = true ->
   CalendarTab.unescapeValue value = value /\
   CalendarService.unescapeText value = value /\
   CalendarService.unescapeLocation value = value).
Proof.
  assert (forall x r s t, (String.length r <= 2)%nat ->
            (String.length s <= String.length t)%nat ->
            (String.length (replaceEscape x r s) <= String.length t)%nat)
    as Hstep.
  { intros x r s t Hr Hs. pose proof (replaceEscape_length x r s Hr). lia. }
  unfold CalendarTab.unescapeValue, CalendarService.unescapeText,
    CalendarService.unescapeLocation.
  split; [| split; [| split]].
  - repeat (apply Hstep; [cbn; lia |]). lia.
  - repeat (apply Hstep; [cbn; lia |]). lia.
  - repeat (apply Hstep; [cbn; lia |]). lia.
  - intros Hp. now rewrite !(replaceEscape_plain _ _ value Hp).
Qed.

(** X21.  What unfolding keeps.  The logical lines of a text are as many as
    its first line and the later lines that do not begin with a space or a
    tab; and, put end to end, they are the raw lines put end to end once
    every continuation line has lost its first character: unfolding drops
    that one character per continuation line and nothing else. *)
Theorem unfolding_keeps_text (x : string) :
  exists first rest,
    splitLines x = first :: rest /\
    List.length (logicalLines x)
    = S (List.length (filter (fun l => negb (isContinuation l)) rest)) /\
    concatLines (logicalLines x)
    = (first ++ concatLines (map unfolded rest))%string.
Proof.
  destruct (UnfoldFacts.splitLines_cons x) as (first & rest & Hx).
  exists first, rest. split; [exact Hx |].
  unfold logicalLines. rewrite Hx. cbn [unfoldLines].
  split; [apply unfoldFrom_count | apply unfoldFrom_text].
Qed.

End ValueProperties.



(** ** The merged view, the stored items, and the basic parser *)

Module ViewFacts.
Import JS Reference EventStorage.

Lemma existsb_eqb_In (x : string) (l : list string) :
  existsb (String.eqb x) l = true <-> In x l.
Proof.
  rewrite existsb_exists. split.
  - intros (y & Hin & Heq). apply String.eqb_eq in Heq. now subst y.
  - intros Hin. exists x. split; [exact Hin | apply String.eqb_refl].
Qed.

Lemma NoDup_map_filter {A : Type} (f : A -> string) (p : A -> bool)
    (l : list A) :
  NoDup (map f l) -> NoDup (map f (filter p l)).
Proof.
  induction l as [| a l IH]; intros H; [constructor |].
  cbn [map] in H. inversion H as [| ? ? Hnotin Hnd]; subst.
  cbn [filter]. destruct (p a); [| now apply IH].
  cbn [map]. constructor; [| now apply IH].
  intros Hin. apply Hnotin. apply in_map_iff in Hin as (b & Hb & Hin).
  apply filter_In in Hin as [Hin _]. rewrite <- Hb. now apply in_map.
Qed.

Lemma mapO_Forall {A B : Type} (f : A -> Outcome B) (P : B -> Prop) :
  (forall x y, f x = Returned y -> P y) ->
  forall xs ys, mapO f xs = Returned ys -> Forall P ys.
Proof.
  intros Hf. induction xs as [| x xs IH]; intros ys H.
  - injection H as <-. constructor.
  - cbn [mapO] in H. destruct (f x) as [y | e] eqn:E; [| discriminate H].
    cbn [bindO] in H. destruct (mapO f xs) as [ys' | e]; [| discriminate H].
    injection H as <-. constructor; [now apply (Hf x) | now apply IH].
Qed.

Lemma mapO_returns {A B : Type} (f : A -> Outcome B) (g : A -> B) :
  forall xs, Forall (fun x => f x = Returned (g x)) xs ->
             mapO f xs = Returned (map g xs).
Proof.
  induction xs as [| x xs IH]; intros H; [reflexivity |].
  inversion H as [| ? ? Hx Hxs]; subst.
  cbn [mapO map]. rewrite Hx. cbn [bindO]. rewrite (IH Hxs). reflexivity.
Qed.

Section Exams.

Variable JSON_parse : string -> Outcome JSValue.
Variable newDate : option JSValue -> Outcome Date.
Variable toText : option JSValue -> Outcome string.

Lemma examEvent_shape exam x :
  examEvent newDate toText exam = Returned x ->
  startsWith (x_id x) "exam_" = true /\ x_color x = "#ef4444"%string.
Proof.
  unfold examEvent. destruct exam; cbn [getProp bindO]; try discriminate;
    repeat match goal with
           | |- bindO ?o _ = Returned _ -> _ =>
               destruct o as [? | ?]; cbn [bindO]; [| discriminate]
           end;
    intros H; injection H as <-; (split; [| reflexivity]);
    cbn [x_id append];
    match goal with |- startsWith (String _ (String _ (String _ (String _
                         (String _ ?s))))) _ = _ => destruct s end;
    reflexivity.
Qed.

Lemma getExamsAsEvents_shape stored :
  exists exams,
    getExamsAsEvents JSON_parse newDate toText stored = Returned exams /\
    Forall (fun x => startsWith (x_id x) "exam_" = true /\
                     x_color x = "#ef4444"%string) exams.
Proof.
  unfold getExamsAsEvents.
  destruct stored as [[| c text] |];
    try (exists []; split; [reflexivity | constructor]).
  destruct (JSON_parse (String c text)) as [v | e]; cbn [bindO tryCatch];
    [| exists []; split; [reflexivity | constructor]].
  destruct v as [| b | q | s0 | items | members];
    try (exists []; split; [reflexivity | constructor]).
  destruct (mapO (examEvent newDate toText) items) as [exams | e] eqn:E;
    [| exists []; split; [reflexivity | constructor]].
  exists exams. split; [reflexivity |].
  apply (mapO_Forall _ _ examEvent_shape items exams E).
Qed.

End Exams.

Lemma mapO_throws {A B : Type} (f : A -> Outcome B) (xs : list A) x e :
  In x xs -> f x = Thrown e -> exists e', mapO f xs = Thrown e'.
Proof.
  intros Hin Hx. induction xs as [| y ys IH]; [destruct Hin |].
  cbn [mapO]. destruct (f y) as [b | e1] eqn:E; [| now exists e1].
  cbn [bindO]. destruct Hin as [-> | Hin]; [congruence |].
  destruct (IH Hin) as [e' ->]. now exists e'.
Qed.

Lemma hydrate_returns newDate (dateOf : option JSValue -> Date) v :
  v <> JNull ->
  newDate (property v "startDate") = Returned (dateOf (property v "startDate")) ->
  (truthyValue (property v "endDate") = true ->
   newDate (property v "endDate") = Returned (dateOf (property v "endDate"))) ->
  hydrate newDate v = Returned (hydrated dateOf v).
Proof.
  intros Hv Hs He. unfold hydrate, hydrated.
  assert (forall key, getProp v key = Returned (property v key)) as Hg
    by (intros key; destruct v; try reflexivity; congruence).
  rewrite !Hg. cbn [bindO]. rewrite Hs. cbn [bindO].
  destruct (truthyValue (property v "endDate")); [| reflexivity].
  now rewrite (He eq_refl).
Qed.

Lemma hydrate_throws newDate v e :
  newDate (property v "startDate") = Thrown e ->
  exists e', hydrate newDate v = Thrown e'.
Proof.
  intros H. unfold hydrate. destruct v; cbn [getProp bindO property] in *;
    try (rewrite H; cbn [bindO]; now eexists); now eexists.
Qed.

End ViewFacts.

Module BasicFacts.
Import JS Reference BasicParser.

Section Loop.

Variable today : Date.
Variable randomId : nat -> string.

Let step := step today randomId.
Let loop := loop today randomId.

Lemma loop_app a : forall st b,
  loop st (a ++ b) = bindO (loop st a) (fun st' => loop st' b).
Proof.
  induction a as [| l a IH]; intros st b; [reflexivity |].
  cbn [app]. unfold loop. cbn [BasicParser.loop]. fold loop.
  destruct (BasicParser.step today randomId st l) as [st' | e];
    [apply IH | reflexivity].
Qed.

Lemma startsWith_first (s p : string) (a b : ascii) (p' : string) :
  startsWith s (String a p') = true -> a <> b ->
  startsWith s (String b p) = false.
Proof.
  unfold startsWith. destruct s as [| c s]; [discriminate |].
  cbn [prefix]. destruct (Ascii.ascii_dec a c) as [-> | Hac];
    [| discriminate].
  intros _ Hcb. destruct (Ascii.ascii_dec b c) as [-> | _];
    [congruence | reflexivity].
Qed.

(** Without an event under construction, the first END:VEVENT throws. *)
Lemma loop_end_outside pre : forall st line post,
  currentEvent st = None ->
  Forall (fun l => startsWith l "BEGIN:VEVENT" = false) pre ->
  startsWith line "END:VEVENT" = true ->
  loop st (pre ++ line :: post) = Thrown TypeError.
Proof.
  induction pre as [| l pre IH]; intros st line post Hc Hpre Hline.
  - cbn [app]. unfold loop. cbn [BasicParser.loop]. unfold BasicParser.step.
    rewrite (startsWith_first line "EGIN:VEVENT" "E" "B" _ Hline)
      by discriminate.
    rewrite Hline, Hc. reflexivity.
  - inversion Hpre as [| ? ? Hl Hpre']; subst.
    cbn [app]. unfold loop. cbn [BasicParser.loop]. fold loop.
    unfold BasicParser.step. rewrite Hl.
    destruct (startsWith l "END:VEVENT"); rewrite Hc; [reflexivity |].
    cbn [bindO]. now apply IH.
Qed.

Lemma split_no_colon s : indexOf s ":" = None -> split ":" s = [s].
Proof.
  unfold indexOf. induction s as [| a s IH]; intros H; [reflexivity |].
  cbn [index] in H. cbn [split].
  destruct (Ascii.eqb_spec a ":") as [-> | Hne].
  - cbn [prefix] in H. destruct (Ascii.ascii_dec ":" ":"); [| congruence].
    destruct s; discriminate H.
  - cbn [prefix] in H. destruct (Ascii.ascii_dec ":" a) as [<- | _];
      [congruence |].
    destruct (index 0 ":" s) as [n |]; [discriminate H |].
    now rewrite IH.
Qed.

(** Inside an event, a DTSTART line without a colon throws. *)
Lemma step_start_without_colon st d line :
  currentEvent st = Some d ->
  startsWith line "DTSTART" = true -> indexOf line ":" = None ->
  step st line = Thrown TypeError.
Proof.
  intros Hc Hline Hcolon. unfold step, BasicParser.step.
  rewrite (startsWith_first line "EGIN:VEVENT" "D" "B" _ Hline)
    by discriminate.
  rewrite (startsWith_first line "ND:VEVENT" "D" "E" _ Hline) by discriminate.
  rewrite Hc. unfold readProperties. rewrite Hline.
  unfold secondPart. rewrite (split_no_colon line Hcolon). reflexivity.
Qed.

Lemma finish_shape d n ev : finish randomId d n = Some ev -> basicShape ev.
Proof.
  unfold finish. destruct (d_summary d) as [[| c r] |]; try discriminate.
  destruct (d_start d) as [st |]; [| discriminate].
  intros H. injection H as <-. split; [discriminate | reflexivity].
Qed.

Lemma step_shape st line st' :
  Forall basicShape (events st) -> step st line = Returned st' ->
  Forall basicShape (events st').
Proof.
  intros Hev. unfold step, BasicParser.step.
  destruct (startsWith line "BEGIN:VEVENT");
    [intros H; injection H as <-; exact Hev |].
  destruct (startsWith line "END:VEVENT").
  - destruct (currentEvent st) as [d |]; [| discriminate].
    intros H. injection H as <-. cbn [events].
    destruct (finish randomId d (List.length (events st))) as [ev |] eqn:E;
      [| exact Hev].
    apply Forall_app. split; [exact Hev |].
    constructor; [exact (finish_shape _ _ _ E) | constructor].
  - destruct (currentEvent st) as [d |];
      [| intros H; injection H as <-; exact Hev].
    destruct (readProperties today line d) as [d' | e]; [| discriminate].
    intros H. injection H as <-. exact Hev.
Qed.

Lemma loop_shape lines : forall st st',
  Forall basicShape (events st) -> loop st lines = Returned st' ->
  Forall basicShape (events st').
Proof.
  induction lines as [| l lines IH]; intros st st' Hev H.
  - injection H as <-. exact Hev.
  - unfold loop in H. cbn [BasicParser.loop] in H. fold loop in H.
    destruct (BasicParser.step today randomId st l) as [st1 | e] eqn:E;
      [| discriminate H].
    cbn [bindO] in H. apply (IH st1 st'); [| exact H].
    exact (step_shape st l st1 Hev E).
Qed.

End Loop.

End BasicFacts.

Section ViewProperties.
Import JS ICal Reference ViewFacts BasicFacts.

(** X22.  The merged list of [loadEvents] holds every exam event, and a
    stored event exactly when no exam event has its id; if the stored ids
    are distinct and the exam ids are distinct, so are the ids of the merged
    list. *)
Theorem mergeEvents_spec {A B : Type} (idA : A -> string) (idB : B -> string)
    (stored : list A) (exams : list B) :
  let merged := CalendarTab.mergeEvents idA idB stored exams in
  (forall x, In (inr x) merged <-> In x exams) /\
  (forall e, In (inl e) merged
             <-> In e stored /\ ~ In (idA e) (map idB exams)) /\
  (NoDup (map idA stored) -> NoDup (map idB exams) ->
   NoDup (map (mergedId idA idB) merged)).
Proof.
  cbv zeta. unfold CalendarTab.mergeEvents. split; [| split].
  - intros x. rewrite in_app_iff, !in_map_iff. split.
    + intros [(a & Ha & _) | (b & Hb & Hin)]; [discriminate Ha |].
      injection Hb as <-. exact Hin.
    + intros Hin. right. now exists x.
  - intros e. rewrite in_app_iff. split.
    + intros [H | H]; apply in_map_iff in H;
        [destruct H as (a & Ha & Hin) | destruct H as (b & Hb & _)];
        [| discriminate Hb].
      injection Ha as <-. apply filter_In in Hin as [Hin Hf].
      split; [exact Hin |]. apply negb_true_iff in Hf.
      intros Hex. apply existsb_eqb_In in Hex. congruence.
    + intros [Hin Hnot]. left. apply in_map_iff. exists e.
      split; [reflexivity |].
      apply filter_In. split; [exact Hin |]. apply negb_true_iff.
      destruct (existsb (String.eqb (idA e)) (map idB exams)) eqn:E;
        [| reflexivity].
      apply existsb_eqb_In in E. contradiction.
  - intros HA HB. rewrite map_app, !map_map. cbn [mergedId].
    apply NoDup_app.
    + now apply (NoDup_map_filter idA).
    + exact HB.
    + intros a Ha Hb. apply in_map_iff in Ha as (e & <- & Hin).
      apply filter_In in Hin as [_ Hf]. apply negb_true_iff in Hf.
      assert (existsb (String.eqb (idA e)) (map idB exams) = true) as Hex
        by (apply existsb_eqb_In; exact Hb).
      congruence.
Qed.

(** X23.  [getExamsAsEvents] returns whatever the exams item holds and never
    throws, also when making a Date or a text of a stored value throws; every
    event it gives has an id that begins with exam_ and the
    colour #ef4444.  So the merge of [loadEvents] drops no stored event
    whose id does not begin with exam_, and the id [addEvent] gives a new
    event never does. *)
Theorem exams_never_hide_added_events
    (JSON_parse : string -> Outcome EventStorage.JSValue)
    (newDate : option EventStorage.JSValue -> Outcome Date)
    (toText : option EventStorage.JSValue -> Outcome string)
    (stored : option string) :
  exists exams,
    EventStorage.getExamsAsEvents JSON_parse newDate toText stored
    = Returned exams /\
    Forall (fun x => startsWith (EventStorage.x_id x) "exam_" = true /\
                     EventStorage.x_color x = "#ef4444"%string) exams /\
    (forall events : list CalendarTab.CalendarEvent,
       Forall (fun e => startsWith (CalendarTab.id e) "exam_" = false) events ->
       CalendarTab.mergeEvents CalendarTab.id EventStorage.x_id events exams
       = map inl events ++ map inr exams) /\
    (forall d w,
       startsWith (CalendarTab.id (fst (CalendarTab.addEvent d w))) "exam_"
       = false).
Proof.
  destruct (getExamsAsEvents_shape JSON_parse newDate toText stored)
    as (exams & Hret & Hshape).
  exists exams. split; [exact Hret |]. split; [exact Hshape |]. split.
  - intros events Hev. unfold CalendarTab.mergeEvents. f_equal. f_equal.
    apply StoreFacts.filter_all. apply Forall_forall. intros e Hin.
    rewrite Forall_forall in Hev. specialize (Hev e Hin).
    apply negb_true_iff.
    destruct (existsb (String.eqb (CalendarTab.id e))
                (map EventStorage.x_id exams)) eqn:E; [| reflexivity].
    apply existsb_eqb_In in E. apply in_map_iff in E as (x & Hx & Hxin).
    rewrite Forall_forall in Hshape. destruct (Hshape x Hxin) as [Hp _].
    congruence.
  - intros d w. reflexivity.
Qed.

(** X24.  A stored array without a null entry, on whose start and end
    values the Date constructor returns, is read back entry by entry, in
    order: each event is the stored object with its startDate read as a Date
    and its endDate read as a Date when it is set.  If the Date constructor
    throws on the start value of one entry, as it does on an object whose
    toString is not callable, [getEvents] returns the empty list. *)
Theorem getEvents_hydrates
    (JSON_parse : string -> Outcome EventStorage.JSValue)
    (newDate : option EventStorage.JSValue -> Outcome Date)
    (dateOf : option EventStorage.JSValue -> Date)
    (text : string) (items : list EventStorage.JSValue) :
  text <> EmptyString ->
  JSON_parse text = Returned (EventStorage.JArray items) ->
  ((forall v, In v items ->
      v <> EventStorage.JNull /\
      newDate (property v "startDate")
      = Returned (dateOf (property v "startDate")) /\
      (EventStorage.truthyValue (property v "endDate") = true ->
       newDate (property v "endDate")
       = Returned (dateOf (property v "endDate")))) ->
   EventStorage.getEvents JSON_parse newDate (Some text)
   = Returned (map (hydrated dateOf) items)) /\
  ((exists v e, In v items /\ newDate (property v "startDate") = Thrown e) ->
   EventStorage.getEvents JSON_parse newDate (Some text) = Returned []).
Proof.
  intros Ht Hp. unfold EventStorage.getEvents.
  destruct text as [| c text]; [congruence |].
  rewrite Hp. cbn [bindO EventStorage.callMap]. split.
  - intros Hall.
    rewrite (mapO_returns (EventStorage.hydrate newDate) (hydrated dateOf));
      [reflexivity |].
    apply Forall_forall. intros v Hin.
    destruct (Hall v Hin) as (Hv & Hs & He). now apply hydrate_returns.
  - intros (v & e & Hin & Hthrow).
    destruct (hydrate_throws newDate v e Hthrow) as [e1 H1].
    destruct (mapO_throws _ items v e1 Hin H1) as [e2 ->]. reflexivity.
Qed.

Lemma getEvents_hydrates_witness :
  let stored :=
    EventStorage.JObject
      [("id"%string, EventStorage.JString "event_1");
       ("startDate"%string, EventStorage.JString "2025-06-15T09:00:00.000Z")] in
  EventStorage.getEvents
    (fun _ => Returned (EventStorage.JArray [stored]))
    (fun _ => Returned (DateOfTime (Some 1749978000000%Z))) (Some "[{}]"%string)
  = Returned [EventStorage.mkHydrated stored
                (DateOfTime (Some 1749978000000%Z)) None].
Proof.
  cbv zeta.
  refine (proj1 (getEvents_hydrates
           (fun _ => Returned (EventStorage.JArray
              [EventStorage.JObject
                 [("id"%string, EventStorage.JString "event_1");
                  ("startDate"%string,
                   EventStorage.JString "2025-06-15T09:00:00.000Z")]]))
           (fun _ => Returned (DateOfTime (Some 1749978000000%Z)))
           (fun _ => DateOfTime (Some 1749978000000%Z)) "[{}]"
           [EventStorage.JObject
              [("id"%string, EventStorage.JString "event_1");
               ("startDate"%string,
                EventStorage.JString "2025-06-15T09:00:00.000Z")]] _ _) _).
  - discriminate.
  - reflexivity.
  - intros v [<- | []]. split; [discriminate |]. split; [reflexivity |].
    discriminate.
Defined.

(** X25.  The basic parser of part_005 throws a TypeError on two kinds of
    input that the parser of the calendar tab reads without complaint: a
    document in which a line beginning with END:VEVENT comes before any line
    beginning with BEGIN:VEVENT, and a line beginning with DTSTART that has
    no colon, met inside an event. *)
Theorem basic_parser_throws (today : Date) (randomId : nat -> string)
    (data : string) (pre post : list string) (line : string) :
  BasicParser.splitNewlines data = pre ++ line :: post ->
  (Forall (fun l => startsWith l "BEGIN:VEVENT" = false) pre /\
   startsWith line "END:VEVENT" = true) \/
  (exists st d,
     BasicParser.loop today randomId (BasicParser.mkState [] None) pre
     = Returned st /\
     BasicParser.currentEvent st = Some d /\
     startsWith line "DTSTART" = true /\ indexOf line ":" = None) ->
  BasicParser.parseICal today randomId data = Thrown TypeError.
Proof.
  intros Hdata Hcase. unfold BasicParser.parseICal. rewrite Hdata.
  destruct Hcase as [[Hpre Hline] | (st & d & Hrun & Hc & Hline & Hcolon)].
  - rewrite (loop_end_outside today randomId pre (BasicParser.mkState [] None)
               line post eq_refl Hpre Hline).
    reflexivity.
  - rewrite loop_app, Hrun. cbn [bindO BasicParser.loop].
    rewrite (step_start_without_colon today randomId st d line Hc Hline Hcolon).
    reflexivity.
Qed.

Lemma basic_parser_throws_witness :
  BasicParser.parseICal (DateOfTime None) (fun _ => "id"%string)
    ("BEGIN:VCALENDAR" ++ String LF "END:VEVENT")
  = Thrown TypeError /\
  BasicParser.parseICal (DateOfTime None) (fun _ => "id"%string)
    ("BEGIN:VEVENT" ++ String LF "DTSTART;VALUE=DATE")
  = Thrown TypeError.
Proof.
  split.
  - apply (basic_parser_throws (DateOfTime None) (fun _ => "id"%string)
             ("BEGIN:VCALENDAR" ++ String LF "END:VEVENT")
             ["BEGIN:VCALENDAR"%string] [] "END:VEVENT");
      [reflexivity |].
    left. split; [repeat constructor | reflexivity].
  - apply (basic_parser_throws (DateOfTime None) (fun _ => "id"%string)
             ("BEGIN:VEVENT" ++ String LF "DTSTART;VALUE=DATE")
             ["BEGIN:VEVENT"%string] [] "DTSTART;VALUE=DATE");
      [reflexivity |].
    right. eexists. eexists.
    split; [reflexivity |]. split; [reflexivity |]. split; reflexivity.
Defined.

(** X26.  When the basic parser of part_005 returns, every event it returns
    has a non-empty summary, and is an exam exactly when its summary, in
    lower case, contains klausur or exam, and a lesson otherwise. *)
Theorem basic_parser_events (today : Date) (randomId : nat -> string)
    (data : string) (events : list BasicParser.CalendarEvent) :
  BasicParser.parseICal today randomId data = Returned events ->
  Forall basicShape events.
Proof.
  unfold BasicParser.parseICal. intros H.
  destruct (BasicParser.loop today randomId (BasicParser.mkState [] None)
              (BasicParser.splitNewlines data)) as [st |] eqn:E;
    [| discriminate H].
  injection H as <-.
  apply (loop_shape today randomId (BasicParser.splitNewlines data)
           (BasicParser.mkState [] None) st (Forall_nil _) E).
Qed.

Lemma basic_parser_events_witness :
  Forall basicShape
    [BasicParser.mkCalendarEvent "id" "Klausur Analysis"
       (DateOfLocal (Some 1747872000000%Z)) (DateOfLocal (Some 1747872000000%Z))
       None None BasicParser.exam].
Proof.
  apply (basic_parser_events (DateOfTime None) (fun _ => "id"%string)
           ("BEGIN:VEVENT" ++ String LF
              ("SUMMARY:Klausur Analysis" ++ String LF
                 ("DTSTART;VALUE=DATE:20250522" ++ String LF "END:VEVENT")))).
  vm_compute. reflexivity.
Defined.

End ViewProperties.



(** ** The update of calendarService.ts *)

Module UpdateFacts.
Import JS ICal CalendarTab.

Lemma findIndex_updateFirst eid p evs :
  match CalendarService.findIndex eid evs with
  | None => updateFirst eid p evs = None
  | Some index =>
      exists old,
        nth_error evs index = Some old /\ id old = eid /\
        updateFirst eid p evs
        = Some (firstn index evs
                ++ mkCalendarEvent (id old) (applyPatch p (data old))
                   :: skipn (S index) evs)
  end.
Proof.
  induction evs as [| e evs IH]; [reflexivity |].
  cbn [CalendarService.findIndex updateFirst].
  destruct (String.eqb_spec (id e) eid) as [He | He].
  - exists e. repeat split. exact He.
  - destruct (CalendarService.findIndex eid evs) as [index |]; cbn [option_map].
    + destruct IH as (old & Hn & Hid & ->). exists old. repeat split; assumption.
    + now rewrite IH.
Qed.

End UpdateFacts.

Section UpdateProperties.
Import JS ICal CalendarTab Reference UpdateFacts.

(** X27.  [updateEvent] of calendarService.ts stores exactly what
    [updateEventInStorage] of CalendarTab.tsx stores.  It returns null, and
    writes nothing, when no event it reads has the id; otherwise it returns
    the updated event, which has the id asked for and is in the list it
    saves, and so among the events read afterwards as JSON gives it back. *)
Theorem updateEvent_agrees (eid : string) (p : EventPatch) (w : World) :
  snd (CalendarService.updateEvent eid p w)
  = snd (updateEventInStorage eid p w) /\
  (fst (CalendarService.updateEvent eid p w) = None
   <-> Forall (fun e => id e <> eid) (readEvents w)) /\
  (fst (CalendarService.updateEvent eid p w) = None ->
   snd (CalendarService.updateEvent eid p w) = w) /\
  (forall updated,
     fst (CalendarService.updateEvent eid p w) = Some updated ->
     id updated = eid /\
     In (stringifyEvent (zone w) updated)
       (eventsItem (snd (CalendarService.updateEvent eid p w))) /\
     In (reread (zone w) updated)
       (readEvents (snd (CalendarService.updateEvent eid p w)))).
Proof.
  pose proof (findIndex_updateFirst eid p (readEvents w)) as H.
  unfold CalendarService.updateEvent, updateEventInStorage, bind.
  change (getEvents w) with (readEvents w, w). cbv zeta iota. cbn [fst].
  destruct (CalendarService.findIndex eid (readEvents w)) as [index |].
  - destruct H as (old & Hn & Hid & Hu). rewrite Hn, Hu. cbn [fst snd].
    split; [reflexivity |]. split; [| split].
    + split; [discriminate |]. intros Hall. exfalso.
      rewrite Forall_forall in Hall.
      exact (Hall old (nth_error_In _ _ Hn) Hid).
    + discriminate.
    + intros updated Heq. injection Heq as <-. split; [exact Hid |].
      assert (In (mkCalendarEvent (id old) (applyPatch p (data old)))
                (firstn index (readEvents w)
                 ++ mkCalendarEvent (id old) (applyPatch p (data old))
                    :: skipn (S index) (readEvents w))) as Hin
        by (apply in_or_app; right; now left).
      split.
      * cbn [saveEvents snd eventsItem].
        now apply (in_map (stringifyEvent (zone w))).
      * rewrite StoreFacts.readEvents_saved.
        now apply (in_map (reread (zone w))).
  - rewrite H. cbn [fst snd]. split; [reflexivity |]. split; [| split].
    + split; [| reflexivity]. intros _.
      destruct (EditFacts.first_holder eid (readEvents w))
        as [Hall | (before & e & after & Hs & He & Hb)]; [exact Hall |].
      rewrite Hs, (EditFacts.updateFirst_found eid p before e after Hb He) in H.
      discriminate H.
    + reflexivity.
    + discriminate.
Qed.

End UpdateProperties.
